(** * Portal / SocialMedia backend: montage build service

    A shallow embedding of the two Python files of the service,

    - [socialmediabackend/pipeline.py]: canvas normalisation, the CLIP
      similarity ordering of the videos and the composition of the montage;
    - [src/tabs/SocialMedia/backend/main.py]: the Supabase helpers, the
      build job [run_build_pipeline] and the [POST /api/run] handler,

    followed by the properties of the build orchestrator, the sequencer, the
    canvas normaliser and the storage reconciler.

    External collaborators (moviepy, torch/CLIP, the Supabase client, the
    wall clock) are not part of the repository: they enter as section
    variables, or as small models of the library calls the code makes. *)

From Stdlib Require Import ZArith QArith String Ascii List Permutation Lia Bool.
From Stdlib Require Import Sorted Lqa.
From Stdlib Require OrderedTypeEx.
From stdpp Require Import gmap strings list pretty.
From Equations Require Import Equations.
Import ListNotations.

Local Open Scope string_scope.
Local Open Scope Z_scope.

(* ===================================================================== *)
(** * Python strings and [os.path]                                        *)
(* ===================================================================== *)

(** Python [str] values are modelled by [string]; the helpers work on the
    list of characters.  [lower] changes the ASCII letters only: a
    property that concludes from a name not being recognised is stated
    for ASCII strings ([is_ascii]). *)

Definition chars (s : string) : list ascii := list_ascii_of_string s.
Definition str (l : list ascii) : string := string_of_list_ascii l.

Definition lower_ascii (c : ascii) : ascii :=
  let n := nat_of_ascii c in
  if ((65 <=? n) && (n <=? 90))%nat then ascii_of_nat (n + 32) else c.

(** [s.lower()] on the bytes of the string: the letters A to Z change, every
    other byte is kept.  Python lowers further characters (the Kelvin sign
    U+212A becomes k); on a string of ASCII characters the two agree. *)
Definition lower (s : string) : string := str (map lower_ascii (chars s)).

(** The strings on which this [lower] is Python's: ASCII characters only. *)
Definition is_ascii (s : string) : bool :=
  forallb (fun c => (nat_of_ascii c <? 128)%nat) (chars s).

Definition ascii_list_eqb (a b : list ascii) : bool :=
  bool_decide (a = b).

(** [s.endswith(suffix)] *)
Definition endswith (s suffix : string) : bool :=
  let ls := chars s in
  let lf := chars suffix in
  (length lf <=? length ls)%nat
  && ascii_list_eqb (drop (length ls - length lf) ls) lf.

(** [s.endswith((e1, e2, ...))]: true when one of the suffixes matches. *)
Definition endswith_any (s : string) (suffixes : list string) : bool :=
  existsb (endswith s) suffixes.

Definition slash : ascii := "/"%char.
Definition dot : ascii := "."%char.

(** Index of the last occurrence of [c] ([str.rfind], with [None] for -1). *)
Fixpoint rfind_from (c : ascii) (l : list ascii) (i : nat) (last : option nat)
  : option nat :=
  match l with
  | [] => last
  | x :: l' =>
      rfind_from c l' (S i) (if bool_decide (x = c) then Some i else last)
  end.

Definition rfind (c : ascii) (l : list ascii) : option nat :=
  rfind_from c l 0%nat None.

(** [os.path.basename(p)]: what follows the last slash. *)
Definition basename (p : string) : string :=
  let l := chars p in
  match rfind slash l with
  | Some i => str (drop (S i) l)
  | None => p
  end.

(** [os.path.dirname(p)]: what precedes the last slash, trailing slashes
    stripped unless the head consists of slashes only. *)
Fixpoint rstrip_slashes (rev_head : list ascii) : list ascii :=
  match rev_head with
  | x :: t => if bool_decide (x = slash) then rstrip_slashes t else rev_head
  | [] => []
  end.

Definition dirname (p : string) : string :=
  let l := chars p in
  match rfind slash l with
  | Some i =>
      let head := take (S i) l in
      match rstrip_slashes (rev head) with
      | [] => str head
      | r => str (rev r)
      end
  | None => ""
  end.

(** [os.path.join(a, b)] for two components. *)
Definition os_path_join (a b : string) : string :=
  match chars b with
  | c :: _ =>
      if bool_decide (c = slash) then b
      else match last (chars a) with
           | None => b
           | Some e => if bool_decide (e = slash) then a ++ b else a ++ "/" ++ b
           end
  | [] =>
      match last (chars a) with
      | None => b
      | Some e => if bool_decide (e = slash) then a else a ++ "/"
      end
  end.

(** [os.path.splitext(p)]: split at the last dot of the last component,
    leading dots of that component not counting. *)
Definition splitext (p : string) : string * string :=
  let l := chars p in
  let start := match rfind slash l with Some i => S i | None => 0%nat end in
  match rfind dot l with
  | Some d =>
      if (start <=? d)%nat
         && existsb (fun c => negb (bool_decide (c = dot)))
                    (take (d - start) (drop start l))
      then (str (take d l), str (drop d l))
      else (p, "")
  | None => (p, "")
  end.

Example basename_incoming : basename "incoming/clip.mp4" = "clip.mp4".
Proof. reflexivity. Qed.

Example dirname_job : dirname "/tmp/social-work/job_1/clip.mp4" = "/tmp/social-work/job_1".
Proof. reflexivity. Qed.

Example join_job : os_path_join "/tmp/social-work/job_1" "clip.mp4"
                   = "/tmp/social-work/job_1/clip.mp4".
Proof. reflexivity. Qed.

Example splitext_archive :
  splitext "archive/clip.mp4.20240101_120000"
  = ("archive/clip.mp4", ".20240101_120000").
Proof. reflexivity. Qed.

Example splitext_hidden : splitext "archive/.profile" = ("archive/.profile", "").
Proof. reflexivity. Qed.

Example endswith_upper : endswith (lower "A/CLIP.MP4") ".mp4" = true.
Proof. reflexivity. Qed.

(* ===================================================================== *)
(** * Errors                                                              *)
(* ===================================================================== *)

(** Requests the service sends to Supabase (Storage bucket and the [files]
    table of the catalog). *)
Inductive Request :=
| Select                                        (* files: pending rows *)
| Download (path : string)                      (* storage: download *)
| Upload (dest : string)                        (* storage: upload *)
| Move (from_path to_path : string)             (* storage: move *)
| Update (row_id : Z) (new_path : string)       (* files: update file_path *)
| Insert (name path : string).                  (* files: insert output row *)

#[global] Instance Request_eq_dec : EqDecision Request.
Proof. solve_decision. Defined.

(** Exceptions, by where they are raised. *)
Inductive Exception :=
| RuntimeError (msg : string)      (* raised by pipeline.py itself *)
| MediaError (path : string)       (* moviepy cannot open, decode or encode *)
| ApiError (req : Request)         (* the Supabase client reports a failure *)
| OSError (path : string).         (* the local file cannot be written *)

#[global] Instance Exception_eq_dec : EqDecision Exception.
Proof. solve_decision. Defined.

Inductive Result (A : Type) :=
| Ok (a : A)
| Raise (e : Exception).
Arguments Ok {A} a.
Arguments Raise {A} e.

(* ===================================================================== *)
(** * pipeline.py                                                         *)
(* ===================================================================== *)

Definition INSTAGRAM_WIDTH : Z := 1080.
Definition INSTAGRAM_HEIGHT : Z := 1920.
Definition MAX_FRAMES_PER_VIDEO : nat := 5.
Definition MIN_CLIP_DURATION : Q := 1 # 2.

(** What the code reads of a moviepy clip: the file it was opened from, the
    frame size [w], [h] and the duration (an [ImageClip] has none until
    [set_duration]). *)
Record Clip := mkClip {
  clip_path : string;
  clip_w : Z;
  clip_h : Z;
  clip_duration : option Q
}.

#[global] Instance Q_eq_dec : EqDecision Q.
Proof. solve_decision. Defined.
#[global] Instance Clip_eq_dec : EqDecision Clip.
Proof. solve_decision. Defined.

(** ** The moviepy calls of the normaliser

    [clip.resize(height=H)] asks for the size [w * H / h, H] and each frame
    is resized to the integer part of it.  The resizer needs a frame of
    positive size and a target of at least one column ([resizable]); on any
    other clip it raises, where this function goes on with a width of 0. *)
Definition resize_height (c : Clip) (H : Z) : Clip :=
  {| clip_path := clip_path c;
     clip_w := clip_w c * H / clip_h c;
     clip_h := H;
     clip_duration := clip_duration c |}.

(** The clips that [resize(height=H)] accepts. *)
Definition resizable (c : Clip) (H : Z) : Prop :=
  0 < clip_w c /\ 0 < clip_h c /\ clip_h c <= clip_w c * H.

(** A Python slice bound [i] on a sequence of length [len]. *)
Definition slice_index (i len : Z) : Z :=
  if i <? 0 then Z.max (i + len) 0 else Z.min i len.

Definition slice_length (start stop len : Z) : Z :=
  Z.max 0 (slice_index stop len - slice_index start len).

(** The column window [x1, x2) of [clip.crop(x_center=xc, width=wd)]:
    [x1, x2 = xc - wd / 2, xc + wd / 2] when [xc] is truthy, then
    [x1 or 0], [x2 or clip.size[0]], both passed through [int]. *)
Definition crop_window (c : Clip) (x_center width : Z) : Z * Z :=
  if x_center =? 0 then (0, clip_w c)
  else
    let x1 := Z.quot (2 * x_center - width) 2 in
    let x2 := if 2 * x_center + width =? 0 then clip_w c
              else Z.quot (2 * x_center + width) 2 in
    (x1, x2).

(** [clip.crop(x_center=xc, width=wd)]: every frame becomes
    [pic[0:h, int(x1):int(x2)]]. *)
Definition crop_x_center (c : Clip) (x_center width : Z) : Clip :=
  let '(x1, x2) := crop_window c x_center width in
  {| clip_path := clip_path c;
     clip_w := slice_length x1 x2 (clip_w c);
     clip_h := slice_length 0 (clip_h c) (clip_h c);
     clip_duration := clip_duration c |}.

Definition set_duration (c : Clip) (d : Q) : Clip :=
  {| clip_path := clip_path c; clip_w := clip_w c; clip_h := clip_h c;
     clip_duration := Some d |}.

(** ** [_resize_crop_9x16_video] *)
Definition _resize_crop_9x16_video (v : Clip) : Clip :=
  let v := resize_height v INSTAGRAM_HEIGHT in
  let x_center := clip_w v / 2 in
  if INSTAGRAM_WIDTH <=? clip_w v
  then crop_x_center v x_center INSTAGRAM_WIDTH
  else v.

(** ** [_resize_crop_9x16_image], from the opened [ImageClip(path)] *)
Definition _resize_crop_9x16_image (opened : Clip) : Clip :=
  let img := set_duration opened 3 in
  let img := resize_height img INSTAGRAM_HEIGHT in
  let x_center := clip_w img / 2 in
  if INSTAGRAM_WIDTH <=? clip_w img
  then crop_x_center img x_center INSTAGRAM_WIDTH
  else img.

Definition Qltb (a b : Q) : bool := negb (Qle_bool b a).

(** [int(torch.argmax(torch.stack(sims)))]: the index of the first maximal
    value. *)
Fixpoint argmax_from (best_i : nat) (best : Q) (i : nat) (xs : list Q) : nat :=
  match xs with
  | [] => best_i
  | x :: xs' =>
      if Qltb best x then argmax_from i x (S i) xs'
      else argmax_from best_i best (S i) xs'
  end.

Definition argmax (xs : list Q) : nat :=
  match xs with
  | [] => 0%nat
  | x :: xs' => argmax_from 0%nat x 1%nat xs'
  end.

Definition video_exts : list string := [".mp4"; ".mov"; ".m4v"; ".avi"; ".mkv"].
Definition image_exts : list string := [".jpg"; ".jpeg"; ".png"; ".webp"].

Definition is_video (p : string) : bool := endswith_any (lower p) video_exts.
Definition is_image (p : string) : bool := endswith_any (lower p) image_exts.

(** The montage written by [build_montage_for_paths]: its local path, the
    clips it concatenates, in order, and the encoded bytes. *)
Record Montage := mkMontage {
  out_path : string;
  out_clips : list Clip;
  out_bytes : string
}.

(** [Result] is the exception monad of the Python code. *)
#[global] Instance Result_ret : MRet Result := fun _ a => Ok a.
#[global] Instance Result_bind : MBind Result :=
  fun _ _ f m => match m with Ok a => f a | Raise e => Raise e end.

(** A call that raises when the backend has no answer. *)
Definition or_raise {A : Type} (e : Exception) (o : option A) : Result A :=
  match o with Some a => Ok a | None => Raise e end.

Lemma argmax_from_bound best_i best i xs :
  (best_i < i)%nat -> (argmax_from best_i best i xs < i + length xs)%nat.
Proof.
  revert best_i best i.
  induction xs as [|x xs IH]; intros best_i best i Hlt; simpl; [lia|].
  destruct (Qltb best x).
  - specialize (IH i x (S i)). lia.
  - specialize (IH best_i best (S i)). lia.
Qed.

Lemma argmax_lt_length xs : xs <> [] -> (argmax xs < length xs)%nat.
Proof.
  destruct xs as [|x xs]; [congruence|]. intros _. simpl.
  pose proof (argmax_from_bound 0%nat x 1%nat xs). lia.
Qed.

Section Service.

(** The media backend: moviepy, OpenCV and the CLIP model. *)
Context {Tensor Frame : Type}.
(** What the decoder reads from a video file (width, height, duration in
    seconds) and from an image file (width, height); [None] when the file
    cannot be opened. *)
Variable probe_video : string -> option (Z * Z * Q).
Variable probe_image : string -> option (Z * Z).
(** [clip.get_frame(t)]; [None] when it raises. *)
Variable get_frame : Clip -> Q -> option Frame.
(** [_image_embedding_from_frame]: colour conversion, preprocessing and
    [_model.encode_image]; [None] when any of them raises. *)
Variable _image_embedding_from_frame : Frame -> option Tensor.
(** [torch.mean(torch.stack(embs), dim=0)] on a non-empty list. *)
Variable tensor_mean : list Tensor -> Tensor.
(** [torch.cosine_similarity(a, b, dim=0)], read as a number. *)
Variable cosine_similarity : Tensor -> Tensor -> Q.
(** [concatenate_videoclips(clips, method="compose")] followed by
    [write_videofile(out_path, fps=30)]: the bytes written, [None] when the
    encoder raises. *)
Variable write_videofile : list Clip -> string -> option string.

(** [VideoFileClip(path)] and [ImageClip(path)]; [None] when they raise. *)
Definition VideoFileClip (path : string) : option Clip :=
  '(w, h, d) ← probe_video path; Some (mkClip path w h (Some d)).

Definition ImageClip (path : string) : option Clip :=
  '(w, h) ← probe_image path; Some (mkClip path w h None).

(** The dictionaries [{"path": v, "emb": emb}] of the ordering loop. *)
Record Entry := mkEntry { path : string; emb : Tensor }.

Definition sample_times (d : Q) (n_frames : nat) : list Q :=
  map (fun i : nat =>
         (d * inject_Z (Z.of_nat i) / inject_Z (Z.of_nat (n_frames + 1)))%Q)
      (seq 1 n_frames).

(** ** [_video_embedding]: every exception of the body yields [None]. *)
Definition _video_embedding (path : string) (n_frames : nat) : option Tensor :=
  match VideoFileClip path with
  | None => None
  | Some clip_obj =>
      match clip_duration clip_obj with
      | None => None
      | Some d =>
          if Qltb d MIN_CLIP_DURATION then None
          else
            match mapM (fun t => get_frame clip_obj t
                                 ≫= _image_embedding_from_frame)
                       (sample_times d n_frames) with
            | Some (e :: embs) => Some (tensor_mean (e :: embs))
            | _ => None
            end
      end
  end.

(** The loop filling [remaining]. *)
Definition embed_videos (videos : list string) : list Entry :=
  omap (fun v => mkEntry v <$> _video_embedding v MAX_FRAMES_PER_VIDEO) videos.

Definition similarities (current : Entry) (remaining : list Entry) : list Q :=
  map (fun r => cosine_similarity (emb current) (emb r)) remaining.

(** The [while remaining:] loop. *)
Equations? greedy_loop (current : Entry) (remaining ordered_videos : list Entry)
  : list Entry by wf (length remaining) lt :=
  greedy_loop current [] ordered_videos := ordered_videos;
  greedy_loop current (r :: rs) ordered_videos :=
    let next_idx := argmax (similarities current (r :: rs)) in
    let current' := nth next_idx (r :: rs) r in
    greedy_loop current' (delete next_idx (r :: rs)) (ordered_videos ++ [current']).
Proof.
  pose proof (argmax_lt_length (similarities current (r :: rs))) as Hlt.
  unfold similarities in Hlt. rewrite length_map in Hlt.
  rewrite length_delete.
  - simpl. lia.
  - apply lookup_lt_is_Some. apply Hlt. discriminate.
Qed.

(** [ordered_videos] after the [if remaining:] block. *)
Definition order_videos (remaining : list Entry) : list Entry :=
  match remaining with
  | [] => []
  | current :: rest => greedy_loop current rest [current]
  end.

Definition compose_video (v : Entry) : Result Clip :=
  vc ← or_raise (MediaError (path v)) (VideoFileClip (path v));
  mret (_resize_crop_9x16_video vc).

Definition compose_image (im : string) : Result Clip :=
  img ← or_raise (MediaError im) (ImageClip im);
  mret (_resize_crop_9x16_image img).

(** [final_clips]: the ordered videos, then the images. *)
Definition final_clips (ordered_videos : list Entry) (images : list string)
  : Result (list Clip) :=
  vs ← mapM compose_video ordered_videos;
  ims ← mapM compose_image images;
  mret ((vs ++ ims)%list).

(** ** [build_montage_for_paths] *)
Definition build_montage_for_paths (local_paths : list string) : Result Montage :=
  let videos := List.filter is_video local_paths in
  let images := List.filter is_image local_paths in
  let ordered_videos := order_videos (embed_videos videos) in
  clips ← final_clips ordered_videos images;
  match clips with
  | [] => Raise (RuntimeError "No usable video or image clips found to compose.")
  | _ :: _ =>
      let out_dir := match local_paths with
                     | p :: _ => dirname p
                     | [] => "/tmp"
                     end in
      let out_path := os_path_join out_dir "montage_output.mp4" in
      match write_videofile clips out_path with
      | Some bytes => Ok (mkMontage out_path clips bytes)
      | None => Raise (MediaError out_path)
      end
  end.


(* ===================================================================== *)
(** * main.py                                                             *)
(* ===================================================================== *)

(** A row of the [files] table. *)
Record Row := mkRow {
  row_id : Z;
  row_name : string;
  file_path : string;
  created_at : string;
  mime_type : string;
  file_size : Z;
  is_trashed : bool;
  updated_at : option string;
  folder_id : option Z
}.

(** What a build job reads and writes: the Storage bucket [SOCIAL_BUCKET],
    the [files] table, the wall clock, the module globals, and a journal of
    the requests sent to Supabase with their outcome. *)
Record World := mkWorld {
  bucket : gmap string string;
  files : list Row;
  clock : Z;
  journal : list (Request * bool);
  IS_CREATING : bool;
  LAST_RUN : option string;
  STARTED_AT : option string
}.

Definition set_bucket (b : gmap string string) (w : World) : World :=
  mkWorld b (files w) (clock w) (journal w) (IS_CREATING w) (LAST_RUN w) (STARTED_AT w).
Definition set_files (f : list Row) (w : World) : World :=
  mkWorld (bucket w) f (clock w) (journal w) (IS_CREATING w) (LAST_RUN w) (STARTED_AT w).
Definition set_IS_CREATING (b : bool) (w : World) : World :=
  mkWorld (bucket w) (files w) (clock w) (journal w) b (LAST_RUN w) (STARTED_AT w).
Definition set_LAST_RUN (t : option string) (w : World) : World :=
  mkWorld (bucket w) (files w) (clock w) (journal w) (IS_CREATING w) t (STARTED_AT w).
Definition set_STARTED_AT (t : option string) (w : World) : World :=
  mkWorld (bucket w) (files w) (clock w) (journal w) (IS_CREATING w) (LAST_RUN w) t.

(** A request reached Supabase: it is journalled and time passes. *)
Definition logged (req : Request) (ok : bool) (w : World) : World :=
  mkWorld (bucket w) (files w) (clock w + 1) (journal w ++ [(req, ok)])
          (IS_CREATING w) (LAST_RUN w) (STARTED_AT w).

(** ** The monad of the job: state and exceptions *)
Definition M (A : Type) : Type := World -> Result A * World.

#[global] Instance M_ret : MRet M := fun _ a w => (Ok a, w).
#[global] Instance M_bind : MBind M :=
  fun _ _ f m w =>
    match m w with
    | (Ok a, w1) => f a w1
    | (Raise e, w1) => (Raise e, w1)
    end.

Definition get {A : Type} (f : World -> A) : M A := fun w => (Ok (f w), w).
Definition modify (f : World -> World) : M unit := fun w => (Ok tt, f w).
Definition lift {A : Type} (r : Result A) : M A := fun w => (r, w).

(** [try: body finally: cleanup] *)
Definition try_finally {A : Type} (body : M A) (cleanup : World -> World) : M A :=
  fun w => let '(r, w1) := body w in (r, cleanup w1).

(** [try: body except Exception: handler] *)
Definition try_except {A : Type} (body handler : M A) : M A :=
  fun w =>
    match body w with
    | (Ok a, w1) => (Ok a, w1)
    | (Raise _, w1) => handler w1
    end.

(** [for x in l: body(x)] *)
Fixpoint for_ {A : Type} (l : list A) (body : A -> M unit) : M unit :=
  match l with
  | [] => mret tt
  | x :: l' => _ ← body x; for_ l' body
  end.

(** ** The environment of the process *)

(** Requests that fail for a reason outside the model (network, quota). *)
Variable fault : Request -> bool.
(** [datetime.isoformat()] and [datetime.strftime(fmt)] of a clock value. *)
Variable isoformat : Z -> string.
Variable strftime : Z -> string -> string.
(** [SOCIAL_WORKDIR], and the directory name [job_{pid}_{ms}_{rand}] that
    [TmpDir] draws. *)
Variable WORK_DIR : string.
Variable job_dir : Z -> string.
(** [open(local_path, "wb")] and the write that follows: whether the file
    system takes the file (it refuses a path that names a directory, for
    one). *)
Variable open_wb : string -> bool.

(** One request: it succeeds when no fault hits it and the stored state
    allows it. *)
Definition supabase {A : Type} (req : Request) (possible : World -> bool)
    (answer : World -> A) (effect : World -> World) : M A :=
  fun w =>
    if negb (fault req) && possible w
    then (Ok (answer w), logged req true (effect w))
    else (Raise (ApiError req), logged req false w).

Definition utcnow : M Z := get clock.

(** [now_iso] *)
Definition now_iso : M string := t ← utcnow; mret (isoformat t ++ "Z").

(** ** DB and Storage helpers *)

Fixpoint insert_sorted (r : Row) (l : list Row) : list Row :=
  match l with
  | [] => [r]
  | x :: l' =>
      if String.leb (created_at r) (created_at x) then r :: x :: l'
      else x :: insert_sorted r l'
  end.

Definition order_by_created_at (l : list Row) : list Row :=
  foldr insert_sorted [] l.

(** The rows [file_path LIKE 'incoming/%' AND is_trashed = false], by
    [created_at] ascending. *)
Definition pending (table : list Row) : list Row :=
  order_by_created_at
    (List.filter (fun r => String.prefix "incoming/" (file_path r)
                           && negb (is_trashed r)) table).

(** [sb_list_incoming_files] *)
Definition sb_list_incoming_files : M (list Row) :=
  supabase Select (fun _ => true) (fun w => pending (files w)) (fun w => w).

(** [sb_storage_download_to]: the object is fetched, then written to the
    job directory. *)
Definition sb_storage_download_to (path local_path : string) : M unit :=
  _ ← supabase (Download path)
               (fun w => bool_decide (is_Some (bucket w !! path)))
               (fun _ => tt) (fun w => w);
  lift (if open_wb local_path then Ok tt else Raise (OSError local_path)).

(** [sb_storage_upload_from]; the local file is the montage just written.
    An upload never replaces an existing object. *)
Definition sb_storage_upload_from (local : Montage) (dest_path : string) : M unit :=
  supabase (Upload dest_path)
           (fun w => bool_decide (bucket w !! dest_path = None))
           (fun _ => tt)
           (fun w => set_bucket (<[dest_path := out_bytes local]> (bucket w)) w).

(** [sb.storage.from_(SOCIAL_BUCKET).move(from_path, to_path)] *)
Definition storage_move (from_path to_path : string) : M unit :=
  supabase (Move from_path to_path)
           (fun w => bool_decide (is_Some (bucket w !! from_path))
                     && bool_decide (bucket w !! to_path = None))
           (fun _ => tt)
           (fun w => match bucket w !! from_path with
                     | Some data =>
                         set_bucket (<[to_path := data]> (delete from_path (bucket w))) w
                     | None => w
                     end).

(** [sb_storage_move] *)
Definition sb_storage_move (from_path to_path : string) : M unit :=
  try_except
    (storage_move from_path to_path)
    (let '(base, ext) := splitext to_path in
     now ← utcnow;
     let ts := strftime now "%Y%m%d%H%M%S%f" in
     storage_move from_path (base ++ "." ++ ts ++ ext)).

Definition update_row (rid : Z) (newp stamp : string) (r : Row) : Row :=
  if bool_decide (row_id r = rid)
  then mkRow (row_id r) (row_name r) newp (created_at r) (mime_type r)
             (file_size r) (is_trashed r) (Some stamp) (folder_id r)
  else r.

(** [sb_update_file_paths] *)
Definition sb_update_file_paths (rows : list Row) (new_paths : list string) : M unit :=
  for_ (zip rows new_paths) (fun '(row, newp) =>
    stamp ← now_iso;
    supabase (Update (row_id row) newp) (fun _ => true) (fun _ => tt)
             (fun w => set_files (map (update_row (row_id row) newp stamp) (files w)) w)).

Definition next_id (table : list Row) : Z :=
  1 + foldr Z.max 0 (map row_id table).

(** [sb_insert_output_row]; the table assigns [id] and [created_at]. *)
Definition sb_insert_output_row (name path : string) (size : Z) (mime : string)
  : M unit :=
  supabase (Insert name path) (fun _ => true) (fun _ => tt)
           (fun w => set_files
                       (files w ++ [mkRow (next_id (files w)) name path
                                          (isoformat (clock w) ++ "Z") mime size
                                          false None None]) w).

(** [with TmpDir(root) as tmp: body]; removing the directory leaves the
    world of the job untouched. *)
Definition TmpDir {A : Type} (root : string) (body : string -> M A) : M A :=
  t ← utcnow;
  try_finally (body (os_path_join root (job_dir t))) (fun w => w).

(** ** Build thread *)

Definition download_entry (tmp : string) (r : Row) : M (Row * string) :=
  let src := file_path r in
  let local_path := os_path_join tmp (basename src) in
  _ ← sb_storage_download_to src local_path;
  mret (r, local_path).

Definition archive_entry (ts : string) (e : Row * string) : M string :=
  let src := file_path (fst e) in
  let base := basename src in
  let dest := "archive/" ++ base ++ "." ++ ts in
  _ ← sb_storage_move src dest;
  mret dest.

(** The body of the [try] block of [run_build_pipeline]. *)
Definition build_job : M unit :=
  incoming_rows ← sb_list_incoming_files;
  match incoming_rows with
  | [] => mret tt
  | _ :: _ =>
      TmpDir WORK_DIR (fun tmp =>
        local_entries ← mapM (download_entry tmp) incoming_rows;
        output_local ← lift (build_montage_for_paths (map snd local_entries));
        now ← utcnow;
        let ts := strftime now "%Y%m%d_%H%M%S" in
        let out_name := "montage_output_" ++ ts ++ ".mp4" in
        let out_remote := "outputs/" ++ out_name in
        _ ← sb_storage_upload_from output_local out_remote;
        archived_paths ← mapM (archive_entry ts) local_entries;
        _ ← sb_update_file_paths (map fst local_entries) archived_paths;
        let out_size := Z.of_nat (String.length (out_bytes output_local)) in
        _ ← sb_insert_output_row out_name out_remote out_size "video/mp4";
        stamp ← now_iso;
        modify (set_LAST_RUN (Some stamp)))
  end.

(** [run_build_pipeline], run by one thread on its own: the flag is tested,
    tested again and set under [RUN_LOCK], and cleared when the [try] block
    is left.  The interleaving with other threads is modelled by [step]
    below. *)
Definition run_build_pipeline : M unit :=
  creating ← get IS_CREATING;
  if (creating : bool) then mret tt
  else
    creating ← get IS_CREATING;
    if (creating : bool) then mret tt
    else
      _ ← modify (set_IS_CREATING true);
      stamp ← now_iso;
      _ ← modify (set_STARTED_AT (Some stamp));
      try_finally build_job (set_IS_CREATING false).

(* ===================================================================== *)
(** * Properties: canvas normaliser                                       *)
(* ===================================================================== *)

Lemma crop_window_centered (c : Clip) :
  INSTAGRAM_WIDTH <= clip_w c ->
  crop_window c (clip_w c / 2) INSTAGRAM_WIDTH
  = (clip_w c / 2 - 540, clip_w c / 2 + 540).
Proof.
  unfold crop_window, INSTAGRAM_WIDTH. intros Hw.
  assert (540 <= clip_w c / 2) as Hc by (apply Z.div_le_lower_bound; lia).
  destruct (Z.eqb_spec (clip_w c / 2) 0) as [E|_]; [lia|].
  destruct (Z.eqb_spec (2 * (clip_w c / 2) + 1080) 0) as [E|_]; [lia|].
  f_equal.
  - replace (2 * (clip_w c / 2) - 1080) with ((clip_w c / 2 - 540) * 2) by lia.
    apply Z.quot_mul. lia.
  - replace (2 * (clip_w c / 2) + 1080) with ((clip_w c / 2 + 540) * 2) by lia.
    apply Z.quot_mul. lia.
Qed.

Lemma crop_to_canvas (c : Clip) :
  INSTAGRAM_WIDTH <= clip_w c -> 0 <= clip_h c ->
  crop_x_center c (clip_w c / 2) INSTAGRAM_WIDTH
  = mkClip (clip_path c) INSTAGRAM_WIDTH (clip_h c) (clip_duration c).
Proof.
  intros Hw Hh. unfold crop_x_center. rewrite crop_window_centered by done.
  unfold INSTAGRAM_WIDTH in *.
  assert (540 <= clip_w c / 2) as Hc by (apply Z.div_le_lower_bound; lia).
  assert (clip_w c / 2 + 540 <= clip_w c) as Hr.
  { pose proof (Z.div_mod (clip_w c) 2 ltac:(lia)).
    pose proof (Z.mod_pos_bound (clip_w c) 2 ltac:(lia)). lia. }
  f_equal; unfold slice_length, slice_index.
  - destruct (Z.ltb_spec (clip_w c / 2 + 540) 0), (Z.ltb_spec (clip_w c / 2 - 540) 0); lia.
  - destruct (Z.ltb_spec (clip_h c) 0), (Z.ltb_spec 0 0); lia.
Qed.



(* ===================================================================== *)
(** * Properties: sequencer                                               *)
(* ===================================================================== *)

Lemma Qltb_true (a b : Q) : Qltb a b = true <-> (a < b)%Q.
Proof.
  unfold Qltb. rewrite negb_true_iff, <- not_true_iff_false, Qle_bool_iff.
  split; [apply Qnot_le_lt | apply Qlt_not_le].
Qed.

Lemma Qltb_false (a b : Q) : Qltb a b = false <-> (b <= a)%Q.
Proof.
  unfold Qltb. rewrite negb_false_iff, Qle_bool_iff. reflexivity.
Qed.

(** [i] is the first index of a maximal value of [score] over [l]. *)
Definition first_argmax {A : Type} (score : A -> Q) (l : list A) (i : nat) (x : A)
  : Prop :=
  l !! i = Some x
  /\ (forall j y, l !! j = Some y -> (score y <= score x)%Q)
  /\ (forall j y, (j < i)%nat -> l !! j = Some y -> (score y < score x)%Q).

Lemma argmax_from_spec (xs pre : list Q) (best_i : nat) (best : Q) :
  pre !! best_i = Some best ->
  (forall j y, pre !! j = Some y -> (y <= best)%Q) ->
  (forall j y, (j < best_i)%nat -> pre !! j = Some y -> (y < best)%Q) ->
  exists x, first_argmax (fun q => q) (pre ++ xs)
                         (argmax_from best_i best (length pre) xs) x.
Proof.
  revert pre best_i best.
  induction xs as [|x xs IH]; intros pre best_i best Hbest Hmax Hfirst.
  - exists best. rewrite app_nil_r. simpl. repeat split; eauto.
  - simpl. pose proof (lookup_lt_Some _ _ _ Hbest) as Hlt.
    replace (pre ++ x :: xs)%list with ((pre ++ [x]) ++ xs)%list
      by (rewrite <- app_assoc; reflexivity).
    replace (S (length pre)) with (length (pre ++ [x]))
      by (rewrite length_app; simpl; lia).
    destruct (Qltb best x) eqn:Hcmp.
    + apply Qltb_true in Hcmp.
      apply IH.
      * rewrite lookup_app_r by lia. rewrite Nat.sub_diag. reflexivity.
      * intros j y Hj. apply lookup_app_Some in Hj as [Hj|[_ Hj]].
        -- apply Qlt_le_weak. eapply Qle_lt_trans; [eapply Hmax; eauto|done].
        -- apply list_lookup_singleton_Some in Hj as [_ <-]. apply Qle_refl.
      * intros j y Hjl Hj. rewrite lookup_app_l in Hj by lia.
        eapply Qle_lt_trans; [eapply Hmax; eauto|done].
    + apply Qltb_false in Hcmp. apply IH.
      * rewrite lookup_app_l by lia. done.
      * intros j y Hj. apply lookup_app_Some in Hj as [Hj|[_ Hj]]; [eauto|].
        apply list_lookup_singleton_Some in Hj as [_ <-]. done.
      * intros j y Hjl Hj. rewrite lookup_app_l in Hj by lia. eauto.
Qed.

Lemma argmax_spec (xs : list Q) :
  xs <> [] -> exists x, first_argmax (fun q => q) xs (argmax xs) x.
Proof.
  destruct xs as [|x xs]; [congruence|]. intros _. simpl.
  apply (argmax_from_spec xs [x] 0%nat x).
  - reflexivity.
  - intros j y Hj. apply list_lookup_singleton_Some in Hj as [_ <-]. apply Qle_refl.
  - intros j y Hj. lia.
Qed.

Lemma first_argmax_map {A : Type} (score : A -> Q) (l : list A) (i : nat) (q : Q) :
  first_argmax (fun q => q) (map score l) i q ->
  exists x, first_argmax score l i x.
Proof.
  intros (Hi & Hmax & Hfirst).
  change (map score l) with (score <$> l) in *.
  rewrite list_lookup_fmap in Hi.
  destruct (l !! i) as [x|] eqn:Hx; [|discriminate].
  simpl in Hi. injection Hi as <-. exists x. split; [done|split].
  - intros j y Hj. apply (Hmax j). rewrite list_lookup_fmap, Hj. reflexivity.
  - intros j y Hjl Hj. apply (Hfirst j); [done|].
    rewrite list_lookup_fmap, Hj. reflexivity.
Qed.

Lemma first_argmax_unique {A : Type} (score : A -> Q) (l : list A) i x i' x' :
  first_argmax score l i x -> first_argmax score l i' x' -> i = i' /\ x = x'.
Proof.
  intros (Hi & Hmax & Hfirst) (Hi' & Hmax' & Hfirst').
  assert (i = i') as ->.
  { destruct (Nat.lt_total i i') as [Hlt|[Heq|Hlt]]; [|done|].
    - exfalso. apply (Qlt_not_le _ _ (Hfirst' _ _ Hlt Hi)). eauto.
    - exfalso. apply (Qlt_not_le _ _ (Hfirst _ _ Hlt Hi')). eauto. }
  split; [done|congruence].
Qed.

(** The greedy nearest-neighbour tour, as a relation: from [current], the
    candidates [remaining] are visited in the order [tour] when each next
    item is the first candidate of maximal similarity to the item placed
    last. *)
Inductive greedy_tour : Entry -> list Entry -> list Entry -> Prop :=
| tour_done current : greedy_tour current [] []
| tour_step current remaining i next tour :
    first_argmax (fun r => cosine_similarity (emb current) (emb r)) remaining i next ->
    greedy_tour next (delete i remaining) tour ->
    greedy_tour current remaining (next :: tour).

(** The order of the sequencer: the first item seeds the tour. *)
Definition nearest_neighbour_order (items order : list Entry) : Prop :=
  match items with
  | [] => order = []
  | seed :: rest => exists tour, order = seed :: tour /\ greedy_tour seed rest tour
  end.

Lemma greedy_tour_unique current remaining t1 t2 :
  greedy_tour current remaining t1 -> greedy_tour current remaining t2 -> t1 = t2.
Proof.
  intros H1. revert t2.
  induction H1 as [current|current remaining i next tour Harg _ IH]; intros t2 H2.
  - inversion H2 as [|? ? j ? ? (Hj & _) _]; [done|]. discriminate Hj.
  - inversion H2 as [|? ? j next' tour' Harg' Htour']; subst.
    + destruct Harg as (Hi & _). discriminate Hi.
    + destruct (first_argmax_unique _ _ _ _ _ _ Harg Harg') as [-> ->].
      f_equal. by apply IH.
Qed.

Lemma greedy_tour_Permutation current remaining tour :
  greedy_tour current remaining tour -> Permutation tour remaining.
Proof.
  induction 1 as [|current remaining i next tour (Hi & _) _ IH]; [constructor|].
  rewrite IH. symmetry. by apply delete_Permutation.
Qed.

Lemma greedy_loop_tour current remaining ordered_videos :
  exists tour, greedy_loop current remaining ordered_videos
               = (ordered_videos ++ tour)%list
               /\ greedy_tour current remaining tour.
Proof.
  remember (length remaining) as n eqn:Hn.
  revert current remaining ordered_videos Hn.
  induction n as [|n IH]; intros current remaining ordered_videos Hn.
  - destruct remaining; [|discriminate]. exists []. simp greedy_loop.
    rewrite app_nil_r. split; [done|constructor].
  - destruct remaining as [|r rs]; [discriminate|]. simp greedy_loop. cbv zeta.
    set (idx := argmax (similarities current (r :: rs))).
    destruct (argmax_spec (similarities current (r :: rs))) as [q Hq];
      [discriminate|]. fold idx in Hq.
    apply first_argmax_map in Hq as [next Hnext].
    pose proof Hnext as (Hi & _).
    assert (nth idx (r :: rs) r = next) as ->.
    { rewrite nth_lookup, Hi. reflexivity. }
    destruct (IH next (delete idx (r :: rs)) (ordered_videos ++ [next])%list)
      as (tour & Heq & Htour).
    { rewrite length_delete by eauto. simpl in *. lia. }
    exists (next :: tour). split.
    + rewrite Heq, <- app_assoc. reflexivity.
    + econstructor; eauto.
Qed.

Lemma order_videos_spec (remaining : list Entry) :
  nearest_neighbour_order remaining (order_videos remaining).
Proof.
  destruct remaining as [|seed rest]; [reflexivity|]. simpl.
  destruct (greedy_loop_tour seed rest [seed]) as (tour & -> & Htour). eauto.
Qed.

Lemma embed_videos_paths (videos : list string) :
  map path (embed_videos videos)
  = List.filter (fun v => bool_decide (is_Some (_video_embedding v MAX_FRAMES_PER_VIDEO)))
                videos.
Proof.
  unfold embed_videos. induction videos as [|v vs IH]; [reflexivity|].
  simpl. destruct (_video_embedding v MAX_FRAMES_PER_VIDEO) as [e|] eqn:He; simpl.
  - f_equal. exact IH.
  - exact IH.
Qed.

(** C5. The order of the sequencer is the greedy nearest-neighbour tour of
    the videos that have an embedding: the seed is the first of them in
    discovery order, every next item is the first remaining candidate of
    maximal cosine similarity to the item placed last, the order is the only
    one with that property, and it is a permutation of exactly the videos
    that have an embedding. *)
Theorem sequencer_greedy_tour (videos : list string) :
  let items := embed_videos videos in
  map path items
  = List.filter (fun v => bool_decide (is_Some (_video_embedding v MAX_FRAMES_PER_VIDEO)))
                videos
  /\ nearest_neighbour_order items (order_videos items)
  /\ (forall order, nearest_neighbour_order items order -> order = order_videos items)
  /\ head (order_videos items) = head items
  /\ Permutation (order_videos items) items.
Proof.
  intros items. split; [apply embed_videos_paths|].
  pose proof (order_videos_spec items) as Hspec.
  split; [exact Hspec|].
  destruct items as [|seed rest].
  - simpl in *. repeat split; auto.
  - destruct Hspec as (tour & Heq & Htour). rewrite Heq.
    split; [|split].
    + intros order (tour' & -> & Htour'). f_equal.
      eapply greedy_tour_unique; eauto.
    + reflexivity.
    + constructor. eapply greedy_tour_Permutation; eauto.
Qed.

(* ===================================================================== *)
(** * Properties: what enters the montage                                 *)
(* ===================================================================== *)

Lemma mapM_Result_Ok {A B : Type} (f : A -> Result B) (l : list A) (k : list B) :
  mapM f l = Ok k -> Forall2 (fun x y => f x = Ok y) l k.
Proof.
  revert k. induction l as [|x l IH]; intros k; simpl.
  - intros [= <-]. constructor.
  - unfold mbind, Result_bind. destruct (f x) as [y|e] eqn:Hx; [|discriminate].
    destruct (mapM f l) as [k'|e]; [|discriminate].
    intros [= <-]. constructor; auto.
Qed.

Lemma endswith_last (s suffix : string) (c : ascii) :
  endswith s suffix = true -> last (chars suffix) = Some c -> last (chars s) = Some c.
Proof.
  unfold endswith, ascii_list_eqb. intros H Hc.
  apply andb_true_iff in H as [_ H]. apply bool_decide_eq_true in H.
  rewrite <- (take_drop (length (chars s) - length (chars suffix)) (chars s)).
  rewrite H. rewrite last_app, Hc. reflexivity.
Qed.

(** No file name is both a video and an image. *)
Lemma video_not_image (p : string) : is_video p = true -> is_image p = false.
Proof.
  unfold is_video, is_image, endswith_any. intros Hv.
  apply not_true_is_false. intros Hi.
  apply existsb_exists in Hv as (ev & Hev & Hv).
  apply existsb_exists in Hi as (ei & Hei & Hi).
  assert (exists c, last (chars ev) = Some c
                    /\ forall e, In e image_exts -> last (chars e) <> Some c) as (c & Hc & Hne).
  { simpl in Hev. destruct Hev as [<-|[<-|[<-|[<-|[<-|[]]]]]];
      (eexists; split; [reflexivity|]);
      intros e He; simpl in He;
      destruct He as [<-|[<-|[<-|[<-|[]]]]]; discriminate. }
  apply (Hne ei Hei). rewrite <- (endswith_last _ _ _ Hv Hc).
  symmetry. destruct (last (chars ei)) as [c'|] eqn:Hc'.
  - apply (endswith_last _ _ _ Hi Hc').
  - simpl in Hei. destruct Hei as [<-|[<-|[<-|[<-|[]]]]]; discriminate.
Qed.

Lemma _resize_crop_9x16_video_path (c : Clip) :
  clip_path (_resize_crop_9x16_video c) = clip_path c.
Proof.
  unfold _resize_crop_9x16_video, crop_x_center.
  destruct (INSTAGRAM_WIDTH <=? _); [|reflexivity].
  destruct (crop_window _ _ _). reflexivity.
Qed.

Lemma compose_video_path (v : Entry) (c : Clip) :
  compose_video v = Ok c -> clip_path c = path v.
Proof.
  unfold compose_video, VideoFileClip.
  destruct (probe_video (path v)) as [[[w h] d]|]; [|discriminate].
  simpl. intros [= <-]. apply _resize_crop_9x16_video_path.
Qed.

Lemma compose_image_path (im : string) (c : Clip) :
  compose_image im = Ok c -> clip_path c = im.
Proof.
  unfold compose_image, ImageClip.
  destruct (probe_image im) as [[w h]|]; [|discriminate].
  simpl. intros [= <-].
  change (_resize_crop_9x16_image (mkClip im w h None))
    with (_resize_crop_9x16_video (set_duration (mkClip im w h None) 3)).
  apply _resize_crop_9x16_video_path.
Qed.

(** The files of the clips of [final_clips]: the ordered videos, then the
    images. *)
Lemma final_clips_paths (ordered_videos : list Entry) (images : list string)
    (clips : list Clip) :
  final_clips ordered_videos images = Ok clips ->
  map clip_path clips = (map path ordered_videos ++ images)%list.
Proof.
  unfold final_clips, mbind, Result_bind.
  destruct (mapM compose_video ordered_videos) as [vs|] eqn:Hvs; [|discriminate].
  destruct (mapM compose_image images) as [ims|] eqn:Hims; [|discriminate].
  intros [= <-]. rewrite map_app. f_equal.
  - apply mapM_Result_Ok in Hvs. induction Hvs as [|v c l k Hv _ IH]; [done|].
    simpl. rewrite IH. f_equal. by apply compose_video_path.
  - apply mapM_Result_Ok in Hims. induction Hims as [|v c l k Hv _ IH]; [done|].
    simpl. rewrite IH. f_equal. by apply compose_image_path.
Qed.

(** The montage concatenates the ordered videos that have an embedding,
    then the images, and nothing else. *)
Lemma montage_paths (local_paths : list string) (m : Montage) :
  build_montage_for_paths local_paths = Ok m ->
  map clip_path (out_clips m)
  = (map path (order_videos (embed_videos (List.filter is_video local_paths)))
     ++ List.filter is_image local_paths)%list.
Proof.
  unfold build_montage_for_paths. cbv zeta. unfold mbind at 1, Result_bind at 1.
  destruct (final_clips _ _) as [clips|] eqn:Hclips; [|discriminate].
  destruct clips as [|c clips]; [discriminate|].
  destruct (write_videofile _ _); [|discriminate].
  intros [= <-]. simpl out_clips. by apply final_clips_paths.
Qed.

Lemma order_videos_paths (remaining : list Entry) (p : string) :
  In p (map path (order_videos remaining)) -> In p (map path remaining).
Proof.
  destruct remaining as [|seed rest]; [done|].
  destruct (order_videos_spec (seed :: rest)) as (tour & -> & Htour).
  apply greedy_tour_Permutation in Htour.
  intros Hin. eapply Permutation_in; [|exact Hin].
  apply Permutation_map. by constructor.
Qed.

(** C7. A video shorter than half a second gets no embedding, whatever the
    frames and the model would give; it is therefore absent from the order
    of the sequencer and from the clips of every montage that is built. *)
Theorem short_video_excluded (local_paths : list string) (p : string) (w h : Z) (d : Q) :
  is_video p = true ->
  probe_video p = Some (w, h, d) ->
  (d < MIN_CLIP_DURATION)%Q ->
  _video_embedding p MAX_FRAMES_PER_VIDEO = None
  /\ ~ In p (map path (order_videos (embed_videos (List.filter is_video local_paths))))
  /\ forall m, build_montage_for_paths local_paths = Ok m ->
               ~ In p (map clip_path (out_clips m)).
Proof.
  intros Hvideo Hprobe Hshort.
  assert (_video_embedding p MAX_FRAMES_PER_VIDEO = None) as Hemb.
  { unfold _video_embedding, VideoFileClip. rewrite Hprobe. simpl.
    apply Qltb_true in Hshort. rewrite Hshort. reflexivity. }
  assert (~ In p (map path (order_videos (embed_videos (List.filter is_video local_paths)))))
    as Hord.
  { intros Hin. apply order_videos_paths in Hin.
    rewrite embed_videos_paths in Hin. apply filter_In in Hin as [_ Hin].
    rewrite Hemb in Hin. apply bool_decide_eq_true in Hin as [? ?]. discriminate. }
  split; [exact Hemb|]. split; [exact Hord|].
  intros m Hm Hin. rewrite (montage_paths _ _ Hm) in Hin.
  apply in_app_or in Hin as [Hin|Hin]; [by apply Hord|].
  apply filter_In in Hin as [_ Hin].
  rewrite (video_not_image _ Hvideo) in Hin. discriminate.
Qed.

(* ===================================================================== *)
(** * Running the job: one stage after the other                          *)
(* ===================================================================== *)

(** Requests that change the bucket or the table. *)
Definition is_write (req : Request) : bool :=
  match req with
  | Select | Download _ => false
  | Upload _ | Move _ _ | Update _ _ | Insert _ _ => true
  end.

Definition is_move (req : Request) : bool :=
  match req with Move _ _ => true | _ => false end.

Definition is_update (req : Request) : bool :=
  match req with Update _ _ => true | _ => false end.

Definition is_download (req : Request) : bool :=
  match req with Download _ => true | _ => false end.

(** The module globals other than the journalled world. *)
Definition same_globals (w w' : World) : Prop :=
  IS_CREATING w' = IS_CREATING w
  /\ LAST_RUN w' = LAST_RUN w
  /\ STARTED_AT w' = STARTED_AT w.

Lemma same_globals_refl w : same_globals w w.
Proof. by repeat split. Qed.

Lemma same_globals_trans w1 w2 w3 :
  same_globals w1 w2 -> same_globals w2 w3 -> same_globals w1 w3.
Proof. unfold same_globals. intros (-> & -> & ->) (-> & -> & ->). done. Qed.

Lemma bind_run {A B : Type} (m : M A) (f : A -> M B) (w : World) :
  (m ≫= f) w = match m w with
                | (Ok a, w1) => f a w1
                | (Raise e, w1) => (Raise e, w1)
                end.
Proof. reflexivity. Qed.

Lemma mapM_cons_run {A B : Type} (f : A -> M B) (x : A) (l : list A) (w : World) :
  mapM f (x :: l) w
  = match f x w with
    | (Ok y, w1) =>
        match mapM f l w1 with
        | (Ok k, w2) => (Ok (y :: k), w2)
        | (Raise e, w2) => (Raise e, w2)
        end
    | (Raise e, w1) => (Raise e, w1)
    end.
Proof.
  change (mapM f (x :: l)) with (y ← f x; k ← mapM f l; mret (y :: k)).
  rewrite bind_run. destruct (f x w) as [[y|e] w1]; [|reflexivity].
  rewrite bind_run. destruct (mapM f l w1) as [[k|e] w2]; reflexivity.
Qed.

(** The two outcomes of a request. *)
Lemma supabase_run {A : Type} (req : Request) (possible : World -> bool)
    (answer : World -> A) (effect : World -> World) (w : World) (res : Result A)
    (w' : World) :
  supabase req possible answer effect w = (res, w') ->
  (fault req = false /\ possible w = true
   /\ res = Ok (answer w) /\ w' = logged req true (effect w))
  \/ ((fault req = true \/ possible w = false)
      /\ res = Raise (ApiError req) /\ w' = logged req false w).
Proof.
  unfold supabase. destruct (fault req), (possible w); simpl; intros [= <- <-]; auto.
Qed.

Definition local_entry (tmp : string) (r : Row) : Row * string :=
  (r, os_path_join tmp (basename (file_path r))).

(** The download loop: it reads, and stops at the first failure, of a
    request or of a local write. *)
Lemma downloads_run (tmp : string) (rows : list Row) (w : World)
    (res : Result (list (Row * string))) (w' : World) :
  mapM (download_entry tmp) rows w = (res, w') ->
  bucket w' = bucket w /\ files w' = files w /\ same_globals w w'
  /\ exists delta,
      journal w' = (journal w ++ delta)%list
      /\ match res with
         | Ok entries =>
             entries = map (local_entry tmp) rows
             /\ delta = map (fun r => (Download (file_path r), true)) rows
             /\ clock w' = clock w + Z.of_nat (length rows)
         | Raise e =>
             exists done_ r,
               In r rows
               /\ ((e = ApiError (Download (file_path r))
                    /\ (fault (Download (file_path r)) = true
                        \/ bucket w !! file_path r = None)
                    /\ delta = (map (fun r => (Download (file_path r), true)) done_
                                ++ [(Download (file_path r), false)])%list)
                   \/ (e = OSError (snd (local_entry tmp r))
                       /\ open_wb (snd (local_entry tmp r)) = false
                       /\ delta = map (fun r => (Download (file_path r), true))
                                      (done_ ++ [r])))
         end.
Proof.
  revert w res w'. induction rows as [|r rows IH]; intros w res w'.
  - intros [= <- <-]. split_and!; try done. exists []. rewrite app_nil_r.
    split_and!; try done. simpl. lia.
  - rewrite mapM_cons_run. unfold download_entry at 1. rewrite bind_run.
    unfold sb_storage_download_to. rewrite bind_run.
    destruct (supabase _ _ _ _ w) as [r1 w1] eqn:Hreq.
    apply supabase_run in Hreq as [(_ & _ & -> & ->)|(Hwhy & -> & ->)].
    + unfold lift at 1.
      destruct (open_wb (os_path_join tmp (basename (file_path r)))) eqn:Hopen.
      * unfold mret, M_ret. cbn beta iota.
        destruct (mapM (download_entry tmp) rows
                       (logged (Download (file_path r)) true w))
          as [[k|e] w2] eqn:Hrest;
          apply IH in Hrest as (Hb & Hf & Hg & delta & Hj & Hres);
          intros [= <- <-]; simpl in *.
        -- split_and!; try done. exists ((Download (file_path r), true) :: delta).
           split; [by rewrite Hj, <- app_assoc|].
           destruct Hres as (-> & -> & ->). split_and!; try done. lia.
        -- split_and!; try done. exists ((Download (file_path r), true) :: delta).
           split; [by rewrite Hj, <- app_assoc|].
           destruct Hres as (done_ & r' & Hin & [(-> & Hwhy & ->)|(-> & Hwhy & ->)]);
             exists (r :: done_), r'; (split; [by right|]); [left|right]; done.
      * intros [= <- <-]. simpl. split_and!; try done.
        exists [(Download (file_path r), true)]. split; [done|].
        exists [], r. split; [by left|]. right. done.
    + intros [= <- <-]. simpl. split_and!; try done.
      exists [(Download (file_path r), false)]. split; [done|].
      exists [], r. split; [by left|]. left. split_and!; auto.
      destruct Hwhy as [?|Hwhy]; [by left|right].
      apply bool_decide_eq_false in Hwhy.
      by apply eq_None_not_Some.
Qed.

Definition archive_dest (ts : string) (e : Row * string) : string :=
  "archive/" ++ basename (file_path (fst e)) ++ "." ++ ts.

Definition all_moves (delta : list (Request * bool)) : Prop :=
  Forall (fun x => is_move (fst x) = true) delta.

Definition all_updates (delta : list (Request * bool)) : Prop :=
  Forall (fun x => is_update (fst x) = true) delta.

(** One archive move, with its second attempt under another name. *)
Lemma sb_storage_move_run (from_path to_path : string) (w : World)
    (res : Result unit) (w' : World) :
  sb_storage_move from_path to_path w = (res, w') ->
  files w' = files w /\ same_globals w w'
  /\ exists delta,
      journal w' = (journal w ++ delta)%list /\ all_moves delta
      /\ match res with
         | Ok _ => exists d, In (Move from_path d, true) delta
         | Raise e =>
             exists d, e = ApiError (Move from_path d)
                       /\ last delta = Some (Move from_path d, false)
                       /\ bucket w' = bucket w
         end.
Proof.
  unfold sb_storage_move, try_except, storage_move.
  destruct (supabase _ _ _ _ w) as [r1 w1] eqn:Hreq.
  apply supabase_run in Hreq as [(_ & _ & -> & ->)|(_ & -> & ->)].
  - intros [= <- <-]. split_and!; try (by destruct (bucket w !! from_path)).
    exists [(Move from_path to_path, true)].
    split_and!; [by destruct (bucket w !! from_path)| by repeat constructor|].
    exists to_path. by left.
  - destruct (splitext to_path) as [base ext]. rewrite bind_run.
    unfold utcnow, get. cbn beta iota.
    destruct (supabase _ _ _ _ _) as [r2 w2] eqn:Hreq.
    apply supabase_run in Hreq as [(_ & _ & -> & ->)|(_ & -> & ->)];
      intros [= <- <-]; simpl.
    + split_and!; try (by destruct (bucket w !! from_path)).
      eexists [(Move from_path to_path, false); (Move from_path _, true)].
      split_and!; [by destruct (bucket w !! from_path); simpl; rewrite <- app_assoc
                  | by repeat constructor|].
      eexists. right. by left.
    + split_and!; try done.
      eexists [(Move from_path to_path, false); (Move from_path _, false)].
      split_and!; [by simpl; rewrite <- app_assoc | by repeat constructor|].
      eexists. split_and!; done.
Qed.

(** The archive loop. *)
Lemma moves_run (ts : string) (entries : list (Row * string)) (w : World)
    (res : Result (list string)) (w' : World) :
  mapM (archive_entry ts) entries w = (res, w') ->
  files w' = files w /\ same_globals w w'
  /\ exists delta,
      journal w' = (journal w ++ delta)%list /\ all_moves delta
      /\ match res with
         | Ok dests =>
             dests = map (archive_dest ts) entries
             /\ forall e, In e entries ->
                          exists d, In (Move (file_path (fst e)) d, true) delta
         | Raise e =>
             exists a b, e = ApiError (Move a b)
                         /\ last delta = Some (Move a b, false)
         end.
Proof.
  revert w res w'. induction entries as [|x entries IH]; intros w res w'.
  - intros [= <- <-]. split_and!; try done. exists [].
    rewrite app_nil_r. split_and!; [done|constructor|done|intros e []].
  - rewrite mapM_cons_run. unfold archive_entry at 1. rewrite bind_run.
    destruct (sb_storage_move _ _ w) as [r1 w1] eqn:Hmove.
    apply sb_storage_move_run in Hmove as (Hf1 & Hg1 & d1 & Hj1 & Hm1 & Hres1).
    destruct r1 as [[]|e1].
    + unfold mret, M_ret. cbn beta iota.
      destruct (mapM (archive_entry ts) entries w1) as [r2 w2] eqn:Hrest.
      apply IH in Hrest as (Hf2 & Hg2 & d2 & Hj2 & Hm2 & Hres2).
      assert (journal w2 = (journal w ++ (d1 ++ d2))%list) as Hj
        by (by rewrite Hj2, Hj1, <- app_assoc).
      assert (all_moves (d1 ++ d2)) as Hm by (by apply Forall_app).
      destruct r2 as [k|e2]; intros [= <- <-].
      * split_and!; [congruence|by eapply same_globals_trans|].
        exists (d1 ++ d2)%list. destruct Hres2 as [-> Hall].
        split_and!; try done.
        intros e [<-|Hin].
        -- destruct Hres1 as [d Hd]. exists d. apply in_or_app. by left.
        -- destruct (Hall e Hin) as [d Hd]. exists d. apply in_or_app. by right.
      * split_and!; [congruence|by eapply same_globals_trans|].
        exists (d1 ++ d2)%list. split_and!; try done.
        destruct Hres2 as (a & b & -> & Hlast). exists a, b. split; [done|].
        destruct d2 as [|y d2]; [discriminate|].
        rewrite last_app, Hlast. done.
    + intros [= <- <-]. split_and!; try done. exists d1. split_and!; try done.
      destruct Hres1 as (d & -> & Hlast & _). eauto.
Qed.

Definition update_of (x : Row * string) : Request * bool :=
  (Update (row_id (fst x)) (snd x), true).

(** The catalog loop. *)
Lemma updates_run (rows : list Row) (new_paths : list string) (w : World)
    (res : Result unit) (w' : World) :
  sb_update_file_paths rows new_paths w = (res, w') ->
  bucket w' = bucket w /\ same_globals w w'
  /\ exists delta,
      journal w' = (journal w ++ delta)%list /\ all_updates delta
      /\ match res with
         | Ok _ => delta = map update_of (zip rows new_paths)
         | Raise e =>
             exists a b, e = ApiError (Update a b)
                         /\ last delta = Some (Update a b, false)
         end.
Proof.
  unfold sb_update_file_paths. generalize (zip rows new_paths) as l.
  intros l. revert w res w'. induction l as [|[row newp] l IH]; intros w res w'.
  - intros [= <- <-]. split_and!; try done. exists [].
    rewrite app_nil_r. split_and!; [done|constructor|done].
  - simpl for_. rewrite !bind_run. unfold now_iso, utcnow, get.
    rewrite bind_run. unfold mret, M_ret. cbn beta iota.
    destruct (supabase _ _ _ _ w) as [r1 w1] eqn:Hreq.
    apply supabase_run in Hreq as [(_ & _ & -> & ->)|(_ & -> & ->)].
    + match goal with |- context [for_ l ?f ?w1] =>
        destruct (for_ l f w1) as [r2 w2] eqn:Hrest end.
      apply IH in Hrest as (Hb & Hg & d & Hj & Hu & Hres).
      intros [= <- <-]. split_and!; try done.
      exists ((Update (row_id row) newp, true) :: d).
      split_and!; [by rewrite Hj; simpl; rewrite <- app_assoc
                  | by constructor|].
      destruct r2 as [[]|e].
      * by rewrite Hres.
      * destruct Hres as (a & b & -> & Hlast). exists a, b. split; [done|].
        destruct d as [|y d]; [discriminate|]. by rewrite last_cons, Hlast.
    + intros [= <- <-]. split_and!; try done.
      exists [(Update (row_id row) newp, false)].
      split_and!; [done|by repeat constructor|]. eauto.
Qed.

(** ** The runs of [build_job]

    What a job started in the world [w] works with: the rows it discovers,
    its directory, the local copies and the names it derives from the time
    at which the montage is ready. *)
Definition job_rows (w : World) : list Row := pending (files w).

Definition job_tmp (w : World) : string :=
  os_path_join WORK_DIR (job_dir (clock w + 1)).

Definition job_entries (w : World) : list (Row * string) :=
  map (local_entry (job_tmp w)) (job_rows w).

Definition job_local_paths (w : World) : list string :=
  map snd (job_entries w).

Definition job_ts (w : World) : string :=
  strftime (clock w + 1 + Z.of_nat (length (job_rows w))) "%Y%m%d_%H%M%S".

Definition job_out_name (w : World) : string :=
  "montage_output_" ++ job_ts w ++ ".mp4".

Definition job_out_remote (w : World) : string :=
  "outputs/" ++ job_out_name w.

Definition downloads (rows : list Row) : list (Request * bool) :=
  map (fun r => (Download (file_path r), true)) rows.

Definition job_updates (w : World) : list (Request * bool) :=
  map update_of (zip (job_rows w) (map (archive_dest (job_ts w)) (job_entries w))).

(** Every run of the job, by the stage it reaches: the outcome and the
    requests it adds to the journal. *)
Inductive job_run (w w' : World) : Result unit -> list (Request * bool) -> Prop :=
| job_discovery_failed :
    fault Select = true ->
    bucket w' = bucket w -> files w' = files w -> LAST_RUN w' = LAST_RUN w ->
    job_run w w' (Raise (ApiError Select)) [(Select, false)]
| job_nothing_pending :
    fault Select = false ->
    job_rows w = [] ->
    bucket w' = bucket w -> files w' = files w -> LAST_RUN w' = LAST_RUN w ->
    job_run w w' (Ok tt) [(Select, true)]
| job_download_failed done_ r :
    In r (job_rows w) ->
    fault (Download (file_path r)) = true \/ bucket w !! file_path r = None ->
    bucket w' = bucket w -> files w' = files w -> LAST_RUN w' = LAST_RUN w ->
    job_run w w' (Raise (ApiError (Download (file_path r))))
            ((Select, true) :: downloads done_ ++ [(Download (file_path r), false)])
| job_write_failed done_ r :
    In r (job_rows w) ->
    open_wb (snd (local_entry (job_tmp w) r)) = false ->
    bucket w' = bucket w -> files w' = files w -> LAST_RUN w' = LAST_RUN w ->
    job_run w w' (Raise (OSError (snd (local_entry (job_tmp w) r))))
            ((Select, true) :: downloads (done_ ++ [r]))
| job_compose_failed e :
    job_rows w <> [] ->
    build_montage_for_paths (job_local_paths w) = Raise e ->
    bucket w' = bucket w -> files w' = files w -> LAST_RUN w' = LAST_RUN w ->
    job_run w w' (Raise e) ((Select, true) :: downloads (job_rows w))
| job_upload_failed m :
    job_rows w <> [] ->
    build_montage_for_paths (job_local_paths w) = Ok m ->
    bucket w' = bucket w -> files w' = files w -> LAST_RUN w' = LAST_RUN w ->
    job_run w w' (Raise (ApiError (Upload (job_out_remote w))))
            ((Select, true) :: downloads (job_rows w)
             ++ [(Upload (job_out_remote w), false)])
| job_move_failed m moves a b :
    job_rows w <> [] ->
    build_montage_for_paths (job_local_paths w) = Ok m ->
    all_moves moves -> last moves = Some (Move a b, false) ->
    files w' = files w -> LAST_RUN w' = LAST_RUN w ->
    job_run w w' (Raise (ApiError (Move a b)))
            ((Select, true) :: downloads (job_rows w)
             ++ (Upload (job_out_remote w), true) :: moves)
| job_update_failed m moves updates a b :
    job_rows w <> [] ->
    build_montage_for_paths (job_local_paths w) = Ok m ->
    all_moves moves ->
    (forall r, In r (job_rows w) -> exists d, In (Move (file_path r) d, true) moves) ->
    all_updates updates -> last updates = Some (Update a b, false) ->
    LAST_RUN w' = LAST_RUN w ->
    job_run w w' (Raise (ApiError (Update a b)))
            ((Select, true) :: downloads (job_rows w)
             ++ (Upload (job_out_remote w), true) :: moves ++ updates)
| job_insert_failed m moves :
    job_rows w <> [] ->
    build_montage_for_paths (job_local_paths w) = Ok m ->
    all_moves moves ->
    (forall r, In r (job_rows w) -> exists d, In (Move (file_path r) d, true) moves) ->
    LAST_RUN w' = LAST_RUN w ->
    job_run w w' (Raise (ApiError (Insert (job_out_name w) (job_out_remote w))))
            ((Select, true) :: downloads (job_rows w)
             ++ (Upload (job_out_remote w), true) :: moves ++ job_updates w
             ++ [(Insert (job_out_name w) (job_out_remote w), false)])
| job_done m moves :
    job_rows w <> [] ->
    build_montage_for_paths (job_local_paths w) = Ok m ->
    all_moves moves ->
    (forall r, In r (job_rows w) -> exists d, In (Move (file_path r) d, true) moves) ->
    LAST_RUN w' = Some (isoformat (clock w') ++ "Z") ->
    job_run w w' (Ok tt)
            ((Select, true) :: downloads (job_rows w)
             ++ (Upload (job_out_remote w), true) :: moves ++ job_updates w
             ++ [(Insert (job_out_name w) (job_out_remote w), true)]).

(** Two journals that differ by the bracketing of their appends. *)
Ltac reassoc := repeat (progress (rewrite <- ?app_assoc; simpl)); reflexivity.

Lemma build_job_run (w : World) (res : Result unit) (w' : World) :
  build_job w = (res, w') ->
  IS_CREATING w' = IS_CREATING w /\ STARTED_AT w' = STARTED_AT w
  /\ exists delta, journal w' = (journal w ++ delta)%list /\ job_run w w' res delta.
Proof.
  unfold build_job. rewrite bind_run. unfold sb_list_incoming_files.
  destruct (supabase _ _ _ _ w) as [r0 w0] eqn:Hreq.
  apply supabase_run in Hreq as [(Hok & _ & -> & ->)|(Hwhy & -> & ->)]; cycle 1.
  { intros [= <- <-]. split_and!; try done. eexists. split; [done|].
    constructor; try done. by destruct Hwhy. }
  fold (job_rows w). destruct (job_rows w) as [|r0 rows0] eqn:Hrows.
  { intros [= <- <-]. split_and!; try done. eexists. split; [done|].
    by constructor. }
  rewrite <- Hrows.
  assert (job_rows w <> []) as Hne by (rewrite Hrows; discriminate).
  clear r0 rows0 Hrows.
  unfold TmpDir. rewrite bind_run. unfold utcnow at 1, get at 1. cbn beta iota.
  unfold try_finally.
  change (clock (logged Select true w)) with (clock w + 1). fold (job_tmp w).
  rewrite bind_run.
  destruct (mapM (download_entry (job_tmp w)) (job_rows w) (logged Select true w))
    as [r1 w1] eqn:Hdl.
  apply downloads_run in Hdl as (Hb1 & Hf1 & (Hc1 & Hl1 & Hs1) & d1 & Hj1 & Hres1).
  simpl in Hb1, Hf1, Hc1, Hl1, Hs1, Hj1.
  destruct r1 as [entries|e1]; cycle 1.
  { intros [= <- <-].
    destruct Hres1 as (done_ & r & Hin & [(-> & Hwhy & ->)|(-> & Hwhy & ->)]);
      (split_and!; try done).
    - exists ((Select, true) :: downloads done_ ++ [(Download (file_path r), false)]).
      split; [by rewrite Hj1, <- app_assoc|]. by constructor.
    - exists ((Select, true) :: downloads (done_ ++ [r])).
      split; [by rewrite Hj1, <- app_assoc|]. by apply job_write_failed. }
  destruct Hres1 as (-> & -> & Hclock). simpl in Hclock.
  fold (job_entries w). fold (downloads (job_rows w)) in Hj1.
  rewrite <- app_assoc in Hj1. simpl in Hj1.
  rewrite bind_run. unfold lift at 1. fold (job_local_paths w).
  destruct (build_montage_for_paths (job_local_paths w)) as [m|e] eqn:Hbuild; cycle 1.
  { intros [= <- <-]. split_and!; try done. eexists.
    split; [exact Hj1|]. by constructor. }
  rewrite bind_run. unfold utcnow at 1, get at 1. cbn beta iota.
  rewrite Hclock. fold (job_ts w). fold (job_out_name w). fold (job_out_remote w).
  rewrite bind_run. unfold sb_storage_upload_from.
  destruct (supabase _ _ _ _ w1) as [r2 w2] eqn:Hreq.
  apply supabase_run in Hreq as [(_ & _ & -> & ->)|(_ & -> & ->)]; cycle 1.
  { intros [= <- <-]. split_and!; try done.
    exists ((Select, true) :: downloads (job_rows w)
            ++ [(Upload (job_out_remote w), false)]).
    split; [by simpl; rewrite Hj1, <- !app_assoc|].
    by apply (job_upload_failed w _ m). }
  rewrite bind_run.
  match goal with |- context [mapM (archive_entry ?ts) ?es ?w2] =>
    destruct (mapM (archive_entry ts) es w2) as [r3 w3] eqn:Hmv end.
  apply moves_run in Hmv as (Hf3 & (Hc3 & Hl3 & Hs3) & moves & Hj3 & Hm3 & Hres3).
  simpl in Hf3, Hc3, Hl3, Hs3, Hj3.
  assert (journal w3
          = (journal w ++ (Select, true) :: downloads (job_rows w)
             ++ (Upload (job_out_remote w), true) :: moves)%list) as Hj3'.
  { rewrite Hj3, Hj1, <- !app_assoc. reflexivity. }
  clear Hj3.
  destruct r3 as [dests|e3]; cycle 1.
  { intros [= <- <-]. destruct Hres3 as (a & b & -> & Hlast).
    split_and!; try congruence. eexists. split; [exact Hj3'|].
    apply (job_move_failed w _ m moves a b); try done; congruence. }
  destruct Hres3 as (-> & Hmoved).
  assert (forall r, In r (job_rows w) ->
                    exists d, In (Move (file_path r) d, true) moves) as Hmoved'.
  { intros r Hin. apply (Hmoved (local_entry (job_tmp w) r)).
    unfold job_entries. by apply in_map. }
  assert (map fst (job_entries w) = job_rows w) as Hfst.
  { unfold job_entries. rewrite map_map. apply map_id. }
  rewrite bind_run, Hfst.
  destruct (sb_update_file_paths _ _ w3) as [r4 w4] eqn:Hup.
  apply updates_run in Hup as (Hb4 & (Hc4 & Hl4 & Hs4) & updates & Hj4 & Hu4 & Hres4).
  assert (journal w4
          = (journal w ++ (Select, true) :: downloads (job_rows w)
             ++ (Upload (job_out_remote w), true) :: moves ++ updates)%list) as Hj4'.
  { rewrite Hj4, Hj3', <- !app_assoc. simpl. rewrite <- !app_assoc. reflexivity. }
  clear Hj4.
  destruct r4 as [[]|e4]; cycle 1.
  { intros [= <- <-]. destruct Hres4 as (a & b & -> & Hlast).
    split_and!; try congruence. eexists. split; [exact Hj4'|].
    apply (job_update_failed w _ m moves updates a b); try done; congruence. }
  subst updates. fold (job_updates w) in Hj4'.
  rewrite bind_run. unfold sb_insert_output_row.
  destruct (supabase _ _ _ _ w4) as [r5 w5] eqn:Hreq.
  apply supabase_run in Hreq as [(_ & _ & -> & ->)|(_ & -> & ->)]; cycle 1.
  { intros [= <- <-]. split_and!; try (simpl; congruence).
    exists ((Select, true) :: downloads (job_rows w)
            ++ (Upload (job_out_remote w), true) :: moves ++ job_updates w
            ++ [(Insert (job_out_name w) (job_out_remote w), false)]).
    split; [simpl; rewrite Hj4'; reassoc|].
    apply (job_insert_failed w _ m moves); try done. simpl. congruence. }
  rewrite bind_run. unfold now_iso. rewrite bind_run.
  unfold utcnow, get, mret, M_ret, modify. cbn beta iota.
  intros [= <- <-]. split_and!; try (simpl; congruence).
  exists ((Select, true) :: downloads (job_rows w)
          ++ (Upload (job_out_remote w), true) :: moves ++ job_updates w
          ++ [(Insert (job_out_name w) (job_out_remote w), true)]).
  split; [simpl; rewrite Hj4'; reassoc|].
  by apply (job_done w _ m moves).
Qed.

(** The world in which the [try] block starts: flag set, start stamped. *)
Definition job_start (w : World) : World :=
  set_STARTED_AT (Some (isoformat (clock w) ++ "Z")) (set_IS_CREATING true w).

Lemma run_build_pipeline_idle (w : World) :
  IS_CREATING w = false ->
  run_build_pipeline w
  = let '(res, w1) := build_job (job_start w) in (res, set_IS_CREATING false w1).
Proof.
  intros Hidle. unfold run_build_pipeline.
  rewrite bind_run. unfold get at 1. cbn beta iota. rewrite Hidle.
  rewrite bind_run. unfold get at 1. cbn beta iota. rewrite Hidle.
  rewrite bind_run. unfold modify at 1. cbn beta iota.
  rewrite bind_run. unfold now_iso. rewrite bind_run.
  unfold utcnow, get, mret, M_ret. cbn beta iota.
  rewrite bind_run. unfold modify at 1. cbn beta iota.
  reflexivity.
Qed.

Lemma run_build_pipeline_busy (w : World) :
  IS_CREATING w = true -> run_build_pipeline w = (Ok tt, w).
Proof.
  intros Hbusy. unfold run_build_pipeline.
  rewrite bind_run. unfold get at 1. cbn beta iota. rewrite Hbusy. reflexivity.
Qed.

Lemma job_run_frame (w w1 : World) (res : Result unit) (delta : list (Request * bool)) :
  job_run (job_start w) w1 res delta ->
  job_run w (set_IS_CREATING false w1) res delta.
Proof.
  intros H. destruct H;
    change (job_rows (job_start w)) with (job_rows w) in *;
    change (job_tmp (job_start w)) with (job_tmp w) in *;
    change (job_local_paths (job_start w)) with (job_local_paths w) in *;
    change (job_out_remote (job_start w)) with (job_out_remote w) in *;
    change (job_out_name (job_start w)) with (job_out_name w) in *;
    change (job_updates (job_start w)) with (job_updates w) in *;
    change (bucket (job_start w)) with (bucket w) in *;
    change (files (job_start w)) with (files w) in *;
    change (LAST_RUN (job_start w)) with (LAST_RUN w) in *.
  - by apply job_discovery_failed.
  - by apply job_nothing_pending.
  - by apply job_download_failed.
  - by apply job_write_failed.
  - by apply job_compose_failed.
  - by apply (job_upload_failed w _ m).
  - by apply (job_move_failed w _ m).
  - by apply (job_update_failed w _ m).
  - by apply (job_insert_failed w _ m).
  - by apply (job_done w _ m).
Qed.

(** Every run of [run_build_pipeline] that passes the gate. *)
Lemma run_build_pipeline_run (w : World) (res : Result unit) (w' : World) :
  IS_CREATING w = false ->
  run_build_pipeline w = (res, w') ->
  IS_CREATING w' = false
  /\ exists delta, journal w' = (journal w ++ delta)%list /\ job_run w w' res delta.
Proof.
  intros Hidle. rewrite run_build_pipeline_idle by done.
  destruct (build_job (job_start w)) as [r w1] eqn:Hjob. intros [= <- <-].
  apply build_job_run in Hjob as (_ & _ & delta & Hj & Hrun).
  split; [done|]. exists delta. split; [exact Hj|]. by apply job_run_frame.
Qed.

(* ===================================================================== *)
(** * Properties: the reconciler                                          *)
(* ===================================================================== *)

(** The files that reach the montage: ordered videos, then images. *)
Definition composable_paths (local_paths : list string) : list string :=
  (map path (order_videos (embed_videos (List.filter is_video local_paths)))
   ++ List.filter is_image local_paths)%list.

Definition no_usable_clips : Exception :=
  RuntimeError "No usable video or image clips found to compose.".

Lemma build_montage_nothing_composable (local_paths : list string) :
  composable_paths local_paths = [] ->
  build_montage_for_paths local_paths = Raise no_usable_clips.
Proof.
  unfold composable_paths. intros H. apply app_eq_nil in H as [Hv Hi].
  apply map_eq_nil in Hv.
  unfold build_montage_for_paths. cbv zeta. rewrite Hv, Hi. reflexivity.
Qed.

(** C9. When discovery answers with no pending row the job is a no-op: it
    returns normally, the only request of the run is the discovery itself,
    the bucket and the table are untouched (so no artifact exists), and
    [LAST_RUN] keeps its value. *)
Theorem no_pending_is_noop (w : World) :
  IS_CREATING w = false ->
  fault Select = false ->
  pending (files w) = [] ->
  exists w',
    run_build_pipeline w = (Ok tt, w')
    /\ journal w' = (journal w ++ [(Select, true)])%list
    /\ bucket w' = bucket w
    /\ files w' = files w
    /\ LAST_RUN w' = LAST_RUN w
    /\ IS_CREATING w' = false.
Proof.
  intros Hidle Hsel Hnone.
  destruct (run_build_pipeline w) as [res w'] eqn:Hrun. exists w'.
  apply run_build_pipeline_run in Hrun as (Hflag & delta & Hj & Hrun); [|done].
  unfold job_rows in Hrun.
  inversion Hrun; subst; unfold job_rows in *; try (exfalso; congruence);
    try (exfalso;
         match goal with H : In _ (pending _) |- _ =>
           rewrite Hnone in H; destruct H end).
  by split_and!.
Qed.

(** A job whose downloads all succeed, local writes included, and whose
    composition raises stops there, having only read. *)
Lemma run_stops_at_composition (w : World) (e : Exception) :
  IS_CREATING w = false ->
  fault Select = false ->
  pending (files w) <> [] ->
  (forall r, In r (pending (files w)) ->
             fault (Download (file_path r)) = false
             /\ is_Some (bucket w !! file_path r)
             /\ open_wb (snd (local_entry (job_tmp w) r)) = true) ->
  build_montage_for_paths (job_local_paths w) = Raise e ->
  exists w',
    run_build_pipeline w = (Raise e, w')
    /\ journal w' = (journal w ++ (Select, true) :: downloads (pending (files w)))%list
    /\ bucket w' = bucket w
    /\ files w' = files w
    /\ LAST_RUN w' = LAST_RUN w
    /\ IS_CREATING w' = false.
Proof.
  intros Hidle Hsel Hsome Hdl Hbuild.
  destruct (run_build_pipeline w) as [res w'] eqn:Hrun. exists w'.
  apply run_build_pipeline_run in Hrun as (Hflag & delta & Hj & Hrun); [|done].
  unfold job_rows in Hrun.
  inversion Hrun; subst; unfold job_rows in *; try (exfalso; congruence).
  - exfalso. destruct (Hdl r) as (Hf & [x Hx] & _); [done|].
    match goal with H : _ \/ _ |- _ => destruct H; congruence end.
  - exfalso. destruct (Hdl r) as (_ & _ & Hopen); [done|]. congruence.
  - match goal with H : build_montage_for_paths _ = Raise _ |- _ =>
      rewrite Hbuild in H; injection H as <- end.
    by split_and!.
Qed.

(** C8. When discovery and every download succeed (the object is there, the
    request does not fail and the local copy can be written) and no clip is
    left to compose, [build_montage_for_paths] raises its [RuntimeError] and
    the job stops there: the journal of the run holds the discovery and the
    downloads only, no request of the run writes, the bucket and the table
    are untouched, [LAST_RUN] keeps its value and the flag is cleared.  The
    local paths are ASCII strings, on which the extension test of the code
    is the one of [is_video] and [is_image]. *)
Theorem no_usable_clip_aborts (w : World) :
  IS_CREATING w = false ->
  fault Select = false ->
  pending (files w) <> [] ->
  (forall r, In r (pending (files w)) ->
             fault (Download (file_path r)) = false
             /\ is_Some (bucket w !! file_path r)
             /\ open_wb (snd (local_entry (job_tmp w) r)) = true) ->
  (forall p, In p (job_local_paths w) -> is_ascii p = true) ->
  composable_paths (job_local_paths w) = [] ->
  build_montage_for_paths (job_local_paths w) = Raise no_usable_clips
  /\ exists w',
      run_build_pipeline w = (Raise no_usable_clips, w')
      /\ journal w' = (journal w ++ (Select, true) :: downloads (pending (files w)))%list
      /\ Forall (fun x => is_write (fst x) = false)
                ((Select, true) :: downloads (pending (files w)))
      /\ bucket w' = bucket w
      /\ files w' = files w
      /\ LAST_RUN w' = LAST_RUN w
      /\ IS_CREATING w' = false.
Proof.
  intros Hidle Hsel Hsome Hdl _ Hempty.
  apply build_montage_nothing_composable in Hempty. split; [exact Hempty|].
  destruct (run_stops_at_composition w _ Hidle Hsel Hsome Hdl Hempty)
    as (w' & Hrun & Hj & Hb & Hf & Hl & Hflag).
  exists w'. split_and!; try done.
  constructor; [done|]. unfold downloads. apply Forall_map.
  by apply Forall_true.
Qed.

(** ** The order of the requests of a run *)

(** The stage of the job a request belongs to. *)
Definition phase (req : Request) : nat :=
  match req with
  | Select => 0
  | Download _ => 1
  | Upload _ => 2
  | Move _ _ => 3
  | Update _ _ => 4
  | Insert _ _ => 5
  end.

(** [phased n l]: the requests of [l] come stage after stage, none of a
    stage before [n]. *)
Fixpoint phased (n : nat) (l : list (Request * bool)) : Prop :=
  match l with
  | [] => True
  | x :: l' => (n <= phase (fst x))%nat /\ phased (phase (fst x)) l'
  end.

Definition block (k : nat) (l : list (Request * bool)) : Prop :=
  Forall (fun x => phase (fst x) = k) l.

(** [precedes P Q l]: every [P] request of [l] comes before every [Q]
    request of [l]. *)
Definition precedes (P Q : Request -> bool) (l : list (Request * bool)) : Prop :=
  forall i k x y,
    l !! i = Some x -> l !! k = Some y ->
    P (fst x) = true -> Q (fst y) = true -> (i < k)%nat.

Lemma phased_weaken (n n' : nat) (l : list (Request * bool)) :
  (n' <= n)%nat -> phased n l -> phased n' l.
Proof. destruct l as [|x l]; simpl; [done|]. intros ? [? ?]. split; [lia|done]. Qed.

Lemma phased_block_app (n k : nat) (l l' : list (Request * bool)) :
  block k l -> (n <= k)%nat -> phased k l' -> phased n (l ++ l').
Proof.
  intros Hb. revert n. induction Hb as [|x l Hx _ IH]; intros n Hn Hl'; simpl.
  - by apply (phased_weaken k).
  - rewrite Hx. split; [done|]. by apply IH.
Qed.

Lemma phased_lower_bound (n : nat) (l : list (Request * bool)) (k : nat)
    (y : Request * bool) :
  phased n l -> l !! k = Some y -> (n <= phase (fst y))%nat.
Proof.
  revert n k. induction l as [|x l IH]; intros n k Hp Hy; [done|].
  destruct Hp as [Hn Hp]. destruct k as [|k]; simpl in Hy.
  - by injection Hy as <-.
  - specialize (IH _ _ Hp Hy). lia.
Qed.

Lemma phased_precedes (P Q : Request -> bool) (n : nat) (l : list (Request * bool)) :
  (forall a b, P a = true -> Q b = true -> (phase a < phase b)%nat) ->
  phased n l -> precedes P Q l.
Proof.
  intros HPQ. revert n. induction l as [|z l IH]; intros n Hp i k x y Hi Hk HP HQ.
  - done.
  - destruct Hp as [Hn Hp]. destruct i as [|i], k as [|k]; simpl in Hi, Hk.
    + injection Hi as <-. injection Hk as <-. specialize (HPQ _ _ HP HQ). lia.
    + lia.
    + injection Hk as <-. pose proof (phased_lower_bound _ _ _ _ Hp Hi).
      specialize (HPQ _ _ HP HQ). lia.
    + apply ->Nat.succ_lt_mono. by eapply (IH _ Hp i k x y). 
Qed.

Lemma downloads_block (rows : list Row) : block 1 (downloads rows).
Proof. unfold block, downloads. apply Forall_map. by apply Forall_true. Qed.

Lemma all_moves_block (l : list (Request * bool)) : all_moves l -> block 3 l.
Proof.
  unfold all_moves, block. intros H. eapply Forall_impl; [exact H|].
  intros [[] ?]; simpl; congruence.
Qed.

Lemma all_updates_block (l : list (Request * bool)) : all_updates l -> block 4 l.
Proof.
  unfold all_updates, block. intros H. eapply Forall_impl; [exact H|].
  intros [[] ?]; simpl; congruence.
Qed.

Lemma job_updates_block (w : World) : block 4 (job_updates w).
Proof. unfold block, job_updates. apply Forall_map. by apply Forall_true. Qed.

(** The requests of a run: the discovery, once, then the downloads, the
    upload, the moves, the row updates and the insertion, in this order. *)
Lemma job_run_phased (w w' : World) (res : Result unit) (delta : list (Request * bool)) :
  job_run w w' res delta ->
  exists ok rest, delta = (Select, ok) :: rest /\ phased 1 rest.
Proof.
  intros H. destruct H; eexists _, _; (split; [reflexivity|]).
  - done.
  - done.
  - apply (phased_block_app 1 1); [apply downloads_block|lia|]. simpl. split; [lia|done].
  - rewrite <- (app_nil_r (downloads _)).
    apply (phased_block_app 1 1); [apply downloads_block|lia|done].
  - rewrite <- (app_nil_r (downloads _)).
    apply (phased_block_app 1 1); [apply downloads_block|lia|done].
  - apply (phased_block_app 1 1); [apply downloads_block|lia|]. simpl. split; [lia|done].
  - apply (phased_block_app 1 1); [apply downloads_block|lia|]. simpl.
    split; [lia|]. rewrite <- (app_nil_r moves).
    apply (phased_block_app 2 3); [by apply all_moves_block|lia|done].
  - apply (phased_block_app 1 1); [apply downloads_block|lia|]. simpl.
    split; [lia|].
    apply (phased_block_app 2 3); [by apply all_moves_block|lia|].
    rewrite <- (app_nil_r updates).
    apply (phased_block_app 3 4); [by apply all_updates_block|lia|done].
  - apply (phased_block_app 1 1); [apply downloads_block|lia|]. simpl.
    split; [lia|].
    apply (phased_block_app 2 3); [by apply all_moves_block|lia|].
    apply (phased_block_app 3 4); [by apply job_updates_block|lia|].
    simpl. split; [lia|done].
  - apply (phased_block_app 1 1); [apply downloads_block|lia|]. simpl.
    split; [lia|].
    apply (phased_block_app 2 3); [by apply all_moves_block|lia|].
    apply (phased_block_app 3 4); [by apply job_updates_block|lia|].
    simpl. split; [lia|done].
Qed.

(** ** Items of a run *)

Definition moved (r : Row) (delta : list (Request * bool)) : Prop :=
  exists d, In (Move (file_path r) d, true) delta.


Definition is_upload (req : Request) : bool :=
  match req with Upload _ => true | _ => false end.

Definition is_insert (req : Request) : bool :=
  match req with Insert _ _ => true | _ => false end.

(** Archival: the move of an input or the update of its row. *)
Definition is_archive (req : Request) : bool := is_move req || is_update req.

(** Publication: the upload of the montage or the insertion of its row. *)
Definition is_publish (req : Request) : bool := is_upload req || is_insert req.

Lemma zip_with_image {A B : Type} (f : A -> B) (l : list A) :
  zip l (map f l) = map (fun x => (x, f x)) l.
Proof. induction l as [|x l IH]; [done|]. simpl. by rewrite IH. Qed.

Lemma job_updates_rows (w : World) :
  job_updates w
  = map (fun r => (Update (row_id r)
                          (archive_dest (job_ts w) (local_entry (job_tmp w) r)), true))
        (job_rows w).
Proof.
  unfold job_updates, job_entries. rewrite map_map, zip_with_image, map_map.
  reflexivity.
Qed.

Lemma job_done_archives_all (w : World) (moves : list (Request * bool)) (r : Row)
    (pre post : list (Request * bool)) :
  In r (job_rows w) ->
  (forall r, In r (job_rows w) -> exists d, In (Move (file_path r) d, true) moves) ->
  moved r (pre ++ moves ++ job_updates w ++ post)
  /\ In (Update (row_id r) (archive_dest (job_ts w) (local_entry (job_tmp w) r)), true)
        (pre ++ moves ++ job_updates w ++ post).
Proof.
  intros Hin Hmoved. split.
  - destruct (Hmoved r Hin) as [d Hd]. exists d.
    apply in_or_app. right. apply in_or_app. by left.
  - apply in_or_app. right. apply in_or_app. right. apply in_or_app. left.
    rewrite job_updates_rows. apply in_map_iff. eauto.
Qed.

Lemma mapM_Result_Raise {A B : Type} (f : A -> Result B) (l : list A) (e : Exception) :
  mapM f l = Raise e -> exists x, In x l /\ f x = Raise e.
Proof.
  induction l as [|x l IH]; simpl; [discriminate|].
  unfold mbind, Result_bind. destruct (f x) as [y|e'] eqn:Hx.
  - destruct (mapM f l) as [k|e'']; [discriminate|].
    intros [= ->]. destruct IH as (x' & ? & ?); eauto.
  - intros [= ->]. eauto.
Qed.

(** What [build_montage_for_paths] raises: a media error of the backend or
    its own [RuntimeError]. *)
Lemma build_montage_error (local_paths : list string) (e : Exception) :
  build_montage_for_paths local_paths = Raise e ->
  (exists p, e = MediaError p) \/ e = no_usable_clips.
Proof.
  unfold build_montage_for_paths. cbv zeta.
  unfold mbind at 1, Result_bind at 1.
  destruct (final_clips _ _) as [clips|e'] eqn:Hclips.
  - destruct clips as [|c clips]; [intros [= <-]; by right|].
    destruct (write_videofile _ _); [discriminate|]. intros [= <-]. eauto.
  - intros [= ->]. left. revert Hclips.
    unfold final_clips. unfold mbind at 1, Result_bind at 1.
    destruct (mapM compose_video _) as [vs|e1] eqn:Hvs.
    + unfold mbind at 1, Result_bind at 1.
      destruct (mapM compose_image _) as [ims|e2] eqn:Hims; [discriminate|].
      intros [= ->]. apply mapM_Result_Raise in Hims as (x & _ & Hx).
      unfold compose_image in Hx. destruct (ImageClip x); [discriminate|].
      simpl in Hx. injection Hx as <-. eauto.
    + intros [= ->]. apply mapM_Result_Raise in Hvs as (x & _ & Hx).
      unfold compose_video in Hx. destruct (VideoFileClip (path x)); [discriminate|].
      simpl in Hx. injection Hx as <-. eauto.
Qed.

Lemma last_cons_Some {A : Type} (x y : A) (l : list A) :
  last l = Some y -> last (x :: l) = Some y.
Proof. intros H. rewrite last_cons, H. done. Qed.

Lemma last_app_Some {A : Type} (y : A) (l1 l2 : list A) :
  last l2 = Some y -> last (l1 ++ l2) = Some y.
Proof. intros H. rewrite last_app, H. done. Qed.

(** A run that fails on a request has sent nothing after it. *)
Lemma job_run_failed_last (w w' : World) (req : Request) (delta : list (Request * bool)) :
  job_run w w' (Raise (ApiError req)) delta -> last delta = Some (req, false).
Proof.
  intros H. inversion H; subst.
  - done.
  - apply last_cons_Some, last_app_Some. done.
  - exfalso.
    match goal with H : build_montage_for_paths _ = Raise _ |- _ =>
      apply build_montage_error in H as [[? ?]|?]; discriminate end.
  - apply last_cons_Some, last_app_Some. done.
  - by apply last_cons_Some, last_app_Some, last_cons_Some.
  - by apply last_cons_Some, last_app_Some, last_cons_Some, last_app_Some.
  - apply last_cons_Some, last_app_Some, last_cons_Some, last_app_Some,
      last_app_Some. done.
Qed.

(** ** Classification by extension *)

(** A file name that ends in none of the known extensions, case ignored. *)
Definition unrecognized (name : string) : Prop :=
  forall ext, In ext (video_exts ++ image_exts)%list ->
              endswith (lower name) ext = false.

Lemma unrecognized_not_media (p : string) :
  unrecognized p -> is_video p = false /\ is_image p = false.
Proof.
  intros H. unfold is_video, is_image, endswith_any.
  split; apply not_true_is_false; intros Hex;
    apply existsb_exists in Hex as (ext & Hin & Hext);
    rewrite H in Hext; try discriminate; apply in_or_app; auto.
Qed.

Lemma composable_in (local_paths : list string) (p : string) :
  In p (composable_paths local_paths) ->
  In p local_paths /\ (is_video p = true \/ is_image p = true).
Proof.
  unfold composable_paths. intros Hin. apply in_app_or in Hin as [Hin|Hin].
  - apply order_videos_paths in Hin. rewrite embed_videos_paths in Hin.
    apply filter_In in Hin as [Hin _]. apply filter_In in Hin as [? ?]. auto.
  - apply filter_In in Hin as [? ?]. auto.
Qed.

(** The local copy of an item keeps the name of the stored object, and
    therefore its classification. *)
Lemma chars_app (a b : string) : chars (a ++ b) = (chars a ++ chars b)%list.
Proof. unfold chars. induction a as [|c a IH]; simpl; [done|]. by rewrite IH. Qed.

Lemma chars_str (l : list ascii) : chars (str l) = l.
Proof. apply list_ascii_of_string_of_list_ascii. Qed.

Lemma os_path_join_chars (a b : string) :
  exists dir, chars (os_path_join a b) = (dir ++ chars b)%list
              /\ (dir = [] \/ last dir = Some slash).
Proof.
  unfold os_path_join.
  destruct (chars b) as [|c cb] eqn:Hb.
  - destruct (last (chars a)) as [e|] eqn:Ha.
    + case_bool_decide as He.
      * subst e. exists (chars a). rewrite app_nil_r. auto.
      * exists (chars a ++ [slash])%list. rewrite chars_app, app_nil_r.
        split; [done|]. right. by rewrite last_snoc.
    + exists []. by rewrite Hb; auto.
  - case_bool_decide as Hc.
    + exists []. rewrite Hb. auto.
    + destruct (last (chars a)) as [e|] eqn:Ha.
      * case_bool_decide as He.
        -- subst e. exists (chars a). rewrite chars_app, Hb. auto.
        -- exists (chars a ++ [slash])%list. rewrite !chars_app, Hb.
           rewrite <- app_assoc. split; [done|]. right. by rewrite last_snoc.
      * exists []. rewrite Hb. auto.
Qed.

Lemma suffix_after_slash (dir name ext : list ascii) :
  last dir = Some slash -> ~ In slash ext ->
  ((length ext <=? length (dir ++ name))%nat
   && bool_decide (drop (length (dir ++ name) - length ext) (dir ++ name) = ext))
  = ((length ext <=? length name)%nat
     && bool_decide (drop (length name - length ext) name = ext)).
Proof.
  intros Hdir Hext.
  destruct (Nat.leb_spec (length ext) (length name)) as [Hle|Hgt].
  - rewrite length_app.
    replace (length ext <=? length dir + length name)%nat with true
      by (symmetry; apply Nat.leb_le; lia).
    simpl.
    assert (drop (length dir + length name - length ext) (dir ++ name)
            = drop (length name - length ext) name) as ->; [|done].
    rewrite drop_app_ge by lia. f_equal. lia.
  - simpl. rewrite andb_false_iff. right.
    apply bool_decide_eq_false. intros Heq.
    destruct (Nat.le_gt_cases (length ext) (length (dir ++ name))) as [Hle|Hgt'];
      [|apply (f_equal length) in Heq; rewrite length_drop in Heq; lia].
    rewrite length_app in *.
    apply Hext. rewrite <- Heq.
    rewrite drop_app_le by lia.
    apply in_or_app. left.
    apply last_Some in Hdir as [dir' ->]. rewrite length_app in *. simpl in *.
    rewrite drop_app_le by lia. apply in_or_app. right. by left.
Qed.

Lemma endswith_join (a b ext : string) :
  ~ In slash (chars ext) ->
  endswith (lower (os_path_join a b)) ext = endswith (lower b) ext.
Proof.
  intros Hext. unfold endswith, ascii_list_eqb, lower. rewrite !chars_str.
  destruct (os_path_join_chars a b) as (dir & -> & [->|Hdir]); [done|].
  rewrite map_app. apply suffix_after_slash; [|done].
  change (map lower_ascii dir) with (lower_ascii <$> dir).
  by rewrite fmap_last, Hdir.
Qed.

Lemma extension_no_slash (ext : string) :
  In ext (video_exts ++ image_exts)%list -> ~ In slash (chars ext).
Proof.
  intros Hin. simpl in Hin.
  repeat (destruct Hin as [<-|Hin];
          [simpl; intros Hs;
           repeat (destruct Hs as [Hs|Hs]; [discriminate Hs|]); destruct Hs|]).
  destruct Hin.
Qed.

Lemma unrecognized_join (a b : string) :
  unrecognized b -> unrecognized (os_path_join a b).
Proof.
  intros Hb ext Hext. rewrite endswith_join by (by apply extension_no_slash).
  by apply Hb.
Qed.

(** ** Order of publication and archival *)

(** The reading of step 5 before step 6: every publication request (upload
    of the montage, insertion of its row) before every archival request
    (move of an input, update of its row). *)
Definition publish_before_archive (delta : list (Request * bool)) : Prop :=
  precedes is_publish is_archive delta.

(** C3 (amended). In every run that completes with pending items, the
    requests are, in this order: the discovery, the downloads, the upload of
    the montage, the moves of the inputs, the updates of their rows and,
    last, the insertion of the row of the montage.  So the upload comes
    before every move and every row update, and the insertion after all of
    them. *)
Theorem upload_then_archive_then_record (w w' : World) :
  IS_CREATING w = false ->
  pending (files w) <> [] ->
  run_build_pipeline w = (Ok tt, w') ->
  exists moves,
    let delta := ((Select, true) :: downloads (pending (files w))
                  ++ (Upload (job_out_remote w), true) :: moves
                  ++ job_updates w
                  ++ [(Insert (job_out_name w) (job_out_remote w), true)])%list in
    journal w' = (journal w ++ delta)%list
    /\ all_moves moves
    /\ precedes is_upload is_archive delta
    /\ precedes is_archive is_insert delta
    /\ precedes is_move is_update delta.
Proof.
  intros Hidle Hsome Hrun.
  apply run_build_pipeline_run in Hrun as (_ & delta & Hj & Hrun); [|done].
  pose proof (job_run_phased _ _ _ _ Hrun) as (ok & rest & Hdelta & Hph).
  assert (phased 0 delta) as Hph0
    by (rewrite Hdelta; simpl; split; [lia|apply (phased_weaken 1); [lia|done]]).
  clear ok rest Hdelta Hph.
  inversion Hrun; subst; [by unfold job_rows in *|].
  exists moves. cbv zeta. fold (job_rows w).
  split_and!; try done;
    apply (phased_precedes _ _ 0); try done;
    intros [] []; simpl; (discriminate || lia).
Qed.

(** ** Archival of the inputs *)



(* ===================================================================== *)
(** * The orchestrator: threads of the process                            *)
(* ===================================================================== *)

(** Where a thread running [run_build_pipeline] stands. *)
Inductive WorkerPc :=
| AtGate                    (* [if IS_CREATING: return], before the lock *)
| AtLock                    (* [with RUN_LOCK:], waiting for the lock *)
| InLockTest                (* [if IS_CREATING: return], lock held *)
| InLockSet                 (* [IS_CREATING = True] *)
| InLockStamp               (* [STARTED_AT = now_iso()] *)
| AtUnlock (started : bool) (* leaving the [with] block *)
| InTry                     (* the [try] block *)
| InFinally                 (* [IS_CREATING = False] *)
| Finished.

(** Where a thread serving [POST /api/run] stands, the bearer check passed;
    [Responded true] is the 202 answer with [already_running]. *)
Inductive HandlerPc :=
| AtCheck                   (* [if IS_CREATING:] *)
| AtSpawn                   (* [threading.Thread(...).start()] *)
| Responded (already_running : bool).

#[global] Instance WorkerPc_eq_dec : EqDecision WorkerPc.
Proof. solve_decision. Defined.
#[global] Instance HandlerPc_eq_dec : EqDecision HandlerPc.
Proof. solve_decision. Defined.

Record Config := mkConfig {
  world : World;
  RUN_LOCK : bool;                (* is the lock held? *)
  workers : list WorkerPc;
  handlers : list HandlerPc
}.

Definition set_world (w : World) (c : Config) : Config :=
  mkConfig w (RUN_LOCK c) (workers c) (handlers c).
Definition set_lock (b : bool) (c : Config) : Config :=
  mkConfig (world c) b (workers c) (handlers c).
Definition set_worker (i : nat) (pc : WorkerPc) (c : Config) : Config :=
  mkConfig (world c) (RUN_LOCK c) (<[i := pc]> (workers c)) (handlers c).
Definition set_handler (i : nat) (pc : HandlerPc) (c : Config) : Config :=
  mkConfig (world c) (RUN_LOCK c) (workers c) (<[i := pc]> (handlers c)).
Definition spawn (c : Config) : Config :=
  mkConfig (world c) (RUN_LOCK c) (workers c ++ [AtGate]) (handlers c).

(** One step of worker [i]; a thread that cannot move stays where it is.
    The requests of the [try] block take effect when the worker leaves it:
    the other threads only read the flag, which the block does not touch. *)
Definition worker_step (i : nat) (c : Config) : Config :=
  let w := world c in
  match workers c !! i with
  | None => c
  | Some AtGate => set_worker i (if IS_CREATING w then Finished else AtLock) c
  | Some AtLock => if RUN_LOCK c then c else set_worker i InLockTest (set_lock true c)
  | Some InLockTest =>
      set_worker i (if IS_CREATING w then AtUnlock false else InLockSet) c
  | Some InLockSet => set_worker i InLockStamp (set_world (set_IS_CREATING true w) c)
  | Some InLockStamp =>
      set_worker i (AtUnlock true)
        (set_world (set_STARTED_AT (Some (isoformat (clock w) ++ "Z")) w) c)
  | Some (AtUnlock started) =>
      set_worker i (if started then InTry else Finished) (set_lock false c)
  | Some InTry => set_worker i InFinally (set_world (snd (build_job w)) c)
  | Some InFinally => set_worker i Finished (set_world (set_IS_CREATING false w) c)
  | Some Finished => c
  end.

(** One step of the handler [i] of [run]. *)
Definition handler_step (i : nat) (c : Config) : Config :=
  match handlers c !! i with
  | Some AtCheck =>
      set_handler i (if IS_CREATING (world c) then Responded true else AtSpawn) c
  | Some AtSpawn => set_handler i (Responded false) (spawn c)
  | _ => c
  end.

(** What happens next: a request arrives, or a thread moves. *)
Inductive Sched :=
| Arrive
| Handler (i : nat)
| Worker (i : nat).

Definition step (c : Config) (ev : Sched) : Config :=
  match ev with
  | Arrive => mkConfig (world c) (RUN_LOCK c) (workers c) (handlers c ++ [AtCheck])
  | Handler i => handler_step i c
  | Worker i => worker_step i c
  end.

Definition run_schedule (sched : list Sched) (c : Config) : Config :=
  fold_left step sched c.

(** The process after start-up. *)
Definition init (w : World) : Config := mkConfig w false [] [].

(** A worker between setting and clearing the flag: a job in state Running. *)
Definition running (pc : WorkerPc) : bool :=
  match pc with
  | InLockStamp | AtUnlock true | InTry | InFinally => true
  | _ => false
  end.

Definition at_set (pc : WorkerPc) : bool :=
  match pc with InLockSet => true | _ => false end.

Definition in_lock_other (pc : WorkerPc) : bool :=
  match pc with InLockTest | InLockStamp | AtUnlock _ => true | _ => false end.

Definition at_spawn (pc : HandlerPc) : bool :=
  match pc with AtSpawn => true | _ => false end.

Definition count {A : Type} (P : A -> bool) (l : list A) : nat :=
  length (List.filter P l).

Definition bit (b : bool) : nat := if b then 1 else 0.

(** The job still runs at every instant of the schedule [more]. *)
Fixpoint stays_running (more : list Sched) (c : Config) : Prop :=
  IS_CREATING (world c) = true
  /\ match more with
     | [] => True
     | ev :: more' => stays_running more' (step c ev)
     end.

Lemma count_insert {A : Type} (P : A -> bool) (l : list A) (i : nat) (a b : A) :
  l !! i = Some a ->
  (count P (<[i := b]> l) + bit (P a) = count P l + bit (P b))%nat.
Proof.
  unfold count. revert i. induction l as [|x l IH]; intros i Hi; [done|].
  destruct i as [|i]; simpl in *.
  - injection Hi as ->. destruct (P a), (P b); simpl; lia.
  - specialize (IH i Hi). destruct (P x); simpl; lia.
Qed.

Lemma count_snoc {A : Type} (P : A -> bool) (l : list A) (a : A) :
  count P (l ++ [a]) = (count P l + bit (P a))%nat.
Proof.
  unfold count. rewrite List.filter_app, length_app. simpl.
  destruct (P a); reflexivity.
Qed.

(** The invariant of the lock and of the flag: the lock is held by exactly
    the workers inside the [with] block, the flag is set exactly while one
    worker is between setting and clearing it, and a worker about to set
    the flag finds it clear. *)
Definition Inv (c : Config) : Prop :=
  (count at_set (workers c) + count in_lock_other (workers c) = bit (RUN_LOCK c))%nat
  /\ count running (workers c) = bit (IS_CREATING (world c))
  /\ (count at_set (workers c) = 0%nat \/ IS_CREATING (world c) = false).

Lemma build_job_flag (w : World) : IS_CREATING (snd (build_job w)) = IS_CREATING w.
Proof.
  destruct (build_job w) as [res w'] eqn:Hjob.
  apply build_job_run in Hjob as (Hflag & _). exact Hflag.
Qed.

Lemma worker_step_Inv (i : nat) (c : Config) : Inv c -> Inv (worker_step i c).
Proof.
  intros (Hlock & Hrun & Hset). unfold worker_step.
  destruct (workers c !! i) as [pc|] eqn:Hpc; [|done].
  pose proof (fun b => count_insert at_set (workers c) i pc b Hpc) as Hs.
  pose proof (fun b => count_insert in_lock_other (workers c) i pc b Hpc) as Hl.
  pose proof (fun b => count_insert running (workers c) i pc b Hpc) as Hr.
  destruct (IS_CREATING (world c)) eqn:Hflag, (RUN_LOCK c) eqn:Hheld;
    destruct Hset as [Hset|Hset]; try discriminate;
    destruct pc as [| | | | |[|]| | |]; simpl in *;
    try (match goal with
         | |- Inv (set_worker i ?b _) =>
             specialize (Hs b); specialize (Hl b); specialize (Hr b)
         end);
    unfold Inv; simpl; rewrite ?build_job_flag, ?Hflag, ?Hheld; simpl in *;
    (split_and!; first [ lia | left; lia | right; reflexivity ]).
Qed.

Lemma step_Inv (c : Config) (ev : Sched) : Inv c -> Inv (step c ev).
Proof.
  destruct ev as [|i|i]; simpl.
  - done.
  - intros HI. unfold handler_step.
    destruct (handlers c !! i) as [[| |b]|]; try done.
    destruct HI as (Hlock & Hrun & Hset). unfold Inv. simpl.
    rewrite !count_snoc. simpl. rewrite !Nat.add_0_r. done.
  - apply worker_step_Inv.
Qed.

Lemma init_Inv (w : World) : IS_CREATING w = false -> Inv (init w).
Proof. intros H. unfold Inv. simpl. rewrite H. auto. Qed.

Lemma run_schedule_Inv (sched : list Sched) (c : Config) :
  Inv c -> Inv (run_schedule sched c).
Proof.
  unfold run_schedule. revert c.
  induction sched as [|ev sched IH]; intros c HI; [done|].
  simpl. apply IH. by apply step_Inv.
Qed.

Lemma worker_step_handlers (i : nat) (c : Config) :
  handlers (worker_step i c) = handlers c.
Proof.
  unfold worker_step. destruct (workers c !! i) as [[| | | | |?| | |]|]; try done.
  by destruct (RUN_LOCK c).
Qed.

Lemma worker_step_workers (i : nat) (c : Config) :
  length (workers (worker_step i c)) = length (workers c).
Proof.
  unfold worker_step. destruct (workers c !! i) as [[| | | | |?| | |]|]; try done;
    simpl; rewrite ?length_insert; try done.
  destruct (RUN_LOCK c); simpl; rewrite ?length_insert; done.
Qed.

(** Two workers are never both in state Running. *)
Lemma Inv_exclusive (c : Config) (i j : nat) (pi pj : WorkerPc) :
  Inv c ->
  workers c !! i = Some pi -> workers c !! j = Some pj ->
  running pi = true -> running pj = true -> i = j.
Proof.
  intros (_ & Hrun & _) Hi Hj Hpi Hpj.
  destruct (decide (i = j)) as [|Hne]; [done|exfalso].
  pose proof (count_insert running (workers c) i pi Finished Hi) as H1.
  assert (<[i := Finished]> (workers c) !! j = Some pj) as Hj'
    by (by rewrite list_lookup_insert_ne).
  pose proof (count_insert running _ j pj Finished Hj') as H2.
  rewrite Hpi in H1. rewrite Hpj in H2. simpl in *.
  destruct (IS_CREATING (world c)); simpl in *; lia.
Qed.

(** The steps of a worker that runs alone are [run_build_pipeline]. *)
Lemma worker_alone (w : World) :
  IS_CREATING w = false ->
  run_schedule (repeat (Worker 0) 8) (mkConfig w false [AtGate] [])
  = mkConfig (snd (run_build_pipeline w)) false [Finished] [].
Proof.
  intros Hidle. rewrite run_build_pipeline_idle by done.
  unfold run_schedule. cbn -[build_job]. rewrite Hidle.
  cbn -[build_job]. rewrite Hidle. cbn -[build_job].
  fold (job_start w). by destruct (build_job (job_start w)).
Qed.

(** A trigger that has not answered yet, or has answered [already_running]. *)
Definition waits_or_refused (h : option HandlerPc) : Prop :=
  h = None \/ h = Some AtCheck \/ h = Some (Responded true).

Lemma step_refused (c : Config) (ev : Sched) (i : nat) :
  IS_CREATING (world c) = true ->
  waits_or_refused (handlers c !! i) ->
  waits_or_refused (handlers (step c ev) !! i).
Proof.
  intros Hflag Hi. destruct ev as [|j|j]; simpl.
  - destruct (handlers c !! i) as [h|] eqn:Hh.
    + rewrite (lookup_app_l_Some _ _ _ _ Hh). done.
    + apply lookup_ge_None in Hh.
      destruct (decide (i = length (handlers c))) as [->|Hne].
      * rewrite lookup_app_r, Nat.sub_diag by lia. right. by left.
      * left. apply lookup_ge_None. rewrite length_app. simpl. lia.
  - unfold handler_step. destruct (handlers c !! j) as [[| |b]|] eqn:Hj; try done.
    + rewrite Hflag. simpl. destruct (decide (j = i)) as [->|Hne].
      * rewrite list_lookup_insert_eq by (by eapply lookup_lt_Some).
        right. by right.
      * by rewrite list_lookup_insert_ne.
    + simpl. destruct (decide (j = i)) as [->|Hne].
      * rewrite Hj in Hi. destruct Hi as [?|[?|?]]; discriminate.
      * by rewrite list_lookup_insert_ne.
  - by rewrite worker_step_handlers.
Qed.

Lemma step_spawn_budget (c : Config) (ev : Sched) :
  IS_CREATING (world c) = true ->
  (length (workers (step c ev)) + count at_spawn (handlers (step c ev))
   = length (workers c) + count at_spawn (handlers c))%nat.
Proof.
  intros Hflag. destruct ev as [|j|j]; simpl.
  - rewrite count_snoc. simpl. lia.
  - unfold handler_step. destruct (handlers c !! j) as [[| |b]|] eqn:Hj; try done.
    + rewrite Hflag. simpl.
      pose proof (count_insert at_spawn _ j _ (Responded true) Hj). simpl in *. lia.
    + simpl. rewrite length_app. simpl.
      pose proof (count_insert at_spawn _ j _ (Responded false) Hj). simpl in *. lia.
  - by rewrite worker_step_handlers, worker_step_workers.
Qed.

(** Only a worker in its [try] block changes the bucket, the table or the
    journal. *)
Lemma step_writes (c : Config) (ev : Sched) :
  (exists i, ev = Worker i /\ workers c !! i = Some InTry)
  \/ (bucket (world (step c ev)) = bucket (world c)
      /\ files (world (step c ev)) = files (world c)
      /\ journal (world (step c ev)) = journal (world c)).
Proof.
  destruct ev as [|j|j]; simpl.
  - by right.
  - right. unfold handler_step.
    destruct (handlers c !! j) as [[| |b]|]; done.
  - unfold worker_step.
    destruct (workers c !! j) as [[| | | | |?| | |]|] eqn:Hj; try (by right).
    + right. by destruct (RUN_LOCK c).
    + left. eauto.
Qed.

Lemma stays_running_refused (more : list Sched) (c : Config) (i : nat) :
  stays_running more c ->
  waits_or_refused (handlers c !! i) ->
  waits_or_refused (handlers (run_schedule more c) !! i).
Proof.
  unfold run_schedule. revert c.
  induction more as [|ev more IH]; intros c [Hflag Hmore] Hi; [done|].
  simpl. apply IH; [done|]. by apply step_refused.
Qed.

Lemma stays_running_budget (more : list Sched) (c : Config) :
  stays_running more c ->
  (length (workers (run_schedule more c))
   + count at_spawn (handlers (run_schedule more c))
   = length (workers c) + count at_spawn (handlers c))%nat.
Proof.
  unfold run_schedule. revert c.
  induction more as [|ev more IH]; intros c [Hflag Hmore]; [done|].
  simpl. rewrite IH by done. by apply step_spawn_budget.
Qed.

Lemma stays_running_end (more : list Sched) (c : Config) :
  stays_running more c -> IS_CREATING (world (run_schedule more c)) = true.
Proof.
  unfold run_schedule. revert c.
  induction more as [|ev more IH]; intros c [Hflag Hmore]; [done|].
  simpl. by apply IH.
Qed.

(** What the lock and the flag do give.  From start-up, whatever the
    interleaving of requests, handlers and workers: two workers are never
    both between setting and clearing the flag, and the flag is set exactly
    while one worker is; only a worker in its [try] block sends writes to
    the bucket or the table.  Over a stretch in which the flag is set at
    every instant, every trigger that tests the flag answers
    [already_running], and no worker is started except by triggers that
    had passed the test before the stretch. *)
Theorem single_flight (w0 : World) (sched more : list Sched) (ev : Sched) :
  IS_CREATING w0 = false ->
  let c := run_schedule sched (init w0) in
  let c' := run_schedule more c in
  (forall i j pi pj,
      workers c !! i = Some pi -> workers c !! j = Some pj ->
      running pi = true -> running pj = true -> i = j)
  /\ count running (workers c) = bit (IS_CREATING (world c))
  /\ ((exists i, ev = Worker i /\ workers c !! i = Some InTry)
      \/ (bucket (world (step c ev)) = bucket (world c)
          /\ files (world (step c ev)) = files (world c)
          /\ journal (world (step c ev)) = journal (world c)))
  /\ (stays_running more c ->
      count running (workers c') = 1%nat
      /\ (forall i, waits_or_refused (handlers c !! i) ->
                    waits_or_refused (handlers c' !! i))
      /\ (length (workers c') + count at_spawn (handlers c')
          = length (workers c) + count at_spawn (handlers c))%nat).
Proof.
  intros Hidle c c'.
  assert (Inv c) as HI by (apply run_schedule_Inv; by apply init_Inv).
  split; [intros i j pi pj; by apply Inv_exclusive|].
  split; [by destruct HI as (_ & ? & _)|].
  split; [apply step_writes|].
  intros Hmore. split_and!.
  - assert (Inv c') as (_ & Hrun & _) by (by apply run_schedule_Inv).
    rewrite Hrun. unfold c'. by rewrite (stays_running_end more c).
  - intros i. by apply stays_running_refused.
  - by apply stays_running_budget.
Qed.

(* ===================================================================== *)
(** * Further properties of the helpers                                   *)
(* ===================================================================== *)

(** ** Discovery *)

(** The condition of the query of [sb_list_incoming_files]. *)
Definition is_pending (r : Row) : bool :=
  String.prefix "incoming/" (file_path r) && negb (is_trashed r).

Definition created_le (a b : Row) : Prop :=
  String.leb (created_at a) (created_at b) = true.

Lemma insert_sorted_Permutation (r : Row) (l : list Row) :
  Permutation (insert_sorted r l) (r :: l).
Proof.
  induction l as [|x l IH]; simpl; [done|].
  destruct (String.leb (created_at r) (created_at x)); [done|].
  rewrite IH. apply perm_swap.
Qed.

Lemma order_by_created_at_Permutation (l : list Row) :
  Permutation (order_by_created_at l) l.
Proof.
  unfold order_by_created_at. induction l as [|x l IH]; simpl; [done|].
  rewrite insert_sorted_Permutation. by constructor.
Qed.

Lemma insert_sorted_Sorted (r : Row) (l : list Row) :
  Sorted created_le l -> Sorted created_le (insert_sorted r l).
Proof.
  induction l as [|x l IH]; intros Hs; simpl.
  - by repeat constructor.
  - destruct (String.leb (created_at r) (created_at x)) eqn:Hle.
    + constructor; [done|]. by constructor.
    + apply Sorted_inv in Hs as [Hs Hhd]. constructor; [by apply IH|].
      assert (created_le x r) as Hxr.
      { unfold created_le. destruct (String.leb_total (created_at x) (created_at r));
          congruence. }
      destruct l as [|y l]; simpl.
      * by constructor.
      * destruct (String.leb (created_at r) (created_at y)); constructor; [done|].
        by apply HdRel_inv in Hhd.
Qed.

Lemma order_by_created_at_Sorted (l : list Row) :
  Sorted created_le (order_by_created_at l).
Proof.
  unfold order_by_created_at. induction l as [|x l IH]; simpl; [constructor|].
  by apply insert_sorted_Sorted.
Qed.

(** X1. [sb_list_incoming_files] never changes the bucket, the table or the
    globals.  When the request succeeds it answers with the rows that are
    under [incoming/] and not in the trash, each of them once and no other
    row, in ascending order of [created_at]; otherwise it raises. *)
Theorem discovery_lists_pending (w : World) (res : Result (list Row)) (w' : World) :
  sb_list_incoming_files w = (res, w') ->
  bucket w' = bucket w /\ files w' = files w /\ same_globals w w'
  /\ (res = Raise (ApiError Select)
      \/ exists rows,
          res = Ok rows
          /\ Permutation rows (List.filter is_pending (files w))
          /\ Sorted created_le rows
          /\ forall r, In r rows <-> In r (files w)
                                     /\ String.prefix "incoming/" (file_path r) = true
                                     /\ is_trashed r = false).
Proof.
  unfold sb_list_incoming_files. intros Hreq.
  apply supabase_run in Hreq as [(_ & _ & -> & ->)|(_ & -> & ->)].
  - split_and!; try done. right. exists (pending (files w)).
    assert (Permutation (pending (files w)) (List.filter is_pending (files w)))
      as Hperm by apply order_by_created_at_Permutation.
    split_and!; [done|done|apply order_by_created_at_Sorted|].
    intros r.
    assert (In r (pending (files w)) <-> In r (List.filter is_pending (files w)))
      as -> by (split; apply Permutation_in; [done|by symmetry]).
    rewrite filter_In. unfold is_pending.
    by rewrite andb_true_iff, negb_true_iff.
  - split_and!; try done. by left.
Qed.


(** ** Moving an object *)

Lemma str_chars (p : string) : str (chars p) = p.
Proof. apply string_of_list_ascii_of_string. Qed.

Lemma str_app (a b : list ascii) : str (a ++ b) = str a ++ str b.
Proof. unfold str. induction a as [|c a IH]; simpl; [done|]. by rewrite IH. Qed.

Lemma length_string_app (a b : string) :
  String.length (a ++ b) = (String.length a + String.length b)%nat.
Proof. induction a as [|c a IH]; simpl; [done|]. by rewrite IH. Qed.

Lemma string_app_nil_r (p : string) : p ++ "" = p.
Proof.
  induction p as [|c p IH]; [done|].
  change (String c (p ++ "") = String c p). by rewrite IH.
Qed.

(** [root + ext == path], as for [os.path.splitext]. *)
Lemma splitext_concat (p : string) : fst (splitext p) ++ snd (splitext p) = p.
Proof.
  unfold splitext. destruct (rfind dot (chars p)) as [d|]; simpl.
  - destruct (_ && _); simpl.
    + by rewrite <- str_app, take_drop, str_chars.
    + apply string_app_nil_r.
  - apply string_app_nil_r.
Qed.

(** The name of the second attempt of [sb_storage_move]. *)
Definition fallback_dest (to_path ts : string) : string :=
  let '(base, ext) := splitext to_path in base ++ "." ++ ts ++ ext.

Lemma fallback_dest_length (to_path ts : string) :
  String.length (fallback_dest to_path ts)
  = S (String.length to_path + String.length ts).
Proof.
  unfold fallback_dest. pose proof (splitext_concat to_path) as Hcat.
  destruct (splitext to_path) as [base ext]. simpl in Hcat.
  rewrite <- Hcat, !length_string_app. simpl. lia.
Qed.

Lemma fallback_dest_fresh (to_path ts : string) : fallback_dest to_path ts <> to_path.
Proof.
  intros Heq. pose proof (fallback_dest_length to_path ts) as Hlen.
  rewrite Heq in Hlen. lia.
Qed.

(** X2. [sb_storage_move] sends one request, or two: the second one only
    when the first has failed, and then for a destination that differs from
    the first (the time stamp is put before the extension).  It succeeds
    exactly when its last request does, and raises the failure of the
    second request otherwise. *)
Theorem sb_storage_move_attempts (from_path to_path : string) (w : World)
    (res : Result unit) (w' : World) :
  sb_storage_move from_path to_path w = (res, w') ->
  (res = Ok tt
   /\ journal w' = (journal w ++ [(Move from_path to_path, true)])%list)
  \/ exists second,
      second = fallback_dest to_path (strftime (clock w + 1) "%Y%m%d%H%M%S%f")
      /\ second <> to_path
      /\ ((res = Ok tt
           /\ journal w' = (journal w ++ [(Move from_path to_path, false);
                                          (Move from_path second, true)])%list)
          \/ (res = Raise (ApiError (Move from_path second))
              /\ journal w' = (journal w ++ [(Move from_path to_path, false);
                                             (Move from_path second, false)])%list)).
Proof.
  unfold sb_storage_move, try_except, storage_move.
  destruct (supabase _ _ _ _ w) as [r1 w1] eqn:Hreq.
  apply supabase_run in Hreq as [(_ & _ & -> & ->)|(_ & -> & ->)].
  - intros [= <- <-]. left. split; [done|]. by destruct (bucket w !! from_path).
  - pose proof (fallback_dest_fresh to_path (strftime (clock w + 1) "%Y%m%d%H%M%S%f"))
      as Hfresh.
    unfold fallback_dest in *. destruct (splitext to_path) as [base ext].
    rewrite bind_run. unfold utcnow, get. cbn beta iota.
    change (clock (logged (Move from_path to_path) false w)) with (clock w + 1).
    destruct (supabase _ _ _ _ _) as [r2 w2] eqn:Hreq.
    apply supabase_run in Hreq as [(_ & _ & -> & ->)|(_ & -> & ->)];
      intros [= <- <-]; right; (eexists; split; [reflexivity|]);
      (split; [exact Hfresh|]); [left|right]; (split; [done|]); simpl.
    + destruct (bucket w !! from_path); simpl; by rewrite <- app_assoc.
    + by rewrite <- app_assoc.
Qed.

Lemma sb_storage_move_bucket (from_path to_path : string) (w : World)
    (res : Result unit) (w' : World) :
  sb_storage_move from_path to_path w = (res, w') ->
  files w' = files w
  /\ match res with
     | Ok _ =>
         exists dest data,
           (dest = to_path
            \/ dest = fallback_dest to_path (strftime (clock w + 1) "%Y%m%d%H%M%S%f"))
           /\ bucket w !! from_path = Some data
           /\ bucket w !! dest = None
           /\ bucket w' = <[dest := data]> (delete from_path (bucket w))
     | Raise _ => bucket w' = bucket w
     end.
Proof.
  unfold sb_storage_move, try_except, storage_move.
  destruct (supabase _ _ _ _ w) as [r1 w1] eqn:Hreq.
  apply supabase_run in Hreq as [(_ & Hpos & -> & ->)|(_ & -> & ->)].
  - intros [= <- <-]. apply andb_true_iff in Hpos as [Hsrc Hdst].
    apply bool_decide_eq_true in Hsrc as [data Hsrc].
    apply bool_decide_eq_true in Hdst.
    rewrite Hsrc. split; [done|]. exists to_path, data. auto.
  - unfold fallback_dest. destruct (splitext to_path) as [base ext].
    rewrite bind_run. unfold utcnow, get. cbn beta iota.
    change (clock (logged (Move from_path to_path) false w)) with (clock w + 1).
    destruct (supabase _ _ _ _ _) as [r2 w2] eqn:Hreq.
    apply supabase_run in Hreq as [(_ & Hpos & -> & ->)|(_ & -> & ->)];
      intros [= <- <-]; [|done].
    simpl in Hpos. apply andb_true_iff in Hpos as [Hsrc Hdst].
    apply bool_decide_eq_true in Hsrc as [data Hsrc].
    apply bool_decide_eq_true in Hdst.
    simpl. rewrite Hsrc. split; [done|]. eexists _, data. auto.
Qed.

(** X3. [sb_storage_move] renames and nothing else: when it succeeds, the
    object that was at [from_path] is under a name that was free, being
    the first destination or the fallback one, and no other object has
    changed; when it raises, the bucket is as before.  The table and the
    service's globals are never touched. *)
Theorem sb_storage_move_renames (from_path to_path : string) (w : World)
    (res : Result unit) (w' : World) :
  sb_storage_move from_path to_path w = (res, w') ->
  files w' = files w
  /\ same_globals w w'
  /\ match res with
     | Ok _ =>
         exists dest data,
           (dest = to_path
            \/ dest = fallback_dest to_path (strftime (clock w + 1) "%Y%m%d%H%M%S%f"))
           /\ bucket w !! from_path = Some data
           /\ bucket w !! dest = None
           /\ bucket w' = <[dest := data]> (delete from_path (bucket w))
           /\ forall other, other <> from_path -> other <> dest ->
                bucket w' !! other = bucket w !! other
     | Raise _ => bucket w' = bucket w
     end.
Proof.
  intros Hmove.
  pose proof (sb_storage_move_run _ _ _ _ _ Hmove) as (_ & Hglobals & _).
  apply sb_storage_move_bucket in Hmove as [Hfiles Hbucket].
  split_and!; [done|done|].
  destruct res as [[]|e]; [|done].
  destruct Hbucket as (dest & data & Hdest & Hsrc & Hfree & Hbucket).
  exists dest, data. split_and!; try done.
  intros other Hne Hne'. by rewrite Hbucket, lookup_insert_ne, lookup_delete_ne.
Qed.

(** X4. [archive_entry] answers with the first destination whether or not
    the move went there.  When that name is already taken by another
    object and the job goes on, the other object is still what the name
    holds, the input is stored under the fallback name, and the path
    handed on for the row of the input is the name of the other object. *)
Theorem archive_entry_keeps_first_choice (ts : string) (e : Row * string)
    (w : World) (d other : string) (w' : World) :
  archive_entry ts e w = (Ok d, w') ->
  bucket w !! archive_dest ts e = Some other ->
  file_path (fst e) <> archive_dest ts e ->
  d = archive_dest ts e
  /\ bucket w' !! d = Some other
  /\ exists second data,
      second <> d
      /\ bucket w !! file_path (fst e) = Some data
      /\ bucket w' !! second = Some data
      /\ bucket w' !! file_path (fst e) = None.
Proof.
  unfold archive_entry. rewrite bind_run. fold (archive_dest ts e).
  destruct (sb_storage_move _ _ w) as [r1 w1] eqn:Hmove.
  destruct r1 as [[]|e1]; [|discriminate]. unfold mret, M_ret.
  intros [= <- <-] Hother Hne.
  apply sb_storage_move_bucket in Hmove
    as (_ & dest & data & Hdest & Hsrc & Hfree & Hbucket).
  split; [done|].
  assert (dest <> archive_dest ts e) as Hdiff by congruence.
  assert (dest <> file_path e.1) as Hdiff' by congruence.
  split.
  - rewrite Hbucket, lookup_insert_ne, lookup_delete_ne by done. exact Hother.
  - exists dest, data. split_and!; try done.
    + rewrite Hbucket. apply lookup_insert_eq.
    + rewrite Hbucket, lookup_insert_ne by done. apply lookup_delete_eq.
Qed.


(** ** Updating the rows *)

(** A row after an update of its location: only [file_path] and
    [updated_at] may differ. *)
Definition same_but_location (old new : Row) : Prop :=
  row_id new = row_id old
  /\ row_name new = row_name old
  /\ created_at new = created_at old
  /\ mime_type new = mime_type old
  /\ file_size new = file_size old
  /\ is_trashed new = is_trashed old
  /\ folder_id new = folder_id old.

(** What the updates [(row, path)] of [pairs] make of a row [old], [done_]
    telling that all of them were applied. *)
Definition relocated (pairs : list (Row * string)) (done_ : Prop) (old new : Row)
  : Prop :=
  same_but_location old new
  /\ (~ In (row_id old) (map (fun x => row_id (fst x)) pairs) -> new = old)
  /\ (done_ -> In (row_id old) (map (fun x => row_id (fst x)) pairs) ->
      In (file_path new) (map snd pairs)).

Lemma same_but_location_refl (r : Row) : same_but_location r r.
Proof. by repeat split. Qed.

Lemma update_row_same (rid : Z) (newp stamp : string) (r : Row) :
  same_but_location r (update_row rid newp stamp r).
Proof. unfold update_row. case_bool_decide; by repeat split. Qed.

Lemma relocated_step (row : Row) (newp stamp : string) (pairs : list (Row * string))
    (done_ : Prop) (old new : Row) :
  relocated pairs done_ (update_row (row_id row) newp stamp old) new ->
  relocated ((row, newp) :: pairs) done_ old new.
Proof.
  intros (Hsame & Hkeep & Hmoved).
  pose proof (update_row_same (row_id row) newp stamp old) as Hstep.
  assert (row_id (update_row (row_id row) newp stamp old) = row_id old) as Hid
    by apply Hstep.
  rewrite Hid in Hkeep, Hmoved.
  split_and!.
  - unfold same_but_location in *. destruct Hsame as (-> & -> & -> & -> & -> & -> & ->).
    exact Hstep.
  - simpl. intros Hnot. rewrite Hkeep by (intros Hin; apply Hnot; by right).
    unfold update_row. rewrite bool_decide_eq_false_2; [done|].
    intros Heq. apply Hnot. by left.
  - simpl. intros Hdone Hin.
    destruct (in_dec Z.eq_dec (row_id old) (map (fun x => row_id (fst x)) pairs))
      as [Hlater|Hnot]; [right; by apply Hmoved|].
    left. rewrite Hkeep by done. unfold update_row.
    destruct Hin as [Heq|?]; [|done]. by rewrite bool_decide_eq_true_2.
Qed.

Lemma Forall2_map_left {A B C : Type} (P : B -> C -> Prop) (f : A -> B)
    (l : list A) (k : list C) :
  Forall2 P (map f l) k -> Forall2 (fun x => P (f x)) l k.
Proof.
  revert k. induction l as [|x l IH]; intros k H; inversion H; subst;
    constructor; auto.
Qed.

(** The loop of [sb_update_file_paths], over the pairs of [zip]. *)
Definition update_all (pairs : list (Row * string)) : M unit :=
  for_ pairs (fun '(row, newp) =>
    stamp ← now_iso;
    supabase (Update (row_id row) newp) (fun _ => true) (fun _ => tt)
             (fun w => set_files (map (update_row (row_id row) newp stamp) (files w)) w)).

Lemma update_all_relocate (pairs : list (Row * string))
    (w : World) (res : Result unit) (w' : World) :
  update_all pairs w = (res, w') ->
  bucket w' = bucket w
  /\ Forall2 (relocated pairs (res = Ok tt)) (files w) (files w')
  /\ exists delta,
      journal w' = (journal w ++ delta)%list
      /\ (length delta <= length pairs)%nat.
Proof.
  unfold update_all.
  revert w res w'. induction pairs as [|[row newp] pairs IH]; intros w res w'.
  - intros [= <- <-]. split_and!; try done.
    + apply Forall_Forall2_diag, Forall_true. intros r.
      split_and!; [apply same_but_location_refl|done|intros _ []].
    + exists []. by rewrite app_nil_r.
  - simpl for_. rewrite !bind_run. unfold now_iso, utcnow, get.
    rewrite bind_run. unfold mret, M_ret. cbn beta iota.
    destruct (supabase _ _ _ _ w) as [r1 w1] eqn:Hreq.
    apply supabase_run in Hreq as [(_ & _ & -> & ->)|(_ & -> & ->)].
    + match goal with |- context [for_ pairs ?f ?w1] =>
        destruct (for_ pairs f w1) as [r2 w2] eqn:Hrest end.
      apply IH in Hrest as (Hb & Hrel & delta & Hj & Hlen).
      assert ((r2, w2) = (res, w') ->
              r2 = res /\ w2 = w') as Hinj by (intros [= -> ->]; done).
      intros Heq. destruct r2 as [[]|e2];
        (destruct (Hinj Heq) as [<- <-] || (injection Heq as <- <-));
        (split_and!; [done| |]).
      * simpl in Hrel. apply Forall2_map_left in Hrel.
        eapply Forall2_impl; [exact Hrel|]. intros old new. apply relocated_step.
      * exists ((Update (row_id row) newp, true) :: delta). simpl.
        split; [by rewrite Hj; simpl; rewrite <- app_assoc|lia].
      * simpl in Hrel. apply Forall2_map_left in Hrel.
        eapply Forall2_impl; [exact Hrel|]. intros old new. apply relocated_step.
      * exists ((Update (row_id row) newp, true) :: delta). simpl.
        split; [by rewrite Hj; simpl; rewrite <- app_assoc|lia].
    + intros [= <- <-]. split_and!; try done.
      * apply Forall_Forall2_diag, Forall_true. intros r.
        split_and!; [apply same_but_location_refl|done|discriminate].
      * exists [(Update (row_id row) newp, false)]. split; [done|simpl; lia].
Qed.

Lemma updates_relocate (rows : list Row) (new_paths : list string)
    (w : World) (res : Result unit) (w' : World) :
  sb_update_file_paths rows new_paths w = (res, w') ->
  bucket w' = bucket w
  /\ Forall2 (relocated (zip rows new_paths) (res = Ok tt)) (files w) (files w')
  /\ exists delta,
      journal w' = (journal w ++ delta)%list
      /\ (length delta <= Nat.min (length rows) (length new_paths))%nat.
Proof.
  rewrite <- (length_zip_with pair rows new_paths).
  apply (update_all_relocate (zip rows new_paths)).
Qed.

(** With distinct ids in [pairs], where each row of the table ends up. *)
Definition relocated_to (pairs : list (Row * string)) (old new : Row) : Prop :=
  forall row newp,
    In (row, newp) pairs -> row_id row = row_id old ->
    file_path new = newp /\ is_Some (updated_at new).

Lemma update_all_cons (row : Row) (newp : string) (pairs : list (Row * string))
    (w w' : World) :
  update_all ((row, newp) :: pairs) w = (Ok tt, w') ->
  exists stamp,
    update_all pairs
      (logged (Update (row_id row) newp) true
         (set_files (map (update_row (row_id row) newp stamp) (files w)) w))
    = (Ok tt, w').
Proof.
  unfold update_all. simpl for_. rewrite !bind_run. unfold now_iso, utcnow, get.
  rewrite bind_run. unfold mret, M_ret. cbn beta iota.
  destruct (supabase _ _ _ _ w) as [r1 w1] eqn:Hreq.
  apply supabase_run in Hreq as [(_ & _ & -> & ->)|(_ & -> & ->)]; [|discriminate].
  intros Hrest. eexists. exact Hrest.
Qed.

Lemma Forall2_conj {A B : Type} (R1 R2 : A -> B -> Prop) (l : list A) (k : list B) :
  Forall2 R1 l k -> Forall2 R2 l k -> Forall2 (fun a b => R1 a b /\ R2 a b) l k.
Proof.
  intros H1. induction H1 as [|a b l k Hab _ IH]; intros H2;
    inversion H2; subst; constructor; auto.
Qed.

Lemma update_all_exact (pairs : list (Row * string)) (w w' : World) :
  update_all pairs w = (Ok tt, w') ->
  List.NoDup (map (fun x => row_id (fst x)) pairs) ->
  Forall2 (relocated_to pairs) (files w) (files w').
Proof.
  revert w. induction pairs as [|[row newp] pairs IH]; intros w Hrun Hnodup.
  - injection Hrun as <-. apply Forall_Forall2_diag, Forall_true.
    intros r row newp [].
  - apply update_all_cons in Hrun as [stamp Hrest].
    apply NoDup_cons_iff in Hnodup as [Hfresh Hnodup]. simpl in Hfresh.
    pose proof (IH _ Hrest Hnodup) as Hexact.
    apply update_all_relocate in Hrest as (_ & Hrel & _).
    pose proof (Forall2_conj _ _ _ _ Hexact Hrel) as Hboth.
    simpl in Hboth. apply Forall2_map_left in Hboth.
    eapply Forall2_impl; [exact Hboth|]. clear Hboth Hexact Hrel.
    intros old new [Hexact (_ & Hkeep & _)] row' newp' Hin Hid.
    assert (row_id (update_row (row_id row) newp stamp old) = row_id old) as Hsame
      by apply update_row_same.
    destruct Hin as [[= -> ->]|Hin].
    + rewrite Hkeep by (by rewrite Hsame, <- Hid).
      unfold update_row. rewrite bool_decide_eq_true_2 by done. simpl. eauto.
    + apply (Hexact row' newp' Hin). by rewrite Hsame.
Qed.

(** X5. [sb_update_file_paths] pairs the rows with the paths as [zip] does,
    so it sends at most as many requests as the shorter list has items.
    Whatever its outcome, it leaves the bucket alone, keeps the number and
    the order of the rows of the table, changes nothing but [file_path] and
    [updated_at], and only in rows whose [id] is that of a paired row; when
    it succeeds every such row has one of the paired paths. *)
Theorem sb_update_file_paths_frame (rows : list Row) (new_paths : list string)
    (w : World) (res : Result unit) (w' : World) :
  sb_update_file_paths rows new_paths w = (res, w') ->
  bucket w' = bucket w
  /\ length (files w') = length (files w)
  /\ Forall2 (relocated (zip rows new_paths) (res = Ok tt)) (files w) (files w')
  /\ exists delta,
      journal w' = (journal w ++ delta)%list
      /\ (length delta <= Nat.min (length rows) (length new_paths))%nat.
Proof.
  intros Hrun. apply updates_relocate in Hrun as (Hb & Hrel & Hreq).
  split_and!; try done. symmetry. by eapply Forall2_length.
Qed.

(** ** A completed job *)

Definition in_archive (k : string) : bool := String.prefix "archive/" k.

Lemma prefix_chars (s k : string) :
  String.prefix s k = true <-> exists rest, chars k = (chars s ++ rest)%list.
Proof.
  revert k. induction s as [|a s IH]; intros k.
  - destruct k; simpl; split; eauto.
  - destruct k as [|b k]; simpl.
    + split; [discriminate|]. by intros [rest [=]].
    + destruct (ascii_dec a b) as [->|Hne].
      * rewrite IH. split; intros [rest Hrest]; exists rest.
        -- unfold chars in *. simpl. by rewrite Hrest.
        -- unfold chars in *. simpl in Hrest. by injection Hrest.
      * split; [discriminate|]. intros [rest Hrest].
        unfold chars in Hrest. simpl in Hrest. congruence.
Qed.

Lemma incoming_not_archive (k : string) :
  String.prefix "incoming/" k = true -> in_archive k = false.
Proof.
  intros [rest Hin]%prefix_chars.
  destruct (in_archive k) eqn:Harch; [|done].
  apply prefix_chars in Harch as [rest' Harch].
  rewrite Hin in Harch. discriminate.
Qed.

Lemma rfind_from_last (c : ascii) (l : list ascii) (i j0 : nat) :
  (j0 <= i)%nat -> exists j, rfind_from c l i (Some j0) = Some j /\ (j0 <= j)%nat.
Proof.
  revert i j0. induction l as [|x l IH]; intros i j0 Hle; simpl; [eauto|].
  case_bool_decide.
  - destruct (IH (S i) i) as (j & -> & Hj); [lia|]. exists j. split; [done|lia].
  - apply IH. lia.
Qed.

Lemma rfind_from_found (c : ascii) (l : list ascii) (i : nat) (last : option nat)
    (k : nat) :
  l !! k = Some c ->
  exists j, rfind_from c l i last = Some j /\ (i + k <= j)%nat.
Proof.
  revert i last k. induction l as [|x l IH]; intros i last k Hk; [done|].
  destruct k as [|k]; simpl in *.
  - injection Hk as ->. rewrite bool_decide_eq_true_2 by done.
    destruct (rfind_from_last c l (S i) i) as (j & -> & Hj); [lia|].
    exists j. split; [done|lia].
  - destruct (IH (S i) (if bool_decide (x = c) then Some i else last) k Hk)
      as (j & -> & Hj).
    exists j. split; [done|lia].
Qed.

(** [splitext] cuts after the last slash: the folders of a path are those
    of its root. *)
Lemma splitext_keeps_dir (dir rest : list ascii) (p : string) :
  chars p = (dir ++ slash :: rest)%list ->
  exists rest', chars (fst (splitext p)) = (dir ++ slash :: rest')%list.
Proof.
  intros Hp. unfold splitext. cbv zeta. rewrite Hp.
  destruct (rfind_from_found slash (dir ++ slash :: rest) 0 None (length dir))
    as (j & Hj & Hle).
  { by rewrite list_lookup_middle. }
  change (rfind slash (dir ++ slash :: rest) = Some j) in Hj. rewrite Hj.
  destruct (rfind dot (dir ++ slash :: rest)) as [d|]; [|simpl; eauto].
  destruct ((S j <=? d)%nat && _) eqn:Hcond; [|simpl; eauto].
  apply andb_true_iff in Hcond as [Hd _]. apply Nat.leb_le in Hd.
  simpl. rewrite chars_str, take_app_ge by lia.
  destruct (d - length dir)%nat as [|n] eqn:Hn; [lia|]. simpl. eauto.
Qed.

Lemma fallback_dest_in_archive (to_path ts : string) :
  in_archive to_path = true -> in_archive (fallback_dest to_path ts) = true.
Proof.
  unfold in_archive. rewrite !prefix_chars. intros [rest Hrest].
  apply (splitext_keeps_dir (chars "archive") rest) in Hrest as [rest' Hbase].
  unfold fallback_dest. destruct (splitext to_path) as [base ext]. simpl in Hbase.
  rewrite chars_app, Hbase. by exists (rest' ++ chars ("." ++ ts ++ ext))%list.
Qed.

Lemma archive_dest_in_archive (ts : string) (e : Row * string) :
  in_archive (archive_dest ts e) = true.
Proof. apply prefix_chars. unfold archive_dest. rewrite chars_app. eauto. Qed.

(** The name an archive move ends on: the first choice [to_path], or the
    name of the second attempt. *)
Definition archive_name (to_path k : string) : Prop :=
  k = to_path
  \/ exists t, k = fallback_dest to_path (strftime t "%Y%m%d%H%M%S%f").

(** The archive loop on the bucket: it takes the inputs away from their
    names, stores them under names of [archive/] that were free (the first
    choice or the name of the second attempt), and leaves every other
    object where it is. *)
Lemma moves_bucket (ts : string) (entries : list (Row * string)) (w : World)
    (dests : list string) (w' : World) :
  mapM (archive_entry ts) entries w = (Ok dests, w') ->
  Forall (fun e => String.prefix "incoming/" (file_path (fst e)) = true) entries ->
  (forall k data, bucket w !! k = Some data ->
                  (forall e, In e entries -> file_path (fst e) <> k) ->
                  bucket w' !! k = Some data)
  /\ (forall k, bucket w !! k = None -> in_archive k = false ->
                bucket w' !! k = None)
  /\ (forall e, In e entries ->
        bucket w' !! file_path (fst e) = None
        /\ exists k data, in_archive k = true
             /\ bucket w !! k = None
             /\ bucket w !! file_path (fst e) = Some data
             /\ bucket w' !! k = Some data
             /\ archive_name (archive_dest ts e) k).
Proof.
  revert w dests w'. induction entries as [|x entries IH]; intros w dests w'.
  - intros [= <- <-] _. split_and!; [auto|auto|intros e []].
  - rewrite mapM_cons_run. unfold archive_entry at 1. rewrite bind_run.
    fold (archive_dest ts x).
    destruct (sb_storage_move _ _ w) as [r1 w1] eqn:Hmove.
    destruct r1 as [[]|e1]; [|discriminate].
    unfold mret, M_ret. cbn beta iota.
    destruct (mapM (archive_entry ts) entries w1) as [[k2|e2] w2] eqn:Hrest;
      [|discriminate].
    intros [= <- <-] Hall. apply Forall_cons in Hall as [Hx Hall].
    apply sb_storage_move_bucket in Hmove
      as (_ & d1 & data1 & Hd1 & Hsrc & Hfree & Hb1).
    assert (in_archive d1 = true) as Harch.
    { destruct Hd1 as [->| ->];
        [|apply fallback_dest_in_archive]; apply archive_dest_in_archive. }
    assert (forall e, In e (x :: entries) -> file_path (fst e) <> d1) as Hne.
    { intros e Hin Heq.
      assert (String.prefix "incoming/" (file_path (fst e)) = true) as He.
      { destruct Hin as [<-|Hin]; [done|].
        rewrite List.Forall_forall in Hall. by apply Hall. }
      apply incoming_not_archive in He. congruence. }
    destruct (IH _ _ _ Hrest Hall) as (Hkeep & Hnone & Hmoved).
    split_and!.
    + intros k data Hk Hnot. apply Hkeep; [|intros e Hin; apply Hnot; by right].
      rewrite Hb1, lookup_insert_ne by congruence.
      rewrite lookup_delete_ne; [done|]. apply Hnot. by left.
    + intros k Hk Hnot. apply Hnone; [|done].
      rewrite Hb1, lookup_insert_ne by congruence.
      apply lookup_delete_None. by right.
    + intros e [<-|Hin].
      * split.
        -- apply Hnone; [|by apply incoming_not_archive].
           rewrite Hb1, lookup_insert_ne by (apply not_eq_sym, Hne; by left).
           apply lookup_delete_eq.
        -- exists d1, data1. split_and!; try done.
           ++ apply Hkeep; [rewrite Hb1; apply lookup_insert_eq|].
              intros e Hin. apply Hne. by right.
           ++ destruct Hd1 as [->| ->]; [by left|right; eauto].
      * destruct (Hmoved e Hin)
          as (Hgone & k & data & Hk & Hkfree & Hdata & Hk' & Hname).
        split; [done|]. exists k, data.
        assert (file_path (fst e) <> d1) as Hed by (apply Hne; by right).
        rewrite Hb1, lookup_insert_ne in Hdata by congruence.
        apply lookup_delete_Some in Hdata as [_ Hdata].
        split_and!; try done.
        rewrite Hb1 in Hkfree. apply lookup_insert_None in Hkfree as [Hkfree Hkd].
        apply lookup_delete_None in Hkfree as [Heq|]; [|done].
        apply incoming_not_archive in Hx. congruence.
Qed.


(** A download loop that succeeds has found every object. *)
Lemma downloads_present (tmp : string) (rows : list Row) (w : World)
    (res : Result (list (Row * string))) (w' : World) :
  mapM (download_entry tmp) rows w = (res, w') ->
  (exists entries, res = Ok entries) ->
  forall r, In r rows -> is_Some (bucket w !! file_path r).
Proof.
  revert w res w'. induction rows as [|x rows IH]; intros w res w' Hrun Hok r;
    [intros []|].
  revert Hrun. rewrite mapM_cons_run. unfold download_entry at 1. rewrite bind_run.
  unfold sb_storage_download_to. rewrite bind_run.
  destruct (supabase _ _ _ _ w) as [r1 w1] eqn:Hreq.
  apply supabase_run in Hreq as [(_ & Hpos & -> & ->)|(_ & -> & ->)].
  - unfold lift at 1.
    destruct (open_wb (os_path_join tmp (basename (file_path x))));
      [|intros [= <- <-]; by destruct Hok].
    unfold mret, M_ret. cbn beta iota.
    destruct (mapM (download_entry tmp) rows (logged (Download (file_path x)) true w))
      as [[k|e] w2] eqn:Hrest; intros [= <- <-].
    + intros [<-|Hin]; [by apply bool_decide_eq_true in Hpos|].
      apply (IH _ _ _ Hrest); eauto.
    + by destruct Hok.
  - intros [= <- <-]. by destruct Hok.
Qed.

(** The row that [sb_insert_output_row] adds for the montage [m]. *)
Definition output_row (w : World) (w4 : World) (m : Montage) : Row :=
  mkRow (next_id (files w4)) (job_out_name w) (job_out_remote w)
        (isoformat (clock w4) ++ "Z") "video/mp4"
        (Z.of_nat (String.length (out_bytes m))) false None None.

(** The stages of a job that completes, with the worlds between them:
    [w2] after the upload, [w3] after the archive loop, [w4] after the
    catalog loop. *)
Lemma build_job_done (w w' : World) :
  build_job w = (Ok tt, w') -> job_rows w <> [] ->
  exists m w2 w3 w4,
    build_montage_for_paths (job_local_paths w) = Ok m
    /\ (forall r, In r (job_rows w) -> is_Some (bucket w !! file_path r))
    /\ bucket w !! job_out_remote w = None
    /\ bucket w2 = <[job_out_remote w := out_bytes m]> (bucket w)
    /\ files w2 = files w
    /\ mapM (archive_entry (job_ts w)) (job_entries w) w2
       = (Ok (map (archive_dest (job_ts w)) (job_entries w)), w3)
    /\ sb_update_file_paths (job_rows w)
         (map (archive_dest (job_ts w)) (job_entries w)) w3 = (Ok tt, w4)
    /\ bucket w' = bucket w4
    /\ files w' = (files w4 ++ [output_row w w4 m])%list.
Proof.
  unfold build_job. rewrite bind_run. unfold sb_list_incoming_files.
  destruct (supabase _ _ _ _ w) as [r0 w0] eqn:Hreq.
  apply supabase_run in Hreq as [(_ & _ & -> & ->)|(_ & -> & ->)]; [|discriminate].
  fold (job_rows w). intros Hrun Hne. revert Hrun.
  destruct (job_rows w) as [|r0 rows0] eqn:Hrows; [done|].
  rewrite <- Hrows. clear r0 rows0 Hrows Hne.
  unfold TmpDir. rewrite bind_run. unfold utcnow at 1, get at 1. cbn beta iota.
  unfold try_finally.
  change (clock (logged Select true w)) with (clock w + 1). fold (job_tmp w).
  rewrite bind_run.
  destruct (mapM (download_entry (job_tmp w)) (job_rows w) (logged Select true w))
    as [r1 w1] eqn:Hdl.
  pose proof (downloads_present _ _ _ _ _ Hdl) as Hpresent.
  apply downloads_run in Hdl as (Hb1 & Hf1 & _ & d1 & _ & Hres1).
  simpl in Hb1, Hf1.
  destruct r1 as [entries|e1]; [|discriminate].
  destruct Hres1 as (-> & _ & Hclock). simpl in Hclock.
  fold (job_entries w).
  rewrite bind_run. unfold lift at 1. fold (job_local_paths w).
  destruct (build_montage_for_paths (job_local_paths w)) as [m|e] eqn:Hbuild;
    [|discriminate].
  rewrite bind_run. unfold utcnow at 1, get at 1. cbn beta iota.
  rewrite Hclock. fold (job_ts w). fold (job_out_name w). fold (job_out_remote w).
  rewrite bind_run. unfold sb_storage_upload_from.
  destruct (supabase _ _ _ _ w1) as [r2 w2] eqn:Hreq.
  apply supabase_run in Hreq as [(_ & Hfree & -> & ->)|(_ & -> & ->)]; [|discriminate].
  apply bool_decide_eq_true in Hfree. rewrite Hb1 in Hfree.
  rewrite bind_run.
  match goal with |- context [mapM (archive_entry ?ts) ?es ?w2] =>
    destruct (mapM (archive_entry ts) es w2) as [r3 w3] eqn:Hmv end.
  pose proof (moves_run _ _ _ _ _ Hmv) as (_ & _ & moves & _ & _ & Hres3).
  destruct r3 as [dests|e3]; [|discriminate].
  destruct Hres3 as (-> & _).
  assert (map fst (job_entries w) = job_rows w) as Hfst.
  { unfold job_entries. rewrite map_map. apply map_id. }
  rewrite bind_run, Hfst.
  destruct (sb_update_file_paths _ _ w3) as [r4 w4] eqn:Hup.
  destruct r4 as [[]|e4]; [|discriminate].
  rewrite bind_run. unfold sb_insert_output_row.
  destruct (supabase _ _ _ _ w4) as [r5 w5] eqn:Hreq.
  apply supabase_run in Hreq as [(_ & _ & -> & ->)|(_ & -> & ->)]; [|discriminate].
  rewrite bind_run. unfold now_iso. rewrite bind_run.
  unfold utcnow, get, mret, M_ret, modify. cbn beta iota.
  intros [= <-].
  exists m, (logged (Upload (job_out_remote w)) true
               (set_bucket (<[job_out_remote w:=out_bytes m]> (bucket w1)) w1)),
         w3, w4.
  split_and!; [done| |exact Hfree| |exact Hf1|exact Hmv|exact Hup|done|done].
  - apply Hpresent. eauto.
  - simpl. by rewrite Hb1.
Qed.


Lemma pending_In (fs : list Row) (r : Row) :
  In r (pending fs) <-> In r fs /\ is_pending r = true.
Proof.
  assert (Permutation (pending fs) (List.filter is_pending fs)) as Hperm
    by apply order_by_created_at_Permutation.
  assert (In r (pending fs) <-> In r (List.filter is_pending fs)) as ->
    by (split; apply Permutation_in; [done|by symmetry]).
  apply filter_In.
Qed.

Lemma pending_nil (fs : list Row) :
  Forall (fun r => is_pending r = false) fs -> pending fs = [].
Proof.
  intros Hall. destruct (pending fs) as [|r l] eqn:Hp; [done|].
  assert (In r (pending fs)) as Hin by (rewrite Hp; by left).
  apply pending_In in Hin as [Hin Hr].
  rewrite List.Forall_forall in Hall. apply Hall in Hin. congruence.
Qed.

Lemma pending_incoming (fs : list Row) (r : Row) :
  In r (pending fs) -> String.prefix "incoming/" (file_path r) = true.
Proof.
  intros [_ Hr]%pending_In. unfold is_pending in Hr.
  by apply andb_true_iff in Hr as [Hr _].
Qed.

Lemma job_entries_incoming (w : World) :
  Forall (fun e => String.prefix "incoming/" (file_path (fst e)) = true)
         (job_entries w).
Proof.
  apply List.Forall_forall. intros e Hin. unfold job_entries in Hin.
  apply in_map_iff in Hin as (r & <- & Hin). simpl. by eapply pending_incoming.
Qed.

Lemma job_out_remote_not_incoming (w : World) :
  String.prefix "incoming/" (job_out_remote w) = false.
Proof.
  destruct (String.prefix "incoming/" (job_out_remote w)) eqn:Hp; [|done].
  apply prefix_chars in Hp as [rest Hp]. unfold job_out_remote in Hp.
  rewrite chars_app in Hp. discriminate.
Qed.

Lemma Forall2_Forall_right {A B : Type} (R : A -> B -> Prop) (P : B -> Prop)
    (l : list A) (k : list B) :
  Forall2 R l k -> (forall x y, In x l -> R x y -> P y) -> Forall P k.
Proof.
  induction 1 as [|x y l k Hxy _ IH]; intros HP; constructor.
  - apply (HP x); [by left|done].
  - apply IH. intros x' y' Hin. apply HP. by right.
Qed.

(** A run that passes the gate and completes is a completed [build_job]. *)
Lemma run_done (w w' : World) :
  IS_CREATING w = false ->
  run_build_pipeline w = (Ok tt, w') ->
  exists w1, build_job (job_start w) = (Ok tt, w1) /\ w' = set_IS_CREATING false w1.
Proof.
  intros Hidle. rewrite run_build_pipeline_idle by done.
  destruct (build_job (job_start w)) as [r w1]. intros [= -> <-]. eauto.
Qed.

(** X6. After a run that completes no row is pending: the rows the job
    found are under [archive/], the row of the montage is under
    [outputs/], and the other rows are as they were.  A second run
    therefore does nothing but ask: if its discovery request is answered,
    it returns with the bucket, the table and [LAST_RUN] unchanged. *)
Theorem completed_run_leaves_nothing_pending (w w' : World) :
  IS_CREATING w = false ->
  run_build_pipeline w = (Ok tt, w') ->
  pending (files w') = []
  /\ (fault Select = false ->
      exists w'',
        run_build_pipeline w' = (Ok tt, w'')
        /\ journal w'' = (journal w' ++ [(Select, true)])%list
        /\ bucket w'' = bucket w'
        /\ files w'' = files w'
        /\ LAST_RUN w'' = LAST_RUN w').
Proof.
  intros Hidle Hrun.
  assert (IS_CREATING w' = false) as Hidle'
    by (by apply run_build_pipeline_run in Hrun as (? & _)).
  assert (pending (files w') = []) as Hnone.
  { destruct (job_rows w) as [|r0 rows0] eqn:Hrows.
    { apply run_build_pipeline_run in Hrun as (_ & delta & _ & Hrun); [|done].
      inversion Hrun; subst; try congruence. unfold job_rows in Hrows. congruence. }
    apply run_done in Hrun as (w1 & Hjob & ->); [|done].
    apply build_job_done in Hjob
      as (m & w2 & w3 & w4 & _ & _ & _ & _ & Hf2 & Hmv & Hup & _ & Hfiles);
      [|change (job_rows (job_start w)) with (job_rows w); congruence].
    change (pending (files w1) = []). rewrite Hfiles.
    apply moves_run in Hmv as (Hf3 & _).
    apply updates_relocate in Hup as (_ & Hrel & _).
    rewrite Hf3, Hf2 in Hrel. change (files (job_start w)) with (files w) in Hrel.
    change (job_rows (job_start w)) with (job_rows w) in Hrel.
    change (job_entries (job_start w)) with (job_entries w) in Hrel.
    change (job_ts (job_start w)) with (job_ts w) in Hrel.
    apply pending_nil, Forall_app. split.
    - eapply Forall2_Forall_right; [exact Hrel|]. clear Hrel.
      intros old new Hold (_ & Hkeep & Hnew).
      unfold job_entries in Hkeep, Hnew.
      rewrite map_map, zip_with_image, !map_map in Hkeep, Hnew. simpl in Hkeep, Hnew.
      destruct (in_dec Z.eq_dec (row_id old) (map row_id (job_rows w))) as [Hin|Hnot].
      + apply Hnew in Hin; [|done]. apply in_map_iff in Hin as ([r d] & Hr & Hin).
        apply in_map_iff in Hin as (x & [= <- <-] & _). simpl in Hr.
        unfold is_pending. apply andb_false_iff. left.
        destruct (String.prefix "incoming/" (file_path new)) eqn:Hp; [|done].
        apply incoming_not_archive in Hp. rewrite <- Hr in Hp.
        by rewrite archive_dest_in_archive in Hp.
      + rewrite (Hkeep Hnot). destruct (is_pending old) eqn:Hp; [|done].
        exfalso. apply Hnot. apply in_map. apply pending_In. done.
    - constructor; [|constructor].
      change (String.prefix "incoming/" (job_out_remote w) && negb false = false).
      by rewrite job_out_remote_not_incoming. }
  split; [exact Hnone|]. intros Hsel.
  destruct (run_build_pipeline w') as [res w''] eqn:Hagain. exists w''.
  apply run_build_pipeline_run in Hagain as (_ & delta & Hj & Hagain); [|done].
  inversion Hagain; subst; unfold job_rows in *; try (exfalso; congruence);
    try (exfalso;
         match goal with H : In _ (pending _) |- _ =>
           rewrite Hnone in H; destruct H end).
  by split_and!.
Qed.

(** X7. A run that completes for pending rows has stored the montage under
    a name of [outputs/] that was free, and has appended one row to the
    table, whose path is that name and whose size is the length of the
    stored bytes.  The rows that were there keep their place and all their
    columns but [file_path] and [updated_at]. *)
Theorem completed_run_publishes_montage (w w' : World) :
  IS_CREATING w = false ->
  run_build_pipeline w = (Ok tt, w') ->
  job_rows w <> [] ->
  exists m olds out,
    build_montage_for_paths (job_local_paths w) = Ok m
    /\ bucket w !! job_out_remote w = None
    /\ bucket w' !! job_out_remote w = Some (out_bytes m)
    /\ files w' = (olds ++ [out])%list
    /\ Forall2 same_but_location (files w) olds
    /\ row_name out = job_out_name w
    /\ file_path out = job_out_remote w
    /\ file_size out = Z.of_nat (String.length (out_bytes m))
    /\ mime_type out = "video/mp4"
    /\ is_trashed out = false
    /\ folder_id out = None.
Proof.
  intros Hidle Hrun Hne.
  apply run_done in Hrun as (w1 & Hjob & ->); [|done].
  apply build_job_done in Hjob
    as (m & w2 & w3 & w4 & Hbuild & _ & Hfree & Hb2 & Hf2 & Hmv & Hup & Hb & Hfiles);
    [|done].
  exists m, (files w4), (output_row (job_start w) w4 m).
  pose proof (moves_bucket _ _ _ _ _ Hmv (job_entries_incoming _)) as (Hkeep & _ & _).
  apply moves_run in Hmv as (Hf3 & _).
  apply updates_relocate in Hup as (Hb4 & Hrel & _).
  split_and!; try done.
  - change (bucket w1 !! job_out_remote w = Some (out_bytes m)).
    rewrite Hb, Hb4. apply Hkeep; [rewrite Hb2; apply lookup_insert_eq|].
    intros e He Heq.
    pose proof (job_entries_incoming (job_start w)) as Hinc.
    rewrite List.Forall_forall in Hinc. apply Hinc in He.
    rewrite Heq in He.
    change (job_out_remote (job_start w)) with (job_out_remote w) in He.
    by rewrite job_out_remote_not_incoming in He.
  - rewrite Hf3, Hf2 in Hrel. eapply Forall2_impl; [exact Hrel|].
    by intros old new (Hsame & _).
Qed.

(** The archive path of a pending row: [archive/<basename>.<ts>]. *)
Definition archive_path (w : World) (r : Row) : string :=
  "archive/" ++ basename (file_path r) ++ "." ++ job_ts w.

(** The object of the row [r] has been archived between [w] and [w']: its
    incoming name is gone and its bytes are under a name that was free,
    the archive path of the row or the name of the second attempt. *)
Definition stored_in_archive (w w' : World) (r : Row) : Prop :=
  bucket w' !! file_path r = None
  /\ exists k data,
      archive_name (archive_path w r) k
      /\ in_archive k = true
      /\ bucket w !! k = None
      /\ bucket w !! file_path r = Some data
      /\ bucket w' !! k = Some data.

(** The bucket after a run that completes. *)
Lemma run_done_objects (w w' : World) :
  IS_CREATING w = false ->
  run_build_pipeline w = (Ok tt, w') ->
  (forall k data,
      bucket w !! k = Some data ->
      (forall r, In r (job_rows w) -> file_path r <> k) ->
      bucket w' !! k = Some data)
  /\ (forall r, In r (job_rows w) -> stored_in_archive w w' r).
Proof.
  intros Hidle Hrun.
  destruct (job_rows w) as [|r0 rows0] eqn:Hrows.
  { apply run_build_pipeline_run in Hrun as (_ & delta & _ & Hrun); [|done].
    inversion Hrun; subst; try congruence.
    split; [intros k data Hk _; congruence|intros r []]. }
  rewrite <- Hrows. assert (job_rows w <> []) as Hne by congruence.
  clear r0 rows0 Hrows.
  apply run_done in Hrun as (w1 & Hjob & ->); [|done].
  apply build_job_done in Hjob
    as (m & w2 & w3 & w4 & _ & _ & Hfree & Hb2 & _ & Hmv & Hup & Hb & _);
    [|done].
  pose proof (moves_bucket _ _ _ _ _ Hmv (job_entries_incoming _))
    as (Hkeep & _ & Hmoved).
  apply updates_relocate in Hup as (Hb4 & _).
  unfold stored_in_archive.
  change (bucket (set_IS_CREATING false w1)) with (bucket w1).
  rewrite Hb, Hb4.
  change (bucket (job_start w)) with (bucket w) in *.
  change (job_out_remote (job_start w)) with (job_out_remote w) in *.
  change (job_entries (job_start w)) with (job_entries w) in *.
  change (job_ts (job_start w)) with (job_ts w) in *.
  split.
  - intros k data Hk Hnot. apply Hkeep.
    + rewrite Hb2, lookup_insert_ne; [done|]. congruence.
    + intros e He. unfold job_entries in He.
      apply in_map_iff in He as (r & <- & Hr). simpl. by apply Hnot.
  - intros r Hr.
    destruct (Hmoved (local_entry (job_tmp w) r))
      as (Hgone & k & data & Hk & Hkfree & Hdata & Hk' & Hname).
    { unfold job_entries. by apply in_map. }
    simpl in Hgone, Hdata. split; [done|]. exists k, data.
    rewrite Hb2 in Hkfree, Hdata.
    apply lookup_insert_None in Hkfree as [Hkfree _].
    apply lookup_insert_Some in Hdata as [[Heq _]|[_ Hdata]]; [|done].
    apply pending_incoming in Hr. rewrite <- Heq in Hr.
    by rewrite job_out_remote_not_incoming in Hr.
Qed.

(** X8. A run that completes loses no object.  Every object that was not
    an input of the job is where it was, with the same bytes.  Every
    input has left its name under [incoming/], and its bytes are under a
    name of [archive/] that was free before. *)
Theorem completed_run_keeps_every_object (w w' : World) :
  IS_CREATING w = false ->
  run_build_pipeline w = (Ok tt, w') ->
  (forall k data,
      bucket w !! k = Some data ->
      (forall r, In r (job_rows w) -> file_path r <> k) ->
      bucket w' !! k = Some data)
  /\ (forall r, In r (job_rows w) ->
        bucket w' !! file_path r = None
        /\ exists k data,
            in_archive k = true
            /\ bucket w !! k = None
            /\ bucket w !! file_path r = Some data
            /\ bucket w' !! k = Some data).
Proof.
  intros Hidle Hrun.
  destruct (run_done_objects w w' Hidle Hrun) as [Hkeep Hstored].
  split; [exact Hkeep|]. intros r Hr.
  destruct (Hstored r Hr) as (Hgone & k & data & _ & Harch & Hfree & Hdata & Hk).
  split; [exact Hgone|]. exists k, data. by split_and!.
Qed.

(** X9. A pending row whose object is not in the bucket stops every job:
    the run raises at discovery or at a download (the request for a pending
    object fails, or its local copy cannot be written), and nothing is
    written to the bucket or the table, so the row is still pending for the
    next run. *)
Theorem missing_object_blocks_run (w : World) (r : Row) (res : Result unit)
    (w' : World) :
  IS_CREATING w = false ->
  In r (job_rows w) ->
  bucket w !! file_path r = None ->
  run_build_pipeline w = (res, w') ->
  (res = Raise (ApiError Select)
   \/ exists r', In r' (job_rows w)
                 /\ (res = Raise (ApiError (Download (file_path r')))
                     \/ (open_wb (snd (local_entry (job_tmp w) r')) = false
                         /\ res = Raise (OSError (snd (local_entry (job_tmp w) r'))))))
  /\ bucket w' = bucket w
  /\ files w' = files w
  /\ LAST_RUN w' = LAST_RUN w
  /\ IS_CREATING w' = false.
Proof.
  intros Hidle Hin Hmissing. rewrite run_build_pipeline_idle by done.
  destruct (build_job (job_start w)) as [r1 w1] eqn:Hjob. intros [= <- <-].
  revert Hjob. unfold build_job. rewrite bind_run. unfold sb_list_incoming_files.
  destruct (supabase _ _ _ _ (job_start w)) as [r0 w0] eqn:Hreq.
  apply supabase_run in Hreq as [(_ & _ & -> & ->)|(_ & -> & ->)];
    [|intros [= <- <-]; split_and!; try done; by left].
  change (pending (files (job_start w))) with (job_rows w).
  destruct (job_rows w) as [|r0 rows0] eqn:Hrows; [destruct Hin|].
  rewrite <- Hrows in *. clear r0 rows0 Hrows.
  unfold TmpDir. rewrite bind_run. unfold utcnow at 1, get at 1. cbn beta iota.
  unfold try_finally. rewrite bind_run.
  match goal with |- context [mapM (download_entry ?tmp) ?rows ?w0] =>
    destruct (mapM (download_entry tmp) rows w0) as [r1' w1'] eqn:Hdl end.
  pose proof (downloads_present _ _ _ _ _ Hdl) as Hpresent.
  apply downloads_run in Hdl as (Hb1 & Hf1 & (Hc1 & Hl1 & Hs1) & d1 & _ & Hres1).
  destruct r1' as [entries|e1].
  - destruct (Hpresent (ex_intro _ entries eq_refl) r Hin) as [data Hdata].
    simpl in Hdata. congruence.
  - intros [= <- <-].
    destruct Hres1 as (done_ & r' & Hin' & [(-> & _)|(-> & Hopen & _)]);
      (split_and!; try done); right; exists r'; (split; [exact Hin'|]).
    + by left.
    + right. split; [exact Hopen|reflexivity].
Qed.


(* ===================================================================== *)
(** * Further properties of the montage builder                           *)
(* ===================================================================== *)

(** ** Sampling *)

Lemma sample_time_inside (d : Q) (n i : nat) :
  (0 < d)%Q -> (1 <= i <= n)%nat ->
  (0 < d * inject_Z (Z.of_nat i) / inject_Z (Z.of_nat (n + 1))
   /\ d * inject_Z (Z.of_nat i) / inject_Z (Z.of_nat (n + 1)) < d)%Q.
Proof.
  intros Hd Hi.
  assert (0 < inject_Z (Z.of_nat i))%Q as Hpos
    by (change 0%Q with (inject_Z 0); rewrite <- Zlt_Qlt; lia).
  assert (inject_Z (Z.of_nat i) < inject_Z (Z.of_nat (n + 1)))%Q as Hlt
    by (rewrite <- Zlt_Qlt; lia).
  split.
  - apply Qlt_shift_div_l; nra.
  - apply Qlt_shift_div_r; nra.
Qed.

Lemma sample_time_increasing (d : Q) (den i j : nat) :
  (0 < d)%Q -> (0 < den)%nat -> (i < j)%nat ->
  (d * inject_Z (Z.of_nat i) / inject_Z (Z.of_nat den)
   < d * inject_Z (Z.of_nat j) / inject_Z (Z.of_nat den))%Q.
Proof.
  intros Hd Hden Hij.
  assert (0 < inject_Z (Z.of_nat den))%Q as Hpos
    by (change 0%Q with (inject_Z 0); rewrite <- Zlt_Qlt; lia).
  assert (inject_Z (Z.of_nat i) < inject_Z (Z.of_nat j))%Q as Hlt
    by (rewrite <- Zlt_Qlt; lia).
  unfold Qdiv. apply Qmult_lt_compat_r; [by apply Qinv_lt_0_compat|].
  by apply Qmult_lt_l.
Qed.

(** X10. The frames of a clip of positive duration [d] are sampled at
    [n_frames] instants, all strictly inside [(0, d)] and strictly
    increasing: neither the first nor the last instant of the clip is ever
    asked for, and no instant is asked for twice. *)
Theorem sample_times_inside (d : Q) (n_frames : nat) :
  (0 < d)%Q ->
  length (sample_times d n_frames) = n_frames
  /\ Forall (fun t => (0 < t)%Q /\ (t < d)%Q) (sample_times d n_frames)
  /\ StronglySorted Qlt (sample_times d n_frames).
Proof.
  intros Hd. unfold sample_times. split_and!.
  - by rewrite length_map, length_seq.
  - apply List.Forall_forall. intros t Ht.
    apply in_map_iff in Ht as (i & <- & Hi). apply in_seq in Hi.
    apply sample_time_inside; [done|lia].
  - assert (0 < n_frames + 1)%nat as Hden by lia. revert Hden.
    generalize (n_frames + 1)%nat as den. intros den Hden.
    generalize 1%nat as start. induction n_frames as [|k IH]; intros start; simpl.
    + constructor.
    + constructor; [apply IH|].
      apply List.Forall_forall. intros t Ht.
      apply in_map_iff in Ht as (j & <- & Hj). apply in_seq in Hj.
      apply sample_time_increasing; [done|done|lia].
Qed.

(** ** Embeddings *)

(** X11. A video gets an embedding only if at least one frame is asked
    for, the file opens, it lasts at least [MIN_CLIP_DURATION], and every
    sampled frame can be read and embedded: one failing frame discards the
    whole video. *)
Theorem video_embedding_all_or_nothing (p : string) (n_frames : nat) (t : Tensor) :
  _video_embedding p n_frames = Some t ->
  (0 < n_frames)%nat
  /\ exists w h d,
      probe_video p = Some (w, h, d)
      /\ (MIN_CLIP_DURATION <= d)%Q
      /\ forall time, In time (sample_times d n_frames) ->
           exists frame e,
             get_frame (mkClip p w h (Some d)) time = Some frame
             /\ _image_embedding_from_frame frame = Some e.
Proof.
  unfold _video_embedding, VideoFileClip.
  destruct (probe_video p) as [[[w h] d]|]; [|discriminate]. simpl.
  destruct (Qltb d MIN_CLIP_DURATION) eqn:Hshort; [discriminate|].
  destruct (mapM _ (sample_times d n_frames)) as [[|e embs]|] eqn:Hembs;
    try discriminate.
  intros _. pose proof (length_mapM _ _ _ Hembs) as Hlen.
  apply mapM_Some_1 in Hembs. split.
  - unfold sample_times in Hlen. rewrite length_map, length_seq in Hlen.
    simpl in Hlen. lia.
  - exists w, h, d. split_and!; [done| |].
    + unfold Qltb in Hshort. apply negb_false_iff in Hshort.
      by apply Qle_bool_iff.
    + intros time Hin. apply list_elem_of_In, list_elem_of_lookup in Hin as [i Hi].
      destruct (Forall2_lookup_l _ _ _ _ _ Hembs Hi) as (y & _ & Hy).
      destruct (get_frame _ time) as [frame|]; [|discriminate]. eauto.
Qed.

(** ** Composition *)

Lemma _video_embedding_readable (p : string) (n_frames : nat) :
  is_Some (_video_embedding p n_frames) -> is_Some (VideoFileClip p).
Proof.
  unfold _video_embedding. destruct (VideoFileClip p); [eauto|].
  by intros [? ?].
Qed.

Lemma ordered_videos_readable (videos : list string) (v : Entry) :
  In v (order_videos (embed_videos videos)) -> is_Some (VideoFileClip (path v)).
Proof.
  intros Hin.
  assert (In (path v) (map path (embed_videos videos))) as Hp
    by (apply order_videos_paths; by apply in_map).
  rewrite embed_videos_paths in Hp. apply filter_In in Hp as [_ Hp].
  apply bool_decide_eq_true in Hp. by eapply _video_embedding_readable.
Qed.

Lemma mapM_Result_total {A B : Type} (f : A -> Result B) (l : list A) :
  (forall x, In x l -> exists y, f x = Ok y) -> exists k, mapM f l = Ok k.
Proof.
  induction l as [|x l IH]; intros Hall; [by exists []|].
  destruct (Hall x) as [y Hy]; [by left|].
  destruct IH as [k Hk]; [intros x' Hx'; apply Hall; by right|].
  exists (y :: k). simpl. unfold mbind, Result_bind in *. by rewrite Hy, Hk.
Qed.

Lemma compose_images_first_unreadable (pre post : list string) (im : string) :
  (forall p, In p pre -> is_Some (ImageClip p)) ->
  ImageClip im = None ->
  mapM compose_image (pre ++ im :: post) = Raise (MediaError im).
Proof.
  intros Hpre Hbad. induction pre as [|p pre IH]; simpl.
  - unfold mbind, Result_bind, compose_image. by rewrite Hbad.
  - unfold mbind at 1, Result_bind at 1. unfold compose_image at 1.
    destruct (Hpre p) as [c Hc]; [by left|]. rewrite Hc. simpl.
    unfold mbind at 1, Result_bind at 1.
    rewrite IH; [done|]. intros q Hq. apply Hpre. by right.
Qed.

(** X12. Images are not screened as videos are: when a file with an image
    extension cannot be opened, the build raises for the first such file
    and writes no montage, whatever the other files are.  The files are the
    ones on which the model is the code: ASCII paths, and for every file
    that opens a size that [resize] accepts. *)
Theorem unreadable_image_fails_build (local_paths pre post : list string)
    (im : string) :
  (forall p, In p local_paths -> is_ascii p = true) ->
  (forall p c, In p local_paths -> VideoFileClip p = Some c ->
               resizable c INSTAGRAM_HEIGHT) ->
  (forall p c, In p local_paths -> ImageClip p = Some c ->
               resizable c INSTAGRAM_HEIGHT) ->
  List.filter is_image local_paths = (pre ++ im :: post)%list ->
  (forall p, In p pre -> is_Some (ImageClip p)) ->
  ImageClip im = None ->
  build_montage_for_paths local_paths = Raise (MediaError im).
Proof.
  intros _ _ _ Himages Hpre Hbad.
  unfold build_montage_for_paths. cbv zeta.
  destruct (mapM_Result_total compose_video
              (order_videos (embed_videos (List.filter is_video local_paths))))
    as [vs Hvs].
  { intros v Hv. apply ordered_videos_readable in Hv as [c Hc].
    unfold compose_video. rewrite Hc. simpl. eauto. }
  unfold final_clips. unfold mbind at 1 2, Result_bind at 1 2. rewrite Hvs.
  unfold mbind at 1, Result_bind at 1.
  rewrite Himages, (compose_images_first_unreadable pre post im Hpre Hbad).
  reflexivity.
Qed.

(** The normaliser in closed form. *)
Lemma _resize_crop_9x16_video_closed (c : Clip) :
  _resize_crop_9x16_video c
  = if 1080 <=? clip_w (resize_height c INSTAGRAM_HEIGHT)
    then mkClip (clip_path c) 1080 1920 (clip_duration c)
    else resize_height c INSTAGRAM_HEIGHT.
Proof.
  unfold _resize_crop_9x16_video. change INSTAGRAM_WIDTH with 1080.
  destruct (Z.leb_spec 1080 (clip_w (resize_height c INSTAGRAM_HEIGHT))) as [Hw|Hw];
    [|reflexivity].
  rewrite crop_to_canvas; [reflexivity|exact Hw|simpl; unfold INSTAGRAM_HEIGHT; lia].
Qed.

(** X13. Normalising is idempotent: a clip that has been through
    [_resize_crop_9x16_video] comes out of it unchanged. *)
Theorem normaliser_idempotent (c : Clip) :
  _resize_crop_9x16_video (_resize_crop_9x16_video c) = _resize_crop_9x16_video c.
Proof.
  rewrite (_resize_crop_9x16_video_closed c).
  destruct (Z.leb_spec 1080 (clip_w (resize_height c INSTAGRAM_HEIGHT))) as [Hw|Hw];
    rewrite _resize_crop_9x16_video_closed.
  - reflexivity.
  - assert (resize_height (resize_height c INSTAGRAM_HEIGHT) INSTAGRAM_HEIGHT
            = resize_height c INSTAGRAM_HEIGHT) as ->.
    { unfold resize_height at 1 2. simpl clip_h. simpl clip_path.
      simpl clip_duration. unfold resize_height. simpl. f_equal.
      unfold INSTAGRAM_HEIGHT. apply Z.div_mul. lia. }
    destruct (Z.leb_spec 1080 (clip_w (resize_height c INSTAGRAM_HEIGHT)));
      [lia|reflexivity].
Qed.

(** X14. Every montage that is built has at least one clip, and each of
    its clips is 1920 rows high and at most 1080 columns wide; the clips
    made from image files last three seconds. *)
Theorem montage_clips_on_canvas (local_paths : list string) (m : Montage) :
  build_montage_for_paths local_paths = Ok m ->
  out_clips m <> []
  /\ Forall (fun c => clip_h c = 1920 /\ clip_w c <= 1080
                      /\ (is_image (clip_path c) = true ->
                          clip_duration c = Some 3%Q))
            (out_clips m).
Proof.
  unfold build_montage_for_paths. cbv zeta. unfold mbind at 1, Result_bind at 1.
  destruct (final_clips _ _) as [clips|] eqn:Hclips; [|discriminate].
  destruct clips as [|c0 clips]; [discriminate|].
  destruct (write_videofile _ _); [|discriminate].
  intros [= <-]. simpl out_clips. split; [done|].
  revert Hclips. generalize (c0 :: clips) as all. intros all.
  unfold final_clips, mbind, Result_bind.
  destruct (mapM compose_video _) as [vs|] eqn:Hvs; [|discriminate].
  destruct (mapM compose_image _) as [ims|] eqn:Hims; [|discriminate].
  intros [= <-].
  assert (forall d : Clip,
             clip_h (_resize_crop_9x16_video d) = 1920
             /\ clip_w (_resize_crop_9x16_video d) <= 1080) as Hcanvas.
  { intros d. rewrite _resize_crop_9x16_video_closed.
    destruct (Z.leb_spec 1080 (clip_w (resize_height d INSTAGRAM_HEIGHT)));
      simpl in *; split; (reflexivity || lia). }
  apply Forall_app. split.
  - apply mapM_Result_Ok in Hvs.
    eapply Forall2_Forall_right; [exact Hvs|].
    intros v c Hv Hc.
    assert (is_video (path v) = true) as Hvideo.
    { assert (In (path v) (map path
                (embed_videos (List.filter is_video local_paths)))) as Hp
        by (apply order_videos_paths; by apply in_map).
      rewrite embed_videos_paths in Hp. apply filter_In in Hp as [Hp _].
      by apply filter_In in Hp as [_ Hp]. }
    pose proof (compose_video_path _ _ Hc) as Hpath.
    unfold compose_video in Hc.
    destruct (VideoFileClip (path v)) as [vc|]; [|discriminate].
    simpl in Hc. injection Hc as <-.
    destruct (Hcanvas vc) as [Hh Hw]. split_and!; [done|done|].
    rewrite Hpath. apply video_not_image in Hvideo. congruence.
  - apply mapM_Result_Ok in Hims.
    eapply Forall2_Forall_right; [exact Hims|].
    intros im c _ Hc. unfold compose_image in Hc.
    destruct (ImageClip im) as [ic|]; [|discriminate].
    simpl in Hc. injection Hc as <-.
    change (_resize_crop_9x16_image ic)
      with (_resize_crop_9x16_video (set_duration ic 3)).
    destruct (Hcanvas (set_duration ic 3)) as [Hh Hw]. split_and!; [done|done|].
    intros _. rewrite _resize_crop_9x16_video_closed.
    by destruct (1080 <=? _).
Qed.


(* ===================================================================== *)
(** * The status endpoint                                                 *)
(* ===================================================================== *)

(** What [latest_upload_iso] reads of a row: [x.get("created_at")], which
    is [None] when the key is missing or null. *)
Definition Entry_created_at := option string.

(** [x.get("created_at") or ""], the sort key. *)
Definition created_key (x : Entry_created_at) : string := default "" x.

Fixpoint insert_by_key (x : Entry_created_at) (l : list Entry_created_at)
  : list Entry_created_at :=
  match l with
  | [] => [x]
  | y :: l' =>
      if String.leb (created_key x) (created_key y) then x :: y :: l'
      else y :: insert_by_key x l'
  end.

(** [sorted(rows, key=lambda x: x.get("created_at") or "")]: a stable
    sort, ascending. *)
Definition sorted_by_created_at (rows : list Entry_created_at)
  : list Entry_created_at :=
  foldr insert_by_key [] rows.

(** [latest_upload_iso]: [rows_sorted[-1].get("created_at")]. *)
Definition latest_upload_iso (rows : list Entry_created_at) : option string :=
  match rows with
  | [] => None
  | _ :: _ =>
      match last (sorted_by_created_at rows) with
      | Some x => x
      | None => None
      end
  end.

(** The body of the answer of [GET /api/status]. *)
Record Status := mkStatus {
  is_video_creating : bool;
  status_text : string;
  last_run : option string;
  started_at : option string;
  pending_count : nat;
  last_upload_at : option string
}.

(** [status]; the rows of the answer of the discovery carry their
    [created_at], the column they are ordered by. *)
Definition status : M Status :=
  incoming ← sb_list_incoming_files;
  creating ← get IS_CREATING;
  last_run ← get LAST_RUN;
  started_at ← get STARTED_AT;
  mret (mkStatus creating (if (creating : bool) then "creating" else "idle")
                 last_run started_at (length incoming)
                 (latest_upload_iso (map (fun r => Some (created_at r)) incoming))).

Lemma leb_lt_eq (s1 s2 : string) :
  String.leb s1 s2 = true <-> OrderedTypeEx.String_as_OT.lt s1 s2 \/ s1 = s2.
Proof.
  unfold String.leb.
  pose proof (OrderedTypeEx.String_as_OT.cmp_lt s1 s2) as Hlt.
  pose proof (OrderedTypeEx.String_as_OT.cmp_eq s1 s2) as Heq.
  change (OrderedTypeEx.String_as_OT.cmp s1 s2) with (String.compare s1 s2) in *.
  destruct (String.compare s1 s2); split; intros H; try done.
  - right. by apply Heq.
  - left. by apply Hlt.
  - destruct H as [H|H]; [apply Hlt in H|apply Heq in H]; discriminate.
Qed.

Lemma leb_refl (s : string) : String.leb s s = true.
Proof. apply leb_lt_eq. by right. Qed.

Lemma leb_trans (s1 s2 s3 : string) :
  String.leb s1 s2 = true -> String.leb s2 s3 = true -> String.leb s1 s3 = true.
Proof.
  rewrite !leb_lt_eq. intros [H12| ->] [H23| <-]; auto.
  left. by eapply OrderedTypeEx.String_as_OT.lt_trans.
Qed.

Definition key_le (a b : Entry_created_at) : Prop :=
  String.leb (created_key a) (created_key b) = true.

Lemma insert_by_key_Permutation (x : Entry_created_at) (l : list Entry_created_at) :
  Permutation (insert_by_key x l) (x :: l).
Proof.
  induction l as [|y l IH]; simpl; [done|].
  destruct (String.leb (created_key x) (created_key y)); [done|].
  rewrite IH. apply perm_swap.
Qed.

Lemma sorted_by_created_at_Permutation (l : list Entry_created_at) :
  Permutation (sorted_by_created_at l) l.
Proof.
  unfold sorted_by_created_at. induction l as [|x l IH]; simpl; [done|].
  rewrite insert_by_key_Permutation. by constructor.
Qed.

Lemma insert_by_key_Sorted (x : Entry_created_at) (l : list Entry_created_at) :
  Sorted key_le l -> Sorted key_le (insert_by_key x l).
Proof.
  induction l as [|y l IH]; intros Hs; simpl.
  - by repeat constructor.
  - destruct (String.leb (created_key x) (created_key y)) eqn:Hle.
    + constructor; [done|]. by constructor.
    + apply Sorted_inv in Hs as [Hs Hhd]. constructor; [by apply IH|].
      assert (key_le y x) as Hyx.
      { unfold key_le. destruct (String.leb_total (created_key y) (created_key x));
          congruence. }
      destruct l as [|z l]; simpl.
      * by constructor.
      * destruct (String.leb (created_key x) (created_key z)); constructor; [done|].
        by apply HdRel_inv in Hhd.
Qed.

Lemma sorted_by_created_at_Sorted (l : list Entry_created_at) :
  Sorted key_le (sorted_by_created_at l).
Proof.
  unfold sorted_by_created_at. induction l as [|x l IH]; simpl; [constructor|].
  by apply insert_by_key_Sorted.
Qed.

Lemma sorted_last_max (l : list Entry_created_at) (m : Entry_created_at) :
  Sorted key_le l -> last l = Some m ->
  forall x, In x l -> key_le x m.
Proof.
  intros Hs Hlast.
  assert (StronglySorted key_le l) as Hss.
  { apply Sorted_StronglySorted; [|done].
    intros a b c. unfold key_le. apply leb_trans. }
  clear Hs. induction Hss as [|x l Hss IH Hall]; intros r Hin; [destruct Hin|].
  destruct l as [|y l].
  - injection Hlast as <-. destruct Hin as [<-|[]]. apply leb_refl.
  - rewrite last_cons_cons in Hlast. destruct Hin as [<-|Hin]; [|by apply IH].
    rewrite List.Forall_forall in Hall. apply Hall.
    apply last_Some in Hlast as [l' Hl']. rewrite Hl'.
    apply in_or_app. right. by left.
Qed.

Lemma leb_empty (k : string) : String.leb k "" = true -> k = "".
Proof. by destruct k. Qed.

(** The entry that [latest_upload_iso] returns: one of the rows, with a
    key that no row exceeds. *)
Lemma latest_upload_iso_last (rows : list Entry_created_at) :
  rows <> [] ->
  In (latest_upload_iso rows) rows
  /\ forall x, In x rows -> key_le x (latest_upload_iso rows).
Proof.
  intros Hne.
  pose proof (sorted_by_created_at_Permutation rows) as Hperm.
  pose proof (sorted_by_created_at_Sorted rows) as Hsorted.
  destruct rows as [|r0 rows]; [done|]. unfold latest_upload_iso.
  destruct (last (sorted_by_created_at (r0 :: rows))) as [m|] eqn:Hlast.
  - split.
    + eapply Permutation_in; [exact Hperm|].
      apply last_Some in Hlast as [l' ->]. apply in_or_app. right. by left.
    + intros x Hx. apply (sorted_last_max _ m Hsorted Hlast).
      eapply Permutation_in; [symmetry; exact Hperm|exact Hx].
  - apply last_None in Hlast. rewrite Hlast in Hperm.
    by apply Permutation_nil_l in Hperm.
Qed.

(** X15. [latest_upload_iso] answers [None] for no row.  Otherwise it
    answers the [created_at] entry of one of the rows, whose key
    ([created_at], or the empty string when the entry is missing or null)
    no row exceeds: a time stamp [t] that is the entry of a row and bounds
    every key, or [None] when a row has no entry and no row has a key
    other than the empty string. *)
Theorem latest_upload_iso_greatest (rows : list Entry_created_at) :
  latest_upload_iso [] = None
  /\ match latest_upload_iso rows with
     | Some t =>
         In (Some t) rows
         /\ forall x, In x rows -> String.leb (created_key x) t = true
     | None =>
         rows = []
         \/ (In None rows /\ forall x, In x rows -> created_key x = "")
     end.
Proof.
  split; [reflexivity|].
  destruct rows as [|r0 rows]; [by left|].
  destruct (latest_upload_iso_last (r0 :: rows)) as [Hin Hmax]; [done|].
  destruct (latest_upload_iso (r0 :: rows)) as [t|].
  - split; [exact Hin|]. intros x Hx. exact (Hmax x Hx).
  - right. split; [exact Hin|]. intros x Hx. apply leb_empty. exact (Hmax x Hx).
Qed.

(** X16. [status] sends the discovery request and nothing else, and
    changes neither the bucket, nor the table, nor the globals.  When the
    request fails it raises; otherwise it reports the flag and the two time
    stamps as they are and the number of pending rows; [last_upload_at] is
    [None] when no row is pending, and a time stamp it reports is the
    [created_at] of a pending row that no pending row exceeds. *)
Theorem status_reports (w : World) (res : Result Status) (w' : World) :
  status w = (res, w') ->
  bucket w' = bucket w /\ files w' = files w /\ same_globals w w'
  /\ ((res = Raise (ApiError Select)
       /\ journal w' = (journal w ++ [(Select, false)])%list)
      \/ exists s,
          res = Ok s
          /\ journal w' = (journal w ++ [(Select, true)])%list
          /\ is_video_creating s = IS_CREATING w
          /\ (status_text s = "creating" <-> IS_CREATING w = true)
          /\ (status_text s = "idle" <-> IS_CREATING w = false)
          /\ last_run s = LAST_RUN w
          /\ started_at s = STARTED_AT w
          /\ pending_count s = length (pending (files w))
          /\ (pending (files w) = [] -> last_upload_at s = None)
          /\ (forall t, last_upload_at s = Some t ->
                 (exists r, In r (pending (files w)) /\ created_at r = t)
                 /\ forall r, In r (pending (files w)) ->
                              String.leb (created_at r) t = true)).
Proof.
  unfold status. rewrite bind_run. unfold sb_list_incoming_files.
  destruct (supabase _ _ _ _ w) as [r0 w0] eqn:Hreq.
  apply supabase_run in Hreq as [(_ & _ & -> & ->)|(_ & -> & ->)].
  - rewrite !bind_run. unfold get, mret, M_ret. cbn beta iota.
    intros [= <- <-]. split_and!; try done. right. eexists. split; [reflexivity|].
    simpl. split_and!; try done.
    + by destruct (IS_CREATING w).
    + by destruct (IS_CREATING w).
    + by intros ->.
    + intros t Ht.
      destruct (pending (files w)) as [|r0 rows] eqn:Hrows; [discriminate|].
      rewrite <- Hrows in *.
      destruct (latest_upload_iso_last
                  (map (fun r => Some (created_at r)) (pending (files w))))
        as [Hin Hmax]; [rewrite Hrows; discriminate|].
      rewrite Ht in Hin, Hmax. split.
      * apply in_map_iff in Hin as (r & [= Hr] & Hin). eauto.
      * intros r Hr. apply (Hmax (Some (created_at r))).
        apply in_map_iff. eauto.
  - intros [= <- <-]. split_and!; try done. by left.
Qed.


(* ===================================================================== *)
(** * The bearer check of the trigger endpoint                            *)
(* ===================================================================== *)

(** [str.isspace] on the characters of a header value (code points below
    256): tab to carriage return, the four separators, the space, NEL and
    the no-break space. *)
Definition is_space (c : ascii) : bool :=
  let n := nat_of_ascii c in
  ((9 <=? n) && (n <=? 13) || (28 <=? n) && (n <=? 32)
   || (n =? 133) || (n =? 160))%nat.

Fixpoint lstrip (l : list ascii) : list ascii :=
  match l with
  | c :: l' => if is_space c then lstrip l' else l
  | [] => []
  end.

(** [s.strip()] *)
Definition strip (s : string) : string :=
  str (rev (lstrip (rev (lstrip (chars s))))).

(** [s.startswith(prefix)] *)
Definition startswith (s pre : string) : bool := String.prefix pre s.

(** Index of the first occurrence of [c] ([str.find], [None] for -1). *)
Fixpoint find (c : ascii) (l : list ascii) : option nat :=
  match l with
  | [] => None
  | x :: l' => if bool_decide (x = c) then Some 0%nat else S <$> find c l'
  end.

(** [s.split(sep, 1)] for a separator of one character: one or two
    pieces. *)
Definition split_once (sep : ascii) (s : string) : list string :=
  let l := chars s in
  match find sep l with
  | Some i => [str (take i l); str (drop (S i) l)]
  | None => [s]
  end.

(** How the check of [run] ends: the request goes on, the 401 answer, or
    an [IndexError] out of [auth.split(" ", 1)[1]]. *)
Inductive Auth := Passed | Unauthorized | IndexError.

(** The bearer check of [run], for the value [API_BEARER] of the
    environment and the [authorization] header of the request. *)
Definition bearer_check (API_BEARER : string) (header : option string) : Auth :=
  if bool_decide (API_BEARER = "") then Passed
  else
    let auth := match header with Some h => h | None => "" end in
    if negb (startswith (lower auth) "bearer ") then Unauthorized
    else
      match split_once " " auth !! 1%nat with
      | None => IndexError
      | Some token =>
          if bool_decide (strip token = API_BEARER) then Passed else Unauthorized
      end.

Lemma lower_ascii_space (c : ascii) : lower_ascii c = " "%char -> c = " "%char.
Proof.
  destruct c as [[] [] [] [] [] [] [] []]; vm_compute; intros H;
    first [reflexivity | discriminate H].
Qed.

Lemma lower_app (a b : string) : lower (a ++ b) = lower a ++ lower b.
Proof. unfold lower. by rewrite chars_app, map_app, str_app. Qed.

Lemma find_first (c : ascii) (pre rest : list ascii) :
  ~ In c pre -> find c (pre ++ c :: rest) = Some (length pre).
Proof.
  induction pre as [|x pre IH]; intros Hnot; simpl.
  - by rewrite bool_decide_eq_true_2.
  - rewrite bool_decide_eq_false_2 by (intros ->; apply Hnot; by left).
    rewrite IH; [done|]. intros Hin. apply Hnot. by right.
Qed.

Lemma split_once_first (sep : ascii) (a b : string) :
  ~ In sep (chars a) -> split_once sep (a ++ String sep b) = [a; b].
Proof.
  intros Hnot. unfold split_once. cbv zeta. rewrite chars_app.
  change (chars (String sep b)) with (sep :: chars b).
  rewrite find_first by done.
  rewrite take_app_length.
  change (S (length (chars a))) with (1 + length (chars a))%nat.
  rewrite Nat.add_comm, <- drop_drop, drop_app_length. simpl.
  by rewrite drop_0, !str_chars.
Qed.

(** The scheme of a header that passes the first test. *)
Lemma bearer_scheme (auth : string) :
  startswith (lower auth) "bearer " = true
  <-> exists scheme token,
        auth = scheme ++ " " ++ token /\ lower scheme = "bearer".
Proof.
  unfold startswith. rewrite prefix_chars. split.
  - intros [rest Hrest]. unfold lower in Hrest. rewrite chars_str in Hrest.
    destruct (chars auth) as [|c1 [|c2 [|c3 [|c4 [|c5 [|c6 [|c7 tl]]]]]]] eqn:Hauth;
      try discriminate.
    injection Hrest as H1 H2 H3 H4 H5 H6 H7 _.
    apply lower_ascii_space in H7 as ->.
    exists (str [c1; c2; c3; c4; c5; c6]), (str tl). split.
    + rewrite <- (str_chars auth), Hauth.
      change (c1 :: c2 :: c3 :: c4 :: c5 :: c6 :: " "%char :: tl)
        with ([c1; c2; c3; c4; c5; c6] ++ " "%char :: tl)%list.
      by rewrite str_app.
    + unfold lower. rewrite chars_str. simpl. by rewrite H1, H2, H3, H4, H5, H6.
  - intros (scheme & token & -> & Hscheme).
    rewrite !lower_app, Hscheme. exists (chars (lower token)).
    by rewrite !chars_app.
Qed.

Lemma bearer_scheme_no_space (scheme : string) :
  lower scheme = "bearer" -> ~ In " "%char (chars scheme).
Proof.
  intros Hscheme Hin. apply (in_map lower_ascii) in Hin.
  change (In " "%char (map lower_ascii (chars scheme))) in Hin.
  rewrite <- (chars_str (map lower_ascii (chars scheme))) in Hin.
  fold (lower scheme) in Hin. rewrite Hscheme in Hin.
  simpl in Hin. repeat (destruct Hin as [Hin|Hin]; [discriminate|]). destruct Hin.
Qed.

(** X17. The bearer check never fails with an [IndexError]: the header is
    split only after its prefix has been tested, and then it has a
    space.  Without a configured secret every request passes, whatever its
    header. *)
Theorem bearer_check_total (API_BEARER : string) (header : option string) :
  bearer_check API_BEARER header <> IndexError
  /\ bearer_check "" header = Passed.
Proof.
  split; [|done]. unfold bearer_check.
  case_bool_decide; [done|]. cbv zeta.
  destruct (startswith _ _) eqn:Hstart; [|done]. simpl.
  apply bearer_scheme in Hstart as (scheme & token & -> & Hscheme).
  change (scheme ++ " " ++ token) with (scheme ++ String " " token).
  rewrite split_once_first by (by apply bearer_scheme_no_space). simpl.
  by case_bool_decide.
Qed.

(** X18. With a configured secret, a request passes the check exactly
    when it has an [authorization] header made of the word [bearer] in any
    letter case, one space, and a token that is the secret once the white
    space around it is stripped.  A request without the header is
    refused. *)
Theorem bearer_check_passes (API_BEARER : string) (header : option string) :
  API_BEARER <> "" ->
  (bearer_check API_BEARER header = Passed
   <-> exists scheme token,
         header = Some (scheme ++ " " ++ token)
         /\ lower scheme = "bearer"
         /\ strip token = API_BEARER)
  /\ bearer_check API_BEARER None = Unauthorized.
Proof.
  intros Hset. split; [|unfold bearer_check; by rewrite bool_decide_eq_false_2].
  unfold bearer_check. rewrite bool_decide_eq_false_2 by done. cbv zeta.
  split.
  - destruct (startswith _ _) eqn:Hstart; [|done]. simpl.
    apply bearer_scheme in Hstart as (scheme & token & Hauth & Hscheme).
    rewrite Hauth.
    change (scheme ++ " " ++ token) with (scheme ++ String " " token).
    rewrite split_once_first by (by apply bearer_scheme_no_space). simpl.
    case_bool_decide; [|done]. intros _. exists scheme, token.
    destruct header as [h|]; [by subst|].
    destruct scheme; discriminate.
  - intros (scheme & token & -> & Hscheme & Htoken).
    assert (startswith (lower (scheme ++ " " ++ token)) "bearer " = true) as ->
      by (apply bearer_scheme; eauto).
    simpl negb. cbv iota.
    change (scheme ++ " " ++ token) with (scheme ++ String " " token).
    rewrite split_once_first by (by apply bearer_scheme_no_space). simpl.
    by rewrite bool_decide_eq_true_2.
Qed.


(* ===================================================================== *)
(** * The lock is always released                                         *)
(* ===================================================================== *)

Lemma count_pos {A : Type} (P : A -> bool) (l : list A) :
  (0 < count P l)%nat -> exists i a, l !! i = Some a /\ P a = true.
Proof.
  unfold count. induction l as [|x l IH]; simpl; [lia|].
  destruct (P x) eqn:Hx.
  - intros _. by exists 0%nat, x.
  - intros Hpos. destruct (IH Hpos) as (i & a & Hi & Ha). by exists (S i), a.
Qed.

Lemma set_worker_lookup (i : nat) (pc pc' : WorkerPc) (c : Config) :
  workers c !! i = Some pc -> workers (set_worker i pc' c) !! i = Some pc'.
Proof.
  intros Hi. simpl. apply list_lookup_insert_eq. by eapply lookup_lt_Some.
Qed.

Lemma unlock_step (i : nat) (c : Config) (started : bool) :
  workers c !! i = Some (AtUnlock started) -> RUN_LOCK (worker_step i c) = false.
Proof. intros Hi. unfold worker_step. by rewrite Hi. Qed.

Lemma stamp_step (i : nat) (c : Config) :
  workers c !! i = Some InLockStamp ->
  workers (worker_step i c) !! i = Some (AtUnlock true).
Proof.
  intros Hi. unfold worker_step. rewrite Hi.
  by apply (set_worker_lookup i InLockStamp).
Qed.

Lemma set_step (i : nat) (c : Config) :
  workers c !! i = Some InLockSet ->
  workers (worker_step i c) !! i = Some InLockStamp.
Proof.
  intros Hi. unfold worker_step. rewrite Hi.
  by apply (set_worker_lookup i InLockSet).
Qed.

Lemma test_step (i : nat) (c : Config) :
  workers c !! i = Some InLockTest ->
  workers (worker_step i c) !! i
  = Some (if IS_CREATING (world c) then AtUnlock false else InLockSet).
Proof.
  intros Hi. unfold worker_step. rewrite Hi.
  by apply (set_worker_lookup i InLockTest).
Qed.

Lemma released_from (i : nat) (c : Config) (pc : WorkerPc) :
  workers c !! i = Some pc ->
  at_set pc || in_lock_other pc = true ->
  exists n, (1 <= n <= 4)%nat
            /\ RUN_LOCK (run_schedule (repeat (Worker i) n) c) = false.
Proof.
  intros Hi Hin. destruct pc as [| | | | |started| | |]; try discriminate.
  - pose proof (test_step i c Hi) as Hnext.
    destruct (IS_CREATING (world c)).
    + exists 2%nat. split; [lia|]. simpl. by eapply unlock_step.
    + exists 4%nat. split; [lia|]. simpl.
      eapply unlock_step. by apply stamp_step, set_step.
  - exists 3%nat. split; [lia|]. simpl.
    eapply unlock_step. by apply stamp_step, set_step.
  - exists 2%nat. split; [lia|]. simpl. eapply unlock_step. by apply stamp_step.
  - exists 1%nat. split; [lia|]. simpl. by eapply unlock_step.
Qed.

(** X19. The lock cannot stay held.  From start-up, whatever the
    interleaving, when [RUN_LOCK] is held one worker is inside the [with]
    block, and at most four steps of that worker, which wait for nothing,
    release the lock. *)
Theorem lock_always_released (w0 : World) (sched : list Sched) :
  IS_CREATING w0 = false ->
  let c := run_schedule sched (init w0) in
  RUN_LOCK c = true ->
  exists i pc n,
    workers c !! i = Some pc
    /\ at_set pc || in_lock_other pc = true
    /\ (1 <= n <= 4)%nat
    /\ RUN_LOCK (run_schedule (repeat (Worker i) n) c) = false.
Proof.
  intros Hidle c Hheld.
  assert (Inv c) as (Hlock & _ & _) by (apply run_schedule_Inv; by apply init_Inv).
  rewrite Hheld in Hlock. simpl in Hlock.
  assert (exists i pc, workers c !! i = Some pc
                       /\ at_set pc || in_lock_other pc = true)
    as (i & pc & Hi & Hpc).
  { destruct (count at_set (workers c)) as [|k] eqn:Hset.
    - destruct (count_pos in_lock_other (workers c)) as (i & pc & Hi & Hpc); [lia|].
      exists i, pc. split; [done|]. rewrite Hpc. apply orb_true_r.
    - destruct (count_pos at_set (workers c)) as (i & pc & Hi & Hpc); [lia|].
      exists i, pc. split; [done|]. by rewrite Hpc. }
  destruct (released_from i c pc Hi Hpc) as (n & Hn & Hfree).
  by exists i, pc, n.
Qed.


(** X20. No artifact is ever replaced.  When the name the job derives for
    its montage is already taken in the bucket, a run that has pending rows
    raises, at the upload at the latest, and changes neither the bucket
    nor the table. *)
Theorem taken_output_name_blocks_run (w : World) (res : Result unit) (w' : World) :
  IS_CREATING w = false ->
  job_rows w <> [] ->
  is_Some (bucket w !! job_out_remote w) ->
  run_build_pipeline w = (res, w') ->
  (exists e, res = Raise e)
  /\ bucket w' = bucket w
  /\ files w' = files w
  /\ LAST_RUN w' = LAST_RUN w
  /\ IS_CREATING w' = false.
Proof.
  intros Hidle Hne Htaken. rewrite run_build_pipeline_idle by done.
  destruct (build_job (job_start w)) as [r1 w1] eqn:Hjob. intros [= <- <-].
  revert Hjob. unfold build_job. rewrite bind_run. unfold sb_list_incoming_files.
  destruct (supabase _ _ _ _ (job_start w)) as [r0 w0] eqn:Hreq.
  apply supabase_run in Hreq as [(_ & _ & -> & ->)|(_ & -> & ->)];
    [|intros [= <- <-]; split_and!; try done; eauto].
  change (pending (files (job_start w))) with (job_rows w).
  destruct (job_rows w) as [|r0 rows0] eqn:Hrows; [done|].
  rewrite <- Hrows in *. clear r0 rows0 Hrows.
  unfold TmpDir. rewrite bind_run. unfold utcnow at 1, get at 1. cbn beta iota.
  unfold try_finally.
  change (clock (logged Select true (job_start w))) with (clock w + 1).
  fold (job_tmp w). rewrite bind_run.
  destruct (mapM (download_entry (job_tmp w)) (job_rows w)
                 (logged Select true (job_start w))) as [r1' w1'] eqn:Hdl.
  apply downloads_run in Hdl as (Hb1 & Hf1 & (Hc1 & Hl1 & Hs1) & d1 & _ & Hres1).
  simpl in Hb1, Hf1, Hc1, Hl1, Hs1.
  destruct r1' as [entries|e1];
    [|intros [= <- <-]; split_and!; try done; eauto].
  destruct Hres1 as (-> & _ & Hclock). simpl in Hclock.
  fold (job_entries w).
  rewrite bind_run. unfold lift at 1. fold (job_local_paths w).
  destruct (build_montage_for_paths (job_local_paths w)) as [m|e] eqn:Hbuild;
    [|intros [= <- <-]; split_and!; try done; eauto].
  rewrite bind_run. unfold utcnow at 1, get at 1. cbn beta iota.
  rewrite Hclock. fold (job_ts w). fold (job_out_name w). fold (job_out_remote w).
  rewrite bind_run. unfold sb_storage_upload_from.
  destruct (supabase _ _ _ _ w1') as [r2 w2] eqn:Hreq.
  apply supabase_run in Hreq as [(_ & Hfree & -> & ->)|(_ & -> & ->)].
  - apply bool_decide_eq_true in Hfree. rewrite Hb1 in Hfree.
    destruct Htaken as [data Hdata]. congruence.
  - intros [= <- <-]. split_and!; try done. eauto.
Qed.


(** ** The catalog after a completed job *)

Lemma NoDup_map_In_inj {A B : Type} (f : A -> B) (l : list A) (a b : A) :
  List.NoDup (map f l) -> In a l -> In b l -> f a = f b -> a = b.
Proof.
  induction l as [|x l IH]; intros Hnodup Ha Hb Hab; [destruct Ha|].
  simpl in Hnodup. apply NoDup_cons_iff in Hnodup as [Hx Hnodup].
  destruct Ha as [->|Ha], Hb as [->|Hb]; auto.
  - exfalso. apply Hx. rewrite Hab. by apply in_map.
  - exfalso. apply Hx. rewrite <- Hab. by apply in_map.
Qed.

Lemma NoDup_map_filter {A B : Type} (f : A -> B) (P : A -> bool) (l : list A) :
  List.NoDup (map f l) -> List.NoDup (map f (List.filter P l)).
Proof.
  induction l as [|x l IH]; intros Hnodup; [done|].
  simpl in Hnodup. apply NoDup_cons_iff in Hnodup as [Hx Hnodup]. simpl.
  destruct (P x); [|by apply IH].
  simpl. apply NoDup_cons_iff. split; [|by apply IH].
  intros Hin. apply Hx. apply in_map_iff in Hin as (y & Hy & Hin).
  apply filter_In in Hin as [Hin _]. rewrite <- Hy. by apply in_map.
Qed.

Lemma pending_NoDup (fs : list Row) :
  List.NoDup (map row_id fs) -> List.NoDup (map row_id (pending fs)).
Proof.
  intros Hnodup. eapply Permutation_NoDup.
  - apply Permutation_map. symmetry. apply order_by_created_at_Permutation.
  - by apply NoDup_map_filter.
Qed.

Lemma Forall2_impl_In {A B : Type} (R R' : A -> B -> Prop) (l : list A) (k : list B) :
  Forall2 R l k -> (forall x y, In x l -> R x y -> R' x y) -> Forall2 R' l k.
Proof.
  induction 1 as [|x y l k Hxy _ IH]; intros Himpl; constructor.
  - apply Himpl; [by left|done].
  - apply IH. intros x' y' Hin. apply Himpl. by right.
Qed.

(** The table after a run that completes, where ids identify rows: the
    rows as the catalog loop left them in [w4], then the row of the
    montage. *)
Lemma run_done_rows (w w' : World) :
  IS_CREATING w = false ->
  run_build_pipeline w = (Ok tt, w') ->
  job_rows w <> [] ->
  List.NoDup (map row_id (files w)) ->
  exists m w4,
    files w' = (files w4 ++ [output_row (job_start w) w4 m])%list
    /\ Forall2 (fun old new =>
                  if is_pending old
                  then file_path new
                       = "archive/" ++ basename (file_path old) ++ "." ++ job_ts w
                       /\ is_Some (updated_at new)
                       /\ same_but_location old new
                  else new = old)
               (files w) (files w4).
Proof.
  intros Hidle Hrun Hne Hnodup.
  apply run_done in Hrun as (w1 & Hjob & ->); [|done].
  apply build_job_done in Hjob
    as (m & w2 & w3 & w4 & _ & _ & _ & _ & Hf2 & Hmv & Hup & _ & Hfiles); [|done].
  exists m, w4. split; [exact Hfiles|].
  apply moves_run in Hmv as (Hf3 & _).
  change (job_rows (job_start w)) with (job_rows w) in Hup.
  change (job_entries (job_start w)) with (job_entries w) in Hup.
  change (job_ts (job_start w)) with (job_ts w) in Hup.
  assert (zip (job_rows w) (map (archive_dest (job_ts w)) (job_entries w))
          = map (fun r => (r, archive_dest (job_ts w) (local_entry (job_tmp w) r)))
                (job_rows w)) as Hzip.
  { unfold job_entries. by rewrite map_map, zip_with_image. }
  pose proof (updates_relocate _ _ _ _ _ Hup) as (_ & Hrel & _).
  assert (Forall2 (relocated_to
                     (zip (job_rows w) (map (archive_dest (job_ts w)) (job_entries w))))
                  (files w3) (files w4)) as Hexact.
  { apply update_all_exact; [exact Hup|].
    rewrite Hzip, map_map. simpl. by apply pending_NoDup. }
  pose proof (Forall2_conj _ _ _ _ Hrel Hexact) as Hboth.
  rewrite Hf3, Hf2 in Hboth. change (files (job_start w)) with (files w) in Hboth.
  eapply Forall2_impl_In; [exact Hboth|]. clear Hboth Hrel Hexact.
  rewrite Hzip. intros old new Hold [(Hsame & Hkeep & _) Hto].
  destruct (is_pending old) eqn:Hp.
  - assert (In old (job_rows w)) as Hin by (by apply pending_In).
    destruct (Hto old (archive_dest (job_ts w) (local_entry (job_tmp w) old)))
      as [Hpath Hstamp]; [|done|].
    { apply in_map_iff. eauto. }
    split_and!; done.
  - apply Hkeep. rewrite map_map. simpl. intros Hin.
    apply in_map_iff in Hin as (r & Hid & Hr).
    assert (r = old) as ->.
    { apply (NoDup_map_In_inj row_id (files w)); [done| |done|done].
      by apply pending_In in Hr as [? _]. }
    apply pending_In in Hr as [_ Hr]. congruence.
Qed.

(** The row [r] has been relocated between [w] and [w']: the table holds
    it with the archive path of the row in [file_path], a time stamp in
    [updated_at] and its other columns unchanged. *)
Definition row_relocated (w w' : World) (r : Row) : Prop :=
  exists new,
    In new (files w')
    /\ same_but_location r new
    /\ file_path new = archive_path w r
    /\ is_Some (updated_at new).

Lemma run_done_row (w w' : World) (r : Row) :
  IS_CREATING w = false ->
  run_build_pipeline w = (Ok tt, w') ->
  In r (job_rows w) ->
  List.NoDup (map row_id (files w)) ->
  row_relocated w w' r.
Proof.
  intros Hidle Hrun Hr Hnodup.
  destruct (run_done_rows w w' Hidle Hrun) as (m & w4 & Hfiles & Hrel);
    [by intros Hnil; rewrite Hnil in Hr|done|].
  apply pending_In in Hr as [Hin Hp].
  apply list_elem_of_In, list_elem_of_lookup in Hin as [i Hi].
  destruct (Forall2_lookup_l _ _ _ _ _ Hrel Hi) as (new & Hnew & Hnewr).
  rewrite Hp in Hnewr. destruct Hnewr as (Hpath & Hstamp & Hsame).
  exists new. split_and!; try done.
  rewrite Hfiles. apply in_or_app. left.
  apply list_elem_of_In, list_elem_of_lookup. eauto.
Qed.

(** X21. Where ids identify rows, a run that completes for pending rows
    leaves the table as follows: every row that was pending has the path
    [archive/<basename>.<ts>], a time stamp in [updated_at] and its other
    columns unchanged; every other row is unchanged; the row of the
    montage comes last. *)
Theorem completed_run_relocates_rows (w w' : World) :
  IS_CREATING w = false ->
  run_build_pipeline w = (Ok tt, w') ->
  job_rows w <> [] ->
  List.NoDup (map row_id (files w)) ->
  exists olds out,
    files w' = (olds ++ [out])%list
    /\ file_path out = job_out_remote w
    /\ Forall2 (fun old new =>
                  if is_pending old
                  then file_path new
                       = "archive/" ++ basename (file_path old) ++ "." ++ job_ts w
                       /\ is_Some (updated_at new)
                       /\ same_but_location old new
                  else new = old)
               (files w) olds.
Proof.
  intros Hidle Hrun Hne Hnodup.
  destruct (run_done_rows w w' Hidle Hrun Hne Hnodup) as (m & w4 & Hfiles & Hrel).
  exists (files w4), (output_row (job_start w) w4 m).
  split; [exact Hfiles|]. split; [reflexivity|exact Hrel].
Qed.

(* ===================================================================== *)
(** * Runs that fail while archiving or recording                         *)
(* ===================================================================== *)

(** What [build_job] does once the montage is uploaded. *)
Definition job_tail (w : World) (m : Montage) : M unit :=
  archived_paths ← mapM (archive_entry (job_ts w)) (job_entries w);
  _ ← sb_update_file_paths (job_rows w) archived_paths;
  _ ← sb_insert_output_row (job_out_name w) (job_out_remote w)
        (Z.of_nat (String.length (out_bytes m))) "video/mp4";
  stamp ← now_iso;
  modify (set_LAST_RUN (Some stamp)).

(** A job with pending rows either stops before it has written anything,
    or uploads the montage and goes on with [job_tail]. *)
Lemma build_job_tail (w : World) (res : Result unit) (w' : World) :
  build_job w = (res, w') -> job_rows w <> [] ->
  (exists e, res = Raise e
             /\ (forall a b, e <> ApiError (Move a b))
             /\ (forall a b, e <> ApiError (Update a b))
             /\ (forall a b, e <> ApiError (Insert a b))
             /\ bucket w' = bucket w /\ files w' = files w)
  \/ exists m w2,
      build_montage_for_paths (job_local_paths w) = Ok m
      /\ bucket w !! job_out_remote w = None
      /\ bucket w2 = <[job_out_remote w := out_bytes m]> (bucket w)
      /\ files w2 = files w
      /\ LAST_RUN w2 = LAST_RUN w
      /\ job_tail w m w2 = (res, w').
Proof.
  unfold build_job. rewrite bind_run. unfold sb_list_incoming_files.
  destruct (supabase _ _ _ _ w) as [r0 w0] eqn:Hreq.
  apply supabase_run in Hreq as [(_ & _ & -> & ->)|(_ & -> & ->)];
    [|intros [= <- <-] _; left; eexists; by split_and!].
  fold (job_rows w). intros Hrun Hne. revert Hrun.
  destruct (job_rows w) as [|r0 rows0] eqn:Hrows; [done|].
  rewrite <- Hrows. clear r0 rows0 Hrows Hne.
  unfold TmpDir. rewrite bind_run. unfold utcnow at 1, get at 1. cbn beta iota.
  unfold try_finally.
  change (clock (logged Select true w)) with (clock w + 1). fold (job_tmp w).
  rewrite bind_run.
  destruct (mapM (download_entry (job_tmp w)) (job_rows w) (logged Select true w))
    as [r1 w1] eqn:Hdl.
  apply downloads_run in Hdl as (Hb1 & Hf1 & (_ & Hl1 & _) & d1 & _ & Hres1).
  simpl in Hb1, Hf1, Hl1.
  destruct r1 as [entries|e1].
  2:{ intros [= <- <-]. destruct Hres1 as (done_ & r & _ & [(-> & _)|(-> & _)]);
        left; eexists; by split_and!. }
  destruct Hres1 as (-> & _ & Hclock). simpl in Hclock.
  fold (job_entries w).
  rewrite bind_run. unfold lift at 1. fold (job_local_paths w).
  destruct (build_montage_for_paths (job_local_paths w)) as [m|e] eqn:Hbuild.
  2:{ intros [= <- <-]. left. exists e.
      apply build_montage_error in Hbuild as [[p ->]| ->]; by split_and!. }
  rewrite bind_run. unfold utcnow at 1, get at 1. cbn beta iota.
  rewrite Hclock. fold (job_ts w). fold (job_out_name w). fold (job_out_remote w).
  rewrite bind_run. unfold sb_storage_upload_from.
  destruct (supabase _ _ _ _ w1) as [r2 w2] eqn:Hreq.
  apply supabase_run in Hreq as [(_ & Hfree & -> & ->)|(_ & -> & ->)].
  2:{ intros [= <- <-]. left. eexists. by split_and!. }
  apply bool_decide_eq_true in Hfree. rewrite Hb1 in Hfree.
  assert (map fst (job_entries w) = job_rows w) as Hfst.
  { unfold job_entries. rewrite map_map. apply map_id. }
  intros Hrun. right.
  exists m, (logged (Upload (job_out_remote w)) true
               (set_bucket (<[job_out_remote w:=out_bytes m]> (bucket w1)) w1)).
  split_and!; [done|exact Hfree|by simpl; rewrite Hb1|exact Hf1|exact Hl1|].
  unfold job_tail. rewrite <- Hrun. clear Hrun.
  rewrite !bind_run.
  match goal with |- context [mapM (archive_entry ?ts) ?es ?w2] =>
    destruct (mapM (archive_entry ts) es w2) as [[dests|e3] w3] eqn:Hmv end;
    [|reflexivity].
  rewrite !bind_run, Hfst.
  destruct (sb_update_file_paths _ _ w3) as [[[]|e4] w4]; [|reflexivity].
  match goal with |- _ = (let '(_, _) := ?run in _) =>
    destruct run as [r5 w5] end.
  reflexivity.
Qed.

Lemma update_all_cons_run (row : Row) (newp : string) (pairs : list (Row * string))
    (w : World) (res : Result unit) (w' : World) :
  update_all ((row, newp) :: pairs) w = (res, w') ->
  (res = Raise (ApiError (Update (row_id row) newp))
   /\ w' = logged (Update (row_id row) newp) false w)
  \/ exists stamp,
      update_all pairs
        (logged (Update (row_id row) newp) true
           (set_files (map (update_row (row_id row) newp stamp) (files w)) w))
      = (res, w').
Proof.
  unfold update_all. simpl for_. rewrite !bind_run. unfold now_iso, utcnow, get.
  rewrite bind_run. unfold mret, M_ret. cbn beta iota.
  destruct (supabase _ _ _ _ w) as [r1 w1] eqn:Hreq.
  apply supabase_run in Hreq as [(_ & _ & -> & ->)|(_ & -> & ->)].
  - intros Hrest. right. eexists. exact Hrest.
  - intros [= <- <-]. by left.
Qed.

(** A catalog loop that fails has applied the updates before the failing
    one, and no other. *)
Lemma update_all_failed (pairs : list (Row * string)) (w : World) (a : Z) (b : string)
    (w' : World) :
  update_all pairs w = (Raise (ApiError (Update a b)), w') ->
  exists pre row post,
    pairs = (pre ++ (row, b) :: post)%list
    /\ row_id row = a
    /\ bucket w' = bucket w
    /\ Forall2 (relocated pre True) (files w) (files w').
Proof.
  revert w. induction pairs as [|[row newp] pairs IH]; intros w Hrun;
    [discriminate|].
  apply update_all_cons_run in Hrun as [[[= -> ->] ->]|[stamp Hrest]].
  - exists [], row, pairs. split_and!; try done.
    apply Forall_Forall2_diag, Forall_true. intros r.
    split_and!; [apply same_but_location_refl|done|intros _ []].
  - apply IH in Hrest as (pre & row' & post & -> & Hid & Hb & Hrel).
    exists ((row, newp) :: pre), row', post. split_and!; try done.
    simpl in Hrel. apply Forall2_map_left in Hrel.
    eapply Forall2_impl; [exact Hrel|]. intros old new. apply relocated_step.
Qed.

Lemma relocated_not_pending (w : World) (done_ : Prop) (old new : Row) :
  done_ ->
  relocated (zip (job_rows w) (map (archive_dest (job_ts w)) (job_entries w)))
            done_ old new ->
  In old (files w) ->
  is_pending new = false.
Proof.
  intros Hdone (_ & Hkeep & Hnew) Hold.
  unfold job_entries in Hkeep, Hnew.
  rewrite map_map, zip_with_image, !map_map in Hkeep, Hnew. simpl in Hkeep, Hnew.
  destruct (in_dec Z.eq_dec (row_id old) (map row_id (job_rows w))) as [Hin|Hnot].
  - apply Hnew in Hin; [|done]. apply in_map_iff in Hin as ([r d] & Hr & Hin).
    apply in_map_iff in Hin as (x & [= <- <-] & _). simpl in Hr.
    unfold is_pending. apply andb_false_iff. left.
    destruct (String.prefix "incoming/" (file_path new)) eqn:Hp; [|done].
    apply incoming_not_archive in Hp. rewrite <- Hr in Hp.
    by rewrite archive_dest_in_archive in Hp.
  - rewrite (Hkeep Hnot). destruct (is_pending old) eqn:Hp; [|done].
    exfalso. apply Hnot. apply in_map. apply pending_In. done.
Qed.

(** X23. A run that fails at the insertion of the output row leaves the
    montage stored and uncatalogued: its bytes are in the bucket under the
    output name, the table has no new row, [LAST_RUN] is unchanged, and no
    row is pending any more, so no later run will record the montage. *)
Theorem insert_failure_orphans_montage (w : World) (name out : string) (w' : World) :
  IS_CREATING w = false ->
  run_build_pipeline w = (Raise (ApiError (Insert name out)), w') ->
  exists m,
    build_montage_for_paths (job_local_paths w) = Ok m
    /\ out = job_out_remote w
    /\ bucket w !! out = None
    /\ bucket w' !! out = Some (out_bytes m)
    /\ length (files w') = length (files w)
    /\ pending (files w') = []
    /\ LAST_RUN w' = LAST_RUN w
    /\ IS_CREATING w' = false.
Proof.
  intros Hidle. rewrite run_build_pipeline_idle by done.
  destruct (build_job (job_start w)) as [r1 w1] eqn:Hjob. intros [= -> <-].
  assert (job_rows (job_start w) <> []) as Hne.
  { intros Hnone. apply build_job_run in Hjob as (_ & _ & delta & _ & Hrun).
    inversion Hrun; subst; congruence. }
  apply build_job_tail in Hjob
    as [(e & [= <-] & _ & _ & Hno & _)|(m & w2 & Hbuild & Hfree & Hb2 & Hf2 & Hl2 & Htail)];
    [exfalso; by apply (Hno name out)| |done].
  unfold job_tail in Htail.
  change (job_rows (job_start w)) with (job_rows w) in *.
  change (job_entries (job_start w)) with (job_entries w) in *.
  change (job_ts (job_start w)) with (job_ts w) in *.
  change (job_out_remote (job_start w)) with (job_out_remote w) in *.
  change (job_out_name (job_start w)) with (job_out_name w) in *.
  change (job_local_paths (job_start w)) with (job_local_paths w) in *.
  change (bucket (job_start w)) with (bucket w) in *.
  change (files (job_start w)) with (files w) in *.
  change (LAST_RUN (job_start w)) with (LAST_RUN w) in *.
  revert Htail. rewrite bind_run.
  destruct (mapM (archive_entry (job_ts w)) (job_entries w) w2) as [r3 w3] eqn:Hmv.
  pose proof (moves_run _ _ _ _ _ Hmv) as (Hf3 & (_ & Hl3 & _) & moves & _ & _ & Hres3).
  destruct r3 as [dests|e3];
    [|destruct Hres3 as (a0 & b0 & He3 & _); rewrite He3; discriminate].
  destruct Hres3 as (-> & _).
  pose proof (moves_bucket _ _ _ _ _ Hmv (job_entries_incoming _)) as (Hkeep & _ & _).
  rewrite bind_run.
  destruct (sb_update_file_paths _ _ w3) as [r4 w4] eqn:Hup.
  pose proof (updates_run _ _ _ _ _ Hup) as (_ & (_ & Hl4 & _) & updates & _ & _ & Hres4).
  apply updates_relocate in Hup as (Hb4 & Hrel & _).
  destruct r4 as [[]|e4];
    [|destruct Hres4 as (a0 & b0 & He4 & _); rewrite He4; discriminate].
  rewrite bind_run. unfold sb_insert_output_row.
  destruct (supabase _ _ _ _ w4) as [r5 w5] eqn:Hreq.
  apply supabase_run in Hreq as [(_ & _ & -> & ->)|(_ & -> & ->)].
  { rewrite bind_run. unfold now_iso. rewrite bind_run.
    unfold utcnow, get, mret, M_ret, modify. cbn beta iota. discriminate. }
  intros [= <- <- <-]. exists m.
  rewrite Hf3, Hf2 in Hrel.
  split_and!; try done.
  - simpl. rewrite Hb4. apply Hkeep; [rewrite Hb2; apply lookup_insert_eq|].
    intros e He Heq.
    pose proof (job_entries_incoming w) as Hinc.
    rewrite List.Forall_forall in Hinc. apply Hinc in He. rewrite Heq in He.
    by rewrite job_out_remote_not_incoming in He.
  - simpl. symmetry. by eapply Forall2_length.
  - simpl. apply pending_nil.
    eapply Forall2_Forall_right; [exact Hrel|].
    intros old new Hold Hr.
    exact (relocated_not_pending w _ old new eq_refl Hr Hold).
  - simpl. congruence.
Qed.

(** X24. A run that fails at a catalog update wedges the service.  Where
    ids identify rows, the row whose update failed is still pending
    although its object has left its incoming name, and the montage is
    stored without a row: the state in which every later run stops at a
    download. *)
Theorem update_failure_wedges (w : World) (a : Z) (b : string) (w' : World) :
  IS_CREATING w = false ->
  List.NoDup (map row_id (files w)) ->
  run_build_pipeline w = (Raise (ApiError (Update a b)), w') ->
  (exists r,
      row_id r = a
      /\ In r (job_rows w)
      /\ In r (pending (files w'))
      /\ bucket w' !! file_path r = None)
  /\ is_Some (bucket w' !! job_out_remote w)
  /\ length (files w') = length (files w)
  /\ LAST_RUN w' = LAST_RUN w.
Proof.
  intros Hidle Hnodup. rewrite run_build_pipeline_idle by done.
  destruct (build_job (job_start w)) as [r1 w1] eqn:Hjob. intros [= -> <-].
  assert (job_rows (job_start w) <> []) as Hne.
  { intros Hnone. apply build_job_run in Hjob as (_ & _ & delta & _ & Hrun).
    inversion Hrun; subst; congruence. }
  apply build_job_tail in Hjob
    as [(e & [= <-] & _ & Hno & _)|(m & w2 & Hbuild & Hfree & Hb2 & Hf2 & Hl2 & Htail)];
    [exfalso; by apply (Hno a b)| |done].
  unfold job_tail in Htail.
  change (job_rows (job_start w)) with (job_rows w) in *.
  change (job_entries (job_start w)) with (job_entries w) in *.
  change (job_ts (job_start w)) with (job_ts w) in *.
  change (job_out_remote (job_start w)) with (job_out_remote w) in *.
  change (job_out_name (job_start w)) with (job_out_name w) in *.
  change (bucket (job_start w)) with (bucket w) in *.
  change (files (job_start w)) with (files w) in *.
  change (LAST_RUN (job_start w)) with (LAST_RUN w) in *.
  revert Htail. rewrite bind_run.
  destruct (mapM (archive_entry (job_ts w)) (job_entries w) w2) as [r3 w3] eqn:Hmv.
  pose proof (moves_run _ _ _ _ _ Hmv) as (Hf3 & (_ & Hl3 & _) & moves & _ & _ & Hres3).
  destruct r3 as [dests|e3];
    [|destruct Hres3 as (a0 & b0 & He3 & _); rewrite He3; discriminate].
  destruct Hres3 as (-> & _).
  pose proof (moves_bucket _ _ _ _ _ Hmv (job_entries_incoming _))
    as (Hkeep & _ & Hmoved).
  rewrite bind_run.
  destruct (sb_update_file_paths _ _ w3) as [r4 w4] eqn:Hup.
  pose proof (updates_run _ _ _ _ _ Hup) as (_ & (_ & Hl4 & _) & _).
  destruct r4 as [[]|e4].
  { rewrite bind_run. unfold sb_insert_output_row.
    destruct (supabase _ _ _ _ w4) as [r5 w5] eqn:Hreq.
    apply supabase_run in Hreq as [(_ & _ & -> & ->)|(_ & -> & ->)]; [|discriminate].
    rewrite bind_run. unfold now_iso. rewrite bind_run.
    unfold utcnow, get, mret, M_ret, modify. cbn beta iota. discriminate. }
  intros [= -> <-].
  assert (zip (job_rows w) (map (archive_dest (job_ts w)) (job_entries w))
          = map (fun r => (r, archive_dest (job_ts w) (local_entry (job_tmp w) r)))
                (job_rows w)) as Hzip.
  { unfold job_entries. by rewrite map_map, zip_with_image. }
  pose proof (updates_relocate _ _ _ _ _ Hup) as (_ & Hlen & _).
  apply Forall2_length in Hlen.
  apply update_all_failed in Hup as (pre & row & post & Hpairs & Hid & Hb4 & Hrel).
  rewrite Hzip in Hpairs.
  assert (In row (job_rows w)) as Hrow.
  { assert (In (row, b) (map (fun r => (r, archive_dest (job_ts w)
                                            (local_entry (job_tmp w) r)))
                             (job_rows w))) as Hin
      by (rewrite Hpairs; apply in_or_app; right; by left).
    apply in_map_iff in Hin as (r & [= -> _] & Hin). exact Hin. }
  assert (~ In (row_id row) (map (fun x => row_id (fst x)) pre)) as Hfresh.
  { pose proof (pending_NoDup _ Hnodup) as Hnd. fold (job_rows w) in Hnd.
    assert (map row_id (job_rows w)
            = map (fun x => row_id (fst x))
                  (map (fun r => (r, archive_dest (job_ts w)
                                       (local_entry (job_tmp w) r)))
                       (job_rows w))) as Hids by (by rewrite map_map).
    rewrite Hids, Hpairs, map_app in Hnd. simpl in Hnd.
    apply NoDup_remove_2 in Hnd. intros Hin. apply Hnd.
    apply in_or_app. by left. }
  pose proof (proj1 (pending_In (files w) row) Hrow) as [Hin Hpending].
  split_and!.
  - exists row. split_and!; try done.
    + apply pending_In. split; [|done].
      rewrite Hf3, Hf2 in Hrel.
      apply list_elem_of_In, list_elem_of_lookup in Hin as [i Hi].
      destruct (Forall2_lookup_l _ _ _ _ _ Hrel Hi) as (new & Hnew & (_ & Hsame & _)).
      rewrite (Hsame Hfresh) in Hnew.
      apply list_elem_of_In, list_elem_of_lookup. eauto.
    + simpl. rewrite Hb4.
      destruct (Hmoved (local_entry (job_tmp w) row)) as [Hgone _]; [|exact Hgone].
      unfold job_entries. by apply in_map.
  - simpl. rewrite Hb4. exists (out_bytes m).
    apply Hkeep; [rewrite Hb2; apply lookup_insert_eq|].
    intros e He Heq.
    pose proof (job_entries_incoming w) as Hinc.
    rewrite List.Forall_forall in Hinc. apply Hinc in He. rewrite Heq in He.
    by rewrite job_out_remote_not_incoming in He.
  - simpl. rewrite <- Hlen. congruence.
  - simpl. congruence.
Qed.

(* ===================================================================== *)
(** * Properties: archival and completion                                 *)
(* ===================================================================== *)

(** ** Classification by extension *)

(** C10. An item is classified by the extension of its file name, which its
    local copy keeps (names of ASCII characters, on which the test of the
    code is [is_video] and [is_image]).  One whose name ends in none of the
    video and image extensions, case ignored, is neither a video nor an
    image: it is absent from the order of the sequencer and from the clips
    of the montage.  Yet a run that completes has archived it like every
    other item: the move and the update of its row were sent and answered,
    its object has left its incoming name for a free name of [archive/],
    and, where ids identify rows, its row carries the archive path and a
    time stamp, its other columns unchanged.  When every pending item is of
    that kind, and the discovery and every download succeed (object there,
    request answered, local copy written), the job downloads them all and
    then fails with the [RuntimeError] of the empty composition, the bucket
    and the table untouched. *)
Theorem unrecognized_extension (w : World) (r : Row) :
  let p := snd (local_entry (job_tmp w) r) in
  IS_CREATING w = false ->
  In r (pending (files w)) ->
  is_ascii p = true ->
  unrecognized (basename (file_path r)) ->
  (is_video p = false /\ is_image p = false)
  /\ ~ In p (map path (order_videos
                         (embed_videos (List.filter is_video (job_local_paths w)))))
  /\ (forall m, build_montage_for_paths (job_local_paths w) = Ok m ->
                ~ In p (map clip_path (out_clips m)))
  /\ (forall w', run_build_pipeline w = (Ok tt, w') ->
        (exists delta,
            journal w' = (journal w ++ delta)%list
            /\ moved r delta
            /\ In (Update (row_id r) (archive_path w r), true) delta)
        /\ stored_in_archive w w' r
        /\ (List.NoDup (map row_id (files w)) -> row_relocated w w' r))
  /\ (fault Select = false ->
      (forall r', In r' (pending (files w)) ->
                  unrecognized (basename (file_path r'))
                  /\ is_ascii (snd (local_entry (job_tmp w) r')) = true
                  /\ fault (Download (file_path r')) = false
                  /\ is_Some (bucket w !! file_path r')
                  /\ open_wb (snd (local_entry (job_tmp w) r')) = true) ->
      exists w',
        run_build_pipeline w = (Raise no_usable_clips, w')
        /\ journal w'
           = (journal w ++ (Select, true) :: downloads (pending (files w)))%list
        /\ bucket w' = bucket w
        /\ files w' = files w).
Proof.
  intros p Hidle Hin _ Hname.
  assert (unrecognized p) as Hun by (by apply unrecognized_join).
  pose proof (unrecognized_not_media p Hun) as [Hv Hi].
  assert (~ In p (composable_paths (job_local_paths w))) as Hnot.
  { intros Hc. apply composable_in in Hc as [_ [Hc|Hc]]; congruence. }
  split; [done|]. split.
  { intros Hc. apply Hnot. unfold composable_paths. apply in_or_app. by left. }
  split.
  { intros m Hm Hc. apply Hnot. unfold composable_paths.
    by rewrite <- (montage_paths _ _ Hm). }
  split.
  - intros w' Hrun. split; [|split].
    + apply run_build_pipeline_run in Hrun as (_ & delta & Hj & Hrun); [|done].
      exists delta. split; [done|].
      inversion Hrun; subst.
      * exfalso. unfold job_rows in *.
        match goal with H : pending _ = [] |- _ => rewrite H in Hin end. done.
      * match goal with |- moved r ?l /\ In _ ?l =>
          replace l with
            (((Select, true) :: downloads (job_rows w)
              ++ [(Upload (job_out_remote w), true)])
             ++ moves ++ job_updates w
             ++ [(Insert (job_out_name w) (job_out_remote w), true)])%list
            by reassoc end.
        by apply job_done_archives_all.
    + by apply run_done_objects.
    + intros Hnodup. by apply run_done_row.
  - intros Hsel Hall.
    assert (composable_paths (job_local_paths w) = []) as Hempty.
    { destruct (composable_paths (job_local_paths w)) as [|q qs] eqn:Hq; [done|].
      exfalso.
      assert (In q (composable_paths (job_local_paths w))) as Hc
        by (rewrite Hq; by left).
      apply composable_in in Hc as [Hql Hmedia].
      unfold job_local_paths, job_entries in Hql. rewrite map_map in Hql.
      apply in_map_iff in Hql as (r' & <- & Hr').
      destruct (Hall r' Hr') as (Hun' & _).
      apply (unrecognized_join (job_tmp w)), unrecognized_not_media in Hun'
        as [? ?].
      unfold local_entry in Hmedia. simpl in Hmedia.
      destruct Hmedia; congruence. }
    apply build_montage_nothing_composable in Hempty.
    destruct (run_stops_at_composition w no_usable_clips)
      as (w' & Hrun & Hj & Hb & Hf & _); try done.
    + intros Hnil. rewrite Hnil in Hin. done.
    + intros r' Hr'. destruct (Hall r' Hr') as (_ & _ & ? & ? & ?). done.
    + exists w'. by split_and!.
Qed.

(** ** Archival of the inputs *)


(** ** Completion of the job *)

(** C4. A run that passes the gate always ends with the flag cleared,
    whatever the [try] block does or raises.  A success, a run that
    completes for pending items, sets [LAST_RUN] to the time at which it
    ends; a failure leaves [LAST_RUN] as it was, and so does the run that
    finds nothing pending (the no-op of C9).  The job is not started again:
    one discovery is sent in the run, and when a request of the client
    raises out of the job, that failed request is the last one sent. *)
Theorem completion_returns_to_idle (w w' : World) (res : Result unit) :
  IS_CREATING w = false ->
  run_build_pipeline w = (res, w') ->
  IS_CREATING w' = false
  /\ (res = Ok tt -> pending (files w) <> [] ->
      LAST_RUN w' = Some (isoformat (clock w') ++ "Z"))
  /\ (forall e, res = Raise e -> LAST_RUN w' = LAST_RUN w)
  /\ (res = Ok tt -> pending (files w) = [] -> LAST_RUN w' = LAST_RUN w)
  /\ exists ok rest,
      journal w' = (journal w ++ (Select, ok) :: rest)%list
      /\ Forall (fun x => fst x <> Select) rest
      /\ (forall req, res = Raise (ApiError req) ->
                      last (journal w') = Some (req, false)).
Proof.
  intros Hidle Hrun.
  apply run_build_pipeline_run in Hrun as (Hflag & delta & Hj & Hrun); [|done].
  split; [done|]. split_and!.
  - intros -> Hsome. inversion Hrun; subst; [by unfold job_rows in *|done].
  - intros e ->. inversion Hrun; subst; done.
  - intros -> Hnone. inversion Hrun; subst; [done|by unfold job_rows in *].
  - pose proof (job_run_phased _ _ _ _ Hrun) as (ok & rest & Hdelta & Hph).
    exists ok, rest. split_and!.
    + by rewrite Hj, Hdelta.
    + apply Forall_forall. intros x Hx.
      apply list_elem_of_lookup in Hx as [k Hk].
      pose proof (phased_lower_bound _ _ _ _ Hph Hk) as Hlow.
      intros Heq. rewrite Heq in Hlow. simpl in Hlow. lia.
    + intros req ->. rewrite Hj. apply last_app_Some.
      by apply (job_run_failed_last w w').
Qed.

End Service.

(* ===================================================================== *)
(** * A concrete deployment                                               *)
(* ===================================================================== *)

(** A small backend, clock and bucket on which the definitions run. *)

Definition show (t : Z) : string := pretty t.

(** Videos are 1920 x 1080 and last two seconds, except [short.mp4] which
    lasts 0.3 s; images are 800 x 600. *)
Definition ex_probe_video (p : string) : option (Z * Z * Q) :=
  if endswith p "short.mp4" then Some (1920, 1080, (3 # 10)%Q)
  else if is_video p then Some (1920, 1080, 2%Q)
  else None.

Definition ex_probe_image (p : string) : option (Z * Z) :=
  if is_image p then Some (800, 600) else None.

(** A frame is summarised by one number, and so is an embedding. *)
Definition ex_get_frame (c : Clip) (t : Q) : option Z :=
  Some (Z.of_nat (String.length (clip_path c))).
Definition ex_embedding (frame : Z) : option Z := Some frame.
Definition ex_mean (embs : list Z) : Z := hd 0 embs.
Definition ex_similarity (a b : Z) : Q := inject_Z (- Z.abs (a - b)).
Definition ex_write_videofile (clips : list Clip) (out : string) : option string :=
  Some "MP4".

Definition ex_isoformat (t : Z) : string := "T" ++ show t.
Definition ex_strftime (t : Z) (fmt : string) : string := show t.
Definition ex_WORK_DIR : string := "/tmp/social-work".
Definition ex_job_dir (t : Z) : string := "job_" ++ show t.

(** The local file system: a path that ends in a slash names a directory
    and cannot be opened for writing. *)
Definition ex_open_wb (p : string) : bool := negb (endswith p "/").

Definition no_fault (req : Request) : bool := false.

(** The catalog cannot be written: every row update fails. *)
Definition update_fault (req : Request) : bool := is_update req.

Definition ex_build (local_paths : list string) : Result Montage :=
  build_montage_for_paths ex_probe_video ex_probe_image ex_get_frame ex_embedding
    ex_mean ex_similarity ex_write_videofile local_paths.

Definition ex_run (fault : Request -> bool) : M unit :=
  run_build_pipeline ex_probe_video ex_probe_image ex_get_frame ex_embedding
    ex_mean ex_similarity ex_write_videofile fault ex_isoformat ex_strftime
    ex_WORK_DIR ex_job_dir ex_open_wb.

Definition ex_step : Config -> Sched -> Config :=
  step ex_probe_video ex_probe_image ex_get_frame ex_embedding
    ex_mean ex_similarity ex_write_videofile no_fault ex_isoformat ex_strftime
    ex_WORK_DIR ex_job_dir ex_open_wb.

Definition incoming (i : Z) (file : string) (at_ : string) : Row :=
  mkRow i file ("incoming/" ++ file) at_ "application/octet-stream" 100 false
        None None.

Definition idle (objects : list (string * string)) (table : list Row) : World :=
  mkWorld (list_to_map objects) table 0 [] false None None.

(** Nothing pending: one row in the trash, one already archived. *)
Definition w_empty : World :=
  idle [("archive/old.mp4.7", "O")]
       [mkRow 1 "gone.mp4" "incoming/gone.mp4" "2024-05-01T09:00" "video/mp4" 100
              true None None;
        mkRow 2 "old.mp4" "archive/old.mp4.7" "2024-05-01T09:30" "video/mp4" 100
              false None None].

(** One pending video. *)
Definition w_one : World :=
  idle [("incoming/a.mp4", "A")] [incoming 1 "a.mp4" "2024-05-01T10:00"].

(** Two videos, one of them too short, an image and a text file. *)
Definition w_mixed : World :=
  idle [("incoming/a.mp4", "A"); ("incoming/short.mp4", "S");
        ("incoming/c.png", "C"); ("incoming/notes.txt", "N")]
       [incoming 1 "a.mp4" "2024-05-01T10:00";
        incoming 2 "short.mp4" "2024-05-01T10:01";
        incoming 3 "c.png" "2024-05-01T10:02";
        incoming 4 "notes.txt" "2024-05-01T10:03"].

(** Only files the pipeline does not recognise. *)
Definition w_text : World :=
  idle [("incoming/notes.txt", "N"); ("incoming/DATA.BIN", "D")]
       [incoming 1 "notes.txt" "2024-05-01T10:00";
        incoming 2 "DATA.BIN" "2024-05-01T10:01"].

Example run_mixed :
  let '(res, w') := ex_run no_fault w_mixed in
  res = Ok tt
  /\ journal w'
     = [(Select, true);
        (Download "incoming/a.mp4", true); (Download "incoming/short.mp4", true);
        (Download "incoming/c.png", true); (Download "incoming/notes.txt", true);
        (Upload "outputs/montage_output_5.mp4", true);
        (Move "incoming/a.mp4" "archive/a.mp4.5", true);
        (Move "incoming/short.mp4" "archive/short.mp4.5", true);
        (Move "incoming/c.png" "archive/c.png.5", true);
        (Move "incoming/notes.txt" "archive/notes.txt.5", true);
        (Update 1 "archive/a.mp4.5", true); (Update 2 "archive/short.mp4.5", true);
        (Update 3 "archive/c.png.5", true); (Update 4 "archive/notes.txt.5", true);
        (Insert "montage_output_5.mp4" "outputs/montage_output_5.mp4", true)]
  /\ map file_path (files w')
     = ["archive/a.mp4.5"; "archive/short.mp4.5"; "archive/c.png.5";
        "archive/notes.txt.5"; "outputs/montage_output_5.mp4"]
  /\ LAST_RUN w' = Some "T15Z"
  /\ IS_CREATING w' = false.
Proof. vm_compute. repeat split. Qed.

Example montage_mixed :
  ex_build ["/w/a.mp4"; "/w/short.mp4"; "/w/c.png"; "/w/notes.txt"]
  = Ok (mkMontage "/w/montage_output.mp4"
                  [mkClip "/w/a.mp4" 1080 1920 (Some 2%Q);
                   mkClip "/w/c.png" 1080 1920 (Some 3%Q)]
                  "MP4").
Proof. vm_compute. reflexivity. Qed.

(** ** The theorems at work *)

Lemma short_video_excluded_witness :
  let paths := ["/w/a.mp4"; "/w/short.mp4"; "/w/c.png"] in
  is_video "/w/short.mp4" = true
  /\ ex_probe_video "/w/short.mp4" = Some (1920, 1080, (3 # 10)%Q)
  /\ (3 # 10 < MIN_CLIP_DURATION)%Q
  /\ ~ In "/w/short.mp4"
          (map path (order_videos ex_similarity
                       (embed_videos ex_probe_video ex_get_frame ex_embedding ex_mean
                          (List.filter is_video paths))))
  /\ forall m, ex_build paths = Ok m -> ~ In "/w/short.mp4" (map clip_path (out_clips m)).
Proof.
  intros paths.
  split; [reflexivity|]. split; [reflexivity|]. split; [reflexivity|].
  exact (proj2 (short_video_excluded ex_probe_video ex_probe_image ex_get_frame
                  ex_embedding ex_mean ex_similarity ex_write_videofile paths
                  "/w/short.mp4" 1920 1080 (3 # 10)%Q
                  eq_refl eq_refl eq_refl)).
Defined.

Lemma no_pending_is_noop_witness :
  IS_CREATING w_empty = false
  /\ no_fault Select = false
  /\ pending (files w_empty) = []
  /\ exists w',
      ex_run no_fault w_empty = (Ok tt, w')
      /\ journal w' = (journal w_empty ++ [(Select, true)])%list
      /\ bucket w' = bucket w_empty
      /\ files w' = files w_empty
      /\ LAST_RUN w' = LAST_RUN w_empty
      /\ IS_CREATING w' = false.
Proof.
  split; [reflexivity|]. split; [reflexivity|]. split; [reflexivity|].
  exact (no_pending_is_noop ex_probe_video ex_probe_image ex_get_frame ex_embedding
           ex_mean ex_similarity ex_write_videofile no_fault ex_isoformat
           ex_strftime ex_WORK_DIR ex_job_dir ex_open_wb w_empty eq_refl eq_refl eq_refl).
Defined.

Lemma text_downloads_succeed (r : Row) :
  In r (pending (files w_text)) ->
  no_fault (Download (file_path r)) = false
  /\ is_Some (bucket w_text !! file_path r)
  /\ ex_open_wb (snd (local_entry (job_tmp ex_WORK_DIR ex_job_dir w_text) r)) = true.
Proof.
  intros Hr. vm_compute in Hr. destruct Hr as [<-|[<-|[]]];
    (split; [reflexivity|split; [vm_compute; eauto|reflexivity]]).
Defined.

Lemma text_paths_ascii (p : string) :
  In p (job_local_paths ex_WORK_DIR ex_job_dir w_text) -> is_ascii p = true.
Proof.
  intros Hp. vm_compute in Hp. destruct Hp as [<-|[<-|[]]]; reflexivity.
Defined.

Lemma no_usable_clip_aborts_witness :
  IS_CREATING w_text = false
  /\ pending (files w_text) <> []
  /\ composable_paths ex_probe_video ex_get_frame ex_embedding ex_mean ex_similarity
       (job_local_paths ex_WORK_DIR ex_job_dir w_text) = []
  /\ exists w',
      ex_run no_fault w_text = (Raise no_usable_clips, w')
      /\ journal w'
         = (journal w_text
            ++ (Select, true) :: downloads (pending (files w_text)))%list
      /\ Forall (fun x => is_write (fst x) = false)
                ((Select, true) :: downloads (pending (files w_text)))
      /\ bucket w' = bucket w_text
      /\ files w' = files w_text
      /\ LAST_RUN w' = LAST_RUN w_text
      /\ IS_CREATING w' = false.
Proof.
  split; [reflexivity|]. split; [by vm_compute|]. split; [reflexivity|].
  exact (proj2 (no_usable_clip_aborts ex_probe_video ex_probe_image ex_get_frame
                  ex_embedding ex_mean ex_similarity ex_write_videofile no_fault
                  ex_isoformat ex_strftime ex_WORK_DIR ex_job_dir ex_open_wb w_text
                  eq_refl eq_refl ltac:(by vm_compute) text_downloads_succeed
                  text_paths_ascii eq_refl)).
Defined.

Lemma notes_unrecognized : unrecognized "notes.txt".
Proof.
  intros ext Hext. simpl in Hext.
  repeat (destruct Hext as [<-|Hext]; [reflexivity|]). destruct Hext.
Defined.

Definition w_mixed_done : World := snd (ex_run no_fault w_mixed).

Lemma w_mixed_ids : List.NoDup (map row_id (files w_mixed)).
Proof.
  simpl. repeat (constructor; [simpl; intuition discriminate|]). constructor.
Defined.

Lemma unrecognized_extension_witness :
  let r := incoming 4 "notes.txt" "2024-05-01T10:03" in
  let p := "/tmp/social-work/job_1/notes.txt" in
  IS_CREATING w_mixed = false
  /\ In r (pending (files w_mixed))
  /\ is_ascii p = true
  /\ unrecognized (basename (file_path r))
  /\ (is_video p = false /\ is_image p = false)
  /\ (forall m, ex_build (job_local_paths ex_WORK_DIR ex_job_dir w_mixed) = Ok m ->
                ~ In p (map clip_path (out_clips m)))
  /\ ex_run no_fault w_mixed = (Ok tt, w_mixed_done)
  /\ (exists delta,
        journal w_mixed_done = (journal w_mixed ++ delta)%list
        /\ moved r delta
        /\ In (Update 4 "archive/notes.txt.5", true) delta)
  /\ stored_in_archive ex_strftime w_mixed w_mixed_done r
  /\ row_relocated ex_strftime w_mixed w_mixed_done r.
Proof.
  intros r p.
  assert (In r (pending (files w_mixed))) as Hin
    by (vm_compute; right; right; right; left; reflexivity).
  assert (ex_run no_fault w_mixed = (Ok tt, w_mixed_done)) as Hrun
    by (vm_compute; reflexivity).
  destruct (unrecognized_extension ex_probe_video ex_probe_image ex_get_frame
              ex_embedding ex_mean ex_similarity ex_write_videofile no_fault
              ex_isoformat ex_strftime ex_WORK_DIR ex_job_dir ex_open_wb w_mixed r
              eq_refl Hin eq_refl notes_unrecognized)
    as (Hmedia & _ & Hclips & Hdone & _).
  destruct (Hdone w_mixed_done Hrun) as (Hjournal & Hstored & Hrow).
  split; [reflexivity|]. split; [exact Hin|]. split; [reflexivity|].
  split; [exact notes_unrecognized|].
  split; [exact Hmedia|]. split; [exact Hclips|]. split; [exact Hrun|].
  split; [exact Hjournal|]. split; [exact Hstored|exact (Hrow w_mixed_ids)].
Defined.

Definition w_one_done : World := snd (ex_run no_fault w_one).

Lemma w_one_runs : ex_run no_fault w_one = (Ok tt, w_one_done).
Proof. vm_compute. reflexivity. Defined.

Lemma w_one_pending : pending (files w_one) <> [].
Proof. vm_compute. discriminate. Defined.

Lemma upload_then_archive_then_record_witness :
  IS_CREATING w_one = false
  /\ pending (files w_one) <> []
  /\ ex_run no_fault w_one = (Ok tt, w_one_done)
  /\ exists moves,
      let delta :=
        ((Select, true) :: downloads (pending (files w_one))
         ++ (Upload (job_out_remote ex_strftime w_one), true) :: moves
         ++ job_updates ex_strftime ex_WORK_DIR ex_job_dir w_one
         ++ [(Insert (job_out_name ex_strftime w_one)
                     (job_out_remote ex_strftime w_one), true)])%list in
      journal w_one_done = (journal w_one ++ delta)%list
      /\ all_moves moves
      /\ precedes is_upload is_archive delta
      /\ precedes is_archive is_insert delta
      /\ precedes is_move is_update delta.
Proof.
  split; [reflexivity|]. split; [exact w_one_pending|]. split; [exact w_one_runs|].
  exact (upload_then_archive_then_record ex_probe_video ex_probe_image ex_get_frame
           ex_embedding ex_mean ex_similarity ex_write_videofile no_fault
           ex_isoformat ex_strftime ex_WORK_DIR ex_job_dir ex_open_wb w_one w_one_done
           eq_refl w_one_pending w_one_runs).
Defined.

(** C3 as stated fails: in the completed run of [w_one] the row of the
    montage is inserted (sixth request) after the input is moved (fourth
    request) and its row updated (fifth request). *)
Lemma publish_before_archive_fails :
  ex_run no_fault w_one = (Ok tt, w_one_done)
  /\ journal w_one_done
     = [(Select, true);
        (Download "incoming/a.mp4", true);
        (Upload "outputs/montage_output_2.mp4", true);
        (Move "incoming/a.mp4" "archive/a.mp4.2", true);
        (Update 1 "archive/a.mp4.2", true);
        (Insert "montage_output_2.mp4" "outputs/montage_output_2.mp4", true)]
  /\ ~ publish_before_archive (journal w_one_done).
Proof.
  split; [exact w_one_runs|].
  assert (journal w_one_done
          = [(Select, true);
             (Download "incoming/a.mp4", true);
             (Upload "outputs/montage_output_2.mp4", true);
             (Move "incoming/a.mp4" "archive/a.mp4.2", true);
             (Update 1 "archive/a.mp4.2", true);
             (Insert "montage_output_2.mp4" "outputs/montage_output_2.mp4", true)])
    as Hj by (vm_compute; reflexivity).
  split; [exact Hj|]. rewrite Hj. intros Hclaim.
  pose proof (Hclaim 5%nat 3%nat _ _ eq_refl eq_refl eq_refl eq_refl). lia.
Qed.

Lemma w_one_ids : List.NoDup (map row_id (files w_one)).
Proof. simpl. constructor; [simpl; intuition|constructor]. Defined.



Definition w_one_stuck : World := snd (ex_run update_fault w_one).


Lemma completion_returns_to_idle_witness :
  IS_CREATING w_one = false
  /\ ex_run no_fault w_one = (Ok tt, w_one_done)
  /\ IS_CREATING w_one_done = false
  /\ LAST_RUN w_one_done = Some (ex_isoformat (clock w_one_done) ++ "Z")
  /\ exists ok rest,
      journal w_one_done = (journal w_one ++ (Select, ok) :: rest)%list
      /\ Forall (fun x => fst x <> Select) rest
      /\ (forall req, Ok tt = Raise (ApiError req) ->
                      last (journal w_one_done) = Some (req, false)).
Proof.
  destruct (completion_returns_to_idle ex_probe_video ex_probe_image ex_get_frame
              ex_embedding ex_mean ex_similarity ex_write_videofile no_fault
              ex_isoformat ex_strftime ex_WORK_DIR ex_job_dir ex_open_wb
              w_one w_one_done (Ok tt) eq_refl w_one_runs)
    as (Hflag & Hset & _ & _ & Hlast).
  split; [reflexivity|]. split; [exact w_one_runs|]. split; [exact Hflag|].
  split; [exact (Hset eq_refl w_one_pending)|]. exact Hlast.
Defined.

(** A run that fails: the update of the row is refused, [LAST_RUN] keeps
    its value, the flag is cleared, and the refused request is the last
    one. *)
Example failed_run_returns_to_idle :
  ex_run update_fault w_one
  = (Raise (ApiError (Update 1 "archive/a.mp4.2")), w_one_stuck)
  /\ IS_CREATING w_one_stuck = false
  /\ LAST_RUN w_one_stuck = LAST_RUN w_one
  /\ last (journal w_one_stuck) = Some (Update 1 "archive/a.mp4.2", false).
Proof. vm_compute. repeat split. Qed.

(** One trigger starts a job on [w_one]; its worker reaches the [try]
    block. *)
Definition sched_started : list Sched :=
  [Arrive; Handler 0; Handler 0;
   Worker 0; Worker 0; Worker 0; Worker 0; Worker 0; Worker 0].

(** Three more triggers arrive and are served while the job runs. *)
Definition sched_triggers : list Sched :=
  [Arrive; Arrive; Handler 1; Arrive; Handler 3; Handler 2].

Definition ex_schedule (sched : list Sched) (c : Config) : Config :=
  run_schedule ex_probe_video ex_probe_image ex_get_frame ex_embedding
    ex_mean ex_similarity ex_write_videofile no_fault ex_isoformat ex_strftime
    ex_WORK_DIR ex_job_dir ex_open_wb sched c.

Definition c_started : Config := ex_schedule sched_started (init w_one).
Definition c_triggered : Config := ex_schedule sched_triggers c_started.

Lemma triggers_stay_running :
  stays_running ex_probe_video ex_probe_image ex_get_frame ex_embedding
    ex_mean ex_similarity ex_write_videofile no_fault ex_isoformat ex_strftime
    ex_WORK_DIR ex_job_dir ex_open_wb sched_triggers c_started.
Proof. vm_compute. tauto. Defined.

Lemma single_flight_witness :
  IS_CREATING w_one = false
  /\ workers c_started = [InTry]
  /\ handlers c_triggered
     = [Responded false; Responded true; Responded true; Responded true]
  /\ workers c_triggered = [InTry]
  /\ journal (world c_triggered) = []
  /\ count running (workers c_triggered) = 1%nat
  /\ (length (workers c_triggered) + count at_spawn (handlers c_triggered)
      = length (workers c_started) + count at_spawn (handlers c_started))%nat.
Proof.
  destruct (single_flight ex_probe_video ex_probe_image ex_get_frame ex_embedding
              ex_mean ex_similarity ex_write_videofile no_fault ex_isoformat
              ex_strftime ex_WORK_DIR ex_job_dir ex_open_wb w_one sched_started
              sched_triggers Arrive eq_refl)
    as (_ & _ & _ & Hfragment).
  destruct (Hfragment triggers_stay_running) as (Hone & _ & Hbudget).
  split; [reflexivity|]. split; [vm_compute; reflexivity|].
  split; [vm_compute; reflexivity|]. split; [vm_compute; reflexivity|].
  split; [vm_compute; reflexivity|]. split; [exact Hone|exact Hbudget].
Defined.

(** C1. The trigger does not take part in the mutual exclusion: [run]
    tests [IS_CREATING] without the lock, and the flag is set later, by the
    thread it starts.  On [w_one], a first trigger is answered as accepted
    and its worker passes the gate; a second trigger arrives before that
    worker has set the flag: it is answered as accepted too, not as
    [already_running], and starts a second worker.  The second worker then
    runs the job and sends its writes; the first one, which was waiting
    for the lock, finds the flag clear again and runs a job of its own.
    Two units of work for two triggers, neither refused. *)
Theorem trigger_race_starts_two_jobs :
  let c1 := ex_schedule [Arrive; Handler 0; Handler 0; Worker 0] (init w_one) in
  let c2 := ex_schedule [Arrive; Handler 1; Handler 1] c1 in
  let c3 := ex_schedule (repeat (Worker 1) 8) c2 in
  let c4 := ex_schedule (repeat (Worker 0) 7) c3 in
  (handlers c1 = [Responded false] /\ workers c1 = [AtLock]
   /\ IS_CREATING (world c1) = false)
  /\ (handlers c2 = [Responded false; Responded false]
      /\ workers c2 = [AtLock; AtGate])
  /\ (workers c3 = [AtLock; Finished]
      /\ map fst (journal (world c3))
         = [Select; Download "incoming/a.mp4";
            Upload "outputs/montage_output_2.mp4";
            Move "incoming/a.mp4" "archive/a.mp4.2"; Update 1 "archive/a.mp4.2";
            Insert "montage_output_2.mp4" "outputs/montage_output_2.mp4"])
  /\ (workers c4 = [Finished; Finished]
      /\ handlers c4 = [Responded false; Responded false]
      /\ journal (world c4) = (journal (world c3) ++ [(Select, true)])%list
      /\ count (fun x => bool_decide (fst x = Select)) (journal (world c4)) = 2%nat).
Proof. vm_compute. repeat split. Qed.

(** The same on two triggers that both test the flag before any worker
    exists: both are accepted, and the two workers run one after the
    other. *)
Example idle_race :
  let c := ex_schedule [Arrive; Arrive; Handler 0; Handler 1; Handler 0; Handler 1]
                       (init w_one) in
  let c' := ex_schedule (repeat (Worker 0) 8 ++ repeat (Worker 1) 8)%list c in
  handlers c = [Responded false; Responded false]
  /\ workers c = [AtGate; AtGate]
  /\ workers c' = [Finished; Finished]
  /\ map fst (journal (world c'))
     = [Select; Download "incoming/a.mp4"; Upload "outputs/montage_output_2.mp4";
        Move "incoming/a.mp4" "archive/a.mp4.2"; Update 1 "archive/a.mp4.2";
        Insert "montage_output_2.mp4" "outputs/montage_output_2.mp4";
        Select].
Proof. vm_compute. repeat split. Qed.

(** ** The sequencer on plane vectors

    With vectors of the plane and a score that grows with the cosine (its
    square, signed), the items A = (1, 0), B = (0.9, 0.1), C = (0, 1) are
    placed in the order A, B, C; a tie goes to the candidate seen first. *)

Definition dot2 (a b : Q * Q) : Q := (fst a * fst b + snd a * snd b)%Q.

Definition signed_cos2 (a b : Q * Q) : Q :=
  let d := dot2 a b in
  ((if Qle_bool 0 d then 1 else -1) * (d * d) / (dot2 a a * dot2 b b))%Q.

Example sequencer_example :
  map path (order_videos signed_cos2
              [mkEntry "A" (1, 0)%Q; mkEntry "B" (9 # 10, 1 # 10)%Q;
               mkEntry "C" (0, 1)%Q])
  = ["A"; "B"; "C"].
Proof. vm_compute. reflexivity. Qed.

Example sequencer_tie :
  map path (order_videos signed_cos2
              [mkEntry "A" (1, 0)%Q; mkEntry "C" (0, 1)%Q;
               mkEntry "B1" (1, 1)%Q; mkEntry "B2" (2, 2)%Q])
  = ["A"; "B1"; "B2"; "C"].
Proof. vm_compute. reflexivity. Qed.

Example canvas_landscape :
  _resize_crop_9x16_video (mkClip "a.mp4" 1920 1080 (Some 2%Q))
  = mkClip "a.mp4" 1080 1920 (Some 2%Q).
Proof. reflexivity. Qed.

Example canvas_narrow :
  _resize_crop_9x16_video (mkClip "tall.mp4" 500 1920 (Some 2%Q))
  = mkClip "tall.mp4" 500 1920 (Some 2%Q).
Proof. reflexivity. Qed.


(** ** The further theorems at work *)

Lemma discovery_lists_pending_witness :
  let w' := logged Select true w_mixed in
  sb_list_incoming_files no_fault w_mixed = (Ok (pending (files w_mixed)), w')
  /\ bucket w' = bucket w_mixed
  /\ files w' = files w_mixed
  /\ same_globals w_mixed w'.
Proof.
  intros w'.
  assert (sb_list_incoming_files no_fault w_mixed
          = (Ok (pending (files w_mixed)), w')) as Hrun by reflexivity.
  destruct (discovery_lists_pending no_fault w_mixed _ _ Hrun) as (Hb & Hf & Hg & _).
  split; [exact Hrun|]. split; [exact Hb|]. split; [exact Hf|exact Hg].
Defined.

(** The archive name of [a.mp4] is taken by an older object. *)
Definition w_taken : World :=
  idle [("incoming/a.mp4", "A"); ("archive/a.mp4.2", "OLD")]
       [incoming 1 "a.mp4" "2024-05-01T10:00"].

Definition w_taken_moved : World :=
  snd (sb_storage_move no_fault ex_strftime "incoming/a.mp4" "archive/a.mp4.2" w_taken).

Lemma w_taken_moves :
  sb_storage_move no_fault ex_strftime "incoming/a.mp4" "archive/a.mp4.2" w_taken
  = (Ok tt, w_taken_moved).
Proof. vm_compute. reflexivity. Defined.

Lemma sb_storage_move_attempts_witness :
  sb_storage_move no_fault ex_strftime "incoming/a.mp4" "archive/a.mp4.2" w_taken
  = (Ok tt, w_taken_moved)
  /\ journal w_taken_moved
     = [(Move "incoming/a.mp4" "archive/a.mp4.2", false);
        (Move "incoming/a.mp4" "archive/a.mp4.1.2", true)].
Proof.
  split; [exact w_taken_moves|].
  destruct (sb_storage_move_attempts no_fault ex_strftime _ _ _ _ _ w_taken_moves)
    as [[_ Hj]|(second & Hsecond & _ & [[_ Hj]|[Hbad _]])].
  - vm_compute in Hj. discriminate Hj.
  - rewrite Hj, Hsecond. vm_compute. reflexivity.
  - discriminate Hbad.
Defined.

Lemma sb_storage_move_renames_witness :
  sb_storage_move no_fault ex_strftime "incoming/a.mp4" "archive/a.mp4.2" w_taken
  = (Ok tt, w_taken_moved)
  /\ files w_taken_moved = files w_taken
  /\ same_globals w_taken w_taken_moved
  /\ bucket w_taken_moved !! "archive/a.mp4.2" = Some "OLD".
Proof.
  split; [exact w_taken_moves|].
  destruct (sb_storage_move_renames no_fault ex_strftime _ _ _ _ _ w_taken_moves)
    as (Hf & Hg & dest & data & Hdest & _ & Hfree & _ & Hother).
  split; [exact Hf|]. split; [exact Hg|].
  rewrite Hother.
  - vm_compute. reflexivity.
  - discriminate.
  - intros Heq. rewrite <- Heq in Hfree. vm_compute in Hfree. discriminate Hfree.
Defined.

Definition e_taken : Row * string :=
  (incoming 1 "a.mp4" "2024-05-01T10:00", "/tmp/social-work/job_1/a.mp4").

Definition w_taken_archived : World :=
  snd (archive_entry no_fault ex_strftime "2" e_taken w_taken).

Lemma archive_entry_keeps_first_choice_witness :
  archive_entry no_fault ex_strftime "2" e_taken w_taken
  = (Ok "archive/a.mp4.2", w_taken_archived)
  /\ bucket w_taken !! archive_dest "2" e_taken = Some "OLD"
  /\ file_path (fst e_taken) <> archive_dest "2" e_taken
  /\ bucket w_taken_archived !! "archive/a.mp4.2" = Some "OLD"
  /\ exists second data,
      second <> "archive/a.mp4.2"
      /\ bucket w_taken !! file_path (fst e_taken) = Some data
      /\ bucket w_taken_archived !! second = Some data
      /\ bucket w_taken_archived !! file_path (fst e_taken) = None.
Proof.
  assert (archive_entry no_fault ex_strftime "2" e_taken w_taken
          = (Ok "archive/a.mp4.2", w_taken_archived)) as Hrun
    by (vm_compute; reflexivity).
  assert (bucket w_taken !! archive_dest "2" e_taken = Some "OLD") as Hold
    by (vm_compute; reflexivity).
  assert (file_path (fst e_taken) <> archive_dest "2" e_taken) as Hne
    by discriminate.
  destruct (archive_entry_keeps_first_choice no_fault ex_strftime "2" e_taken
              w_taken _ "OLD" _ Hrun Hold Hne) as (_ & Hkept & Hmoved).
  split; [exact Hrun|]. split; [exact Hold|]. split; [exact Hne|].
  split; [exact Hkept|exact Hmoved].
Defined.

Definition w_one_updated : World :=
  snd (sb_update_file_paths no_fault ex_isoformat (files w_one)
         ["archive/a.mp4.2"; "archive/unused"] w_one).

Lemma sb_update_file_paths_frame_witness :
  sb_update_file_paths no_fault ex_isoformat (files w_one)
    ["archive/a.mp4.2"; "archive/unused"] w_one
  = (Ok tt, w_one_updated)
  /\ bucket w_one_updated = bucket w_one
  /\ length (files w_one_updated) = length (files w_one)
  /\ exists delta,
      journal w_one_updated = (journal w_one ++ delta)%list
      /\ (length delta <= 1)%nat.
Proof.
  assert (sb_update_file_paths no_fault ex_isoformat (files w_one)
            ["archive/a.mp4.2"; "archive/unused"] w_one
          = (Ok tt, w_one_updated)) as Hrun by (vm_compute; reflexivity).
  destruct (sb_update_file_paths_frame no_fault ex_isoformat _ _ _ _ _ Hrun)
    as (Hb & Hlen & _ & Hreq).
  split; [exact Hrun|]. split; [exact Hb|]. split; [exact Hlen|exact Hreq].
Defined.

Lemma completed_run_leaves_nothing_pending_witness :
  IS_CREATING w_one = false
  /\ ex_run no_fault w_one = (Ok tt, w_one_done)
  /\ pending (files w_one_done) = []
  /\ exists w'',
      ex_run no_fault w_one_done = (Ok tt, w'')
      /\ journal w'' = (journal w_one_done ++ [(Select, true)])%list
      /\ bucket w'' = bucket w_one_done
      /\ files w'' = files w_one_done
      /\ LAST_RUN w'' = LAST_RUN w_one_done.
Proof.
  destruct (completed_run_leaves_nothing_pending ex_probe_video ex_probe_image
              ex_get_frame ex_embedding ex_mean ex_similarity ex_write_videofile
              no_fault ex_isoformat ex_strftime ex_WORK_DIR ex_job_dir ex_open_wb
              w_one w_one_done eq_refl w_one_runs) as [Hnone Hagain].
  split; [reflexivity|]. split; [exact w_one_runs|]. split; [exact Hnone|].
  exact (Hagain eq_refl).
Defined.

Lemma completed_run_publishes_montage_witness :
  IS_CREATING w_one = false
  /\ ex_run no_fault w_one = (Ok tt, w_one_done)
  /\ job_rows w_one <> []
  /\ exists m olds out,
      ex_build (job_local_paths ex_WORK_DIR ex_job_dir w_one) = Ok m
      /\ bucket w_one !! job_out_remote ex_strftime w_one = None
      /\ bucket w_one_done !! job_out_remote ex_strftime w_one = Some (out_bytes m)
      /\ files w_one_done = (olds ++ [out])%list
      /\ Forall2 same_but_location (files w_one) olds
      /\ row_name out = job_out_name ex_strftime w_one
      /\ file_path out = job_out_remote ex_strftime w_one
      /\ file_size out = Z.of_nat (String.length (out_bytes m))
      /\ mime_type out = "video/mp4"
      /\ is_trashed out = false
      /\ folder_id out = None.
Proof.
  split; [reflexivity|]. split; [exact w_one_runs|]. split; [exact w_one_pending|].
  exact (completed_run_publishes_montage ex_probe_video ex_probe_image
           ex_get_frame ex_embedding ex_mean ex_similarity ex_write_videofile
           no_fault ex_isoformat ex_strftime ex_WORK_DIR ex_job_dir ex_open_wb
           w_one w_one_done eq_refl w_one_runs w_one_pending).
Defined.

Lemma completed_run_keeps_every_object_witness :
  IS_CREATING w_mixed = false
  /\ ex_run no_fault w_mixed = (Ok tt, w_mixed_done)
  /\ forall r, In r (job_rows w_mixed) ->
       bucket w_mixed_done !! file_path r = None
       /\ exists k data,
           in_archive k = true
           /\ bucket w_mixed !! k = None
           /\ bucket w_mixed !! file_path r = Some data
           /\ bucket w_mixed_done !! k = Some data.
Proof.
  assert (ex_run no_fault w_mixed = (Ok tt, w_mixed_done)) as Hrun
    by (vm_compute; reflexivity).
  split; [reflexivity|]. split; [exact Hrun|].
  exact (proj2 (completed_run_keeps_every_object ex_probe_video ex_probe_image
                  ex_get_frame ex_embedding ex_mean ex_similarity
                  ex_write_videofile no_fault ex_isoformat ex_strftime
                  ex_WORK_DIR ex_job_dir ex_open_wb w_mixed w_mixed_done eq_refl Hrun)).
Defined.

(** A pending row whose object is not in the bucket. *)
Definition w_missing : World :=
  idle [] [incoming 1 "a.mp4" "2024-05-01T10:00"].

Definition w_missing_done : World := snd (ex_run no_fault w_missing).

Lemma missing_object_blocks_run_witness :
  let r := incoming 1 "a.mp4" "2024-05-01T10:00" in
  IS_CREATING w_missing = false
  /\ In r (job_rows w_missing)
  /\ bucket w_missing !! file_path r = None
  /\ ex_run no_fault w_missing
     = (Raise (ApiError (Download "incoming/a.mp4")), w_missing_done)
  /\ bucket w_missing_done = bucket w_missing
  /\ files w_missing_done = files w_missing
  /\ LAST_RUN w_missing_done = LAST_RUN w_missing
  /\ IS_CREATING w_missing_done = false.
Proof.
  intros r.
  assert (In r (job_rows w_missing)) as Hin by (vm_compute; left; reflexivity).
  assert (ex_run no_fault w_missing
          = (Raise (ApiError (Download "incoming/a.mp4")), w_missing_done)) as Hrun
    by (vm_compute; reflexivity).
  split; [reflexivity|]. split; [exact Hin|]. split; [reflexivity|].
  split; [exact Hrun|].
  exact (proj2 (missing_object_blocks_run ex_probe_video ex_probe_image
                  ex_get_frame ex_embedding ex_mean ex_similarity
                  ex_write_videofile no_fault ex_isoformat ex_strftime
                  ex_WORK_DIR ex_job_dir ex_open_wb w_missing r _ _ eq_refl Hin eq_refl Hrun)).
Defined.

(** A pending row whose path ends in a slash has an empty base name: its
    local copy would be the job directory itself, so the write fails and
    the run stops at that download, before the row whose object is
    missing is asked for. *)
Definition w_dir : World :=
  idle [("incoming/", "D")]
       [incoming 1 "" "2024-05-01T10:00"; incoming 2 "a.mp4" "2024-05-01T10:01"].

Example directory_path_stops_run :
  let '(res, w') := ex_run no_fault w_dir in
  res = Raise (OSError "/tmp/social-work/job_1/")
  /\ journal w' = [(Select, true); (Download "incoming/", true)]
  /\ bucket w' = bucket w_dir
  /\ files w' = files w_dir
  /\ IS_CREATING w' = false.
Proof. vm_compute. repeat split. Qed.

Lemma sample_times_inside_witness :
  (0 < 2)%Q
  /\ sample_times 2 5 = [(2 * 1 / 6)%Q; (2 * 2 / 6)%Q; (2 * 3 / 6)%Q;
                         (2 * 4 / 6)%Q; (2 * 5 / 6)%Q]
  /\ length (sample_times 2 5) = 5%nat
  /\ Forall (fun t => (0 < t)%Q /\ (t < 2)%Q) (sample_times 2 5)
  /\ StronglySorted Qlt (sample_times 2 5).
Proof.
  assert (0 < 2)%Q as Hpos by reflexivity.
  split; [exact Hpos|]. split; [reflexivity|].
  exact (sample_times_inside 2 5 Hpos).
Defined.

Lemma video_embedding_all_or_nothing_witness :
  _video_embedding ex_probe_video ex_get_frame ex_embedding ex_mean
    "/w/a.mp4" MAX_FRAMES_PER_VIDEO = Some 8
  /\ (0 < MAX_FRAMES_PER_VIDEO)%nat
  /\ exists w h d,
      ex_probe_video "/w/a.mp4" = Some (w, h, d)
      /\ (MIN_CLIP_DURATION <= d)%Q
      /\ forall time, In time (sample_times d MAX_FRAMES_PER_VIDEO) ->
           exists frame e,
             ex_get_frame (mkClip "/w/a.mp4" w h (Some d)) time = Some frame
             /\ ex_embedding frame = Some e.
Proof.
  assert (_video_embedding ex_probe_video ex_get_frame ex_embedding ex_mean
            "/w/a.mp4" MAX_FRAMES_PER_VIDEO = Some 8) as Hemb
    by (vm_compute; reflexivity).
  split; [exact Hemb|].
  exact (video_embedding_all_or_nothing ex_probe_video ex_get_frame ex_embedding
           ex_mean "/w/a.mp4" MAX_FRAMES_PER_VIDEO 8 Hemb).
Defined.

(** A decoder that opens one image only. *)
Definition one_image (p : string) : option (Z * Z) :=
  if String.eqb p "/w/c.png" then Some (800, 600) else None.

Definition image_paths : list string :=
  ["/w/a.mp4"; "/w/c.png"; "/w/d.png"; "/w/e.png"].

Lemma image_paths_ascii (p : string) : In p image_paths -> is_ascii p = true.
Proof. intros [<-|[<-|[<-|[<-|[]]]]]; reflexivity. Defined.

Lemma image_paths_videos (p : string) (c : Clip) :
  In p image_paths -> VideoFileClip ex_probe_video p = Some c ->
  resizable c INSTAGRAM_HEIGHT.
Proof.
  intros [<-|[<-|[<-|[<-|[]]]]] Hc; vm_compute in Hc; try discriminate Hc.
  injection Hc as <-. unfold resizable, INSTAGRAM_HEIGHT. simpl. lia.
Defined.

Lemma image_paths_images (p : string) (c : Clip) :
  In p image_paths -> ImageClip one_image p = Some c ->
  resizable c INSTAGRAM_HEIGHT.
Proof.
  intros [<-|[<-|[<-|[<-|[]]]]] Hc; vm_compute in Hc; try discriminate Hc.
  injection Hc as <-. unfold resizable, INSTAGRAM_HEIGHT. simpl. lia.
Defined.

Lemma image_paths_readable (p : string) :
  In p ["/w/c.png"] -> is_Some (ImageClip one_image p).
Proof. intros [<-|[]]. vm_compute. eauto. Defined.

Lemma unreadable_image_fails_build_witness :
  List.filter is_image image_paths = (["/w/c.png"] ++ "/w/d.png" :: ["/w/e.png"])%list
  /\ ImageClip one_image "/w/d.png" = None
  /\ build_montage_for_paths ex_probe_video one_image ex_get_frame ex_embedding
       ex_mean ex_similarity ex_write_videofile image_paths
     = Raise (MediaError "/w/d.png").
Proof.
  split; [reflexivity|]. split; [reflexivity|].
  exact (unreadable_image_fails_build ex_probe_video one_image ex_get_frame
           ex_embedding ex_mean ex_similarity ex_write_videofile image_paths
           ["/w/c.png"] ["/w/e.png"] "/w/d.png"
           image_paths_ascii image_paths_videos image_paths_images
           eq_refl image_paths_readable eq_refl).
Defined.

Lemma montage_clips_on_canvas_witness :
  let m := mkMontage "/w/montage_output.mp4"
                     [mkClip "/w/a.mp4" 1080 1920 (Some 2%Q);
                      mkClip "/w/c.png" 1080 1920 (Some 3%Q)]
                     "MP4" in
  ex_build ["/w/a.mp4"; "/w/short.mp4"; "/w/c.png"; "/w/notes.txt"] = Ok m
  /\ out_clips m <> []
  /\ Forall (fun c => clip_h c = 1920 /\ clip_w c <= 1080
                      /\ (is_image (clip_path c) = true ->
                          clip_duration c = Some 3%Q))
            (out_clips m).
Proof.
  intros m.
  assert (ex_build ["/w/a.mp4"; "/w/short.mp4"; "/w/c.png"; "/w/notes.txt"] = Ok m)
    as Hbuild by (vm_compute; reflexivity).
  split; [exact Hbuild|].
  exact (montage_clips_on_canvas ex_probe_video ex_probe_image ex_get_frame
           ex_embedding ex_mean ex_similarity ex_write_videofile
           ["/w/a.mp4"; "/w/short.mp4"; "/w/c.png"; "/w/notes.txt"] m Hbuild).
Defined.

Definition s_mixed : Status :=
  mkStatus false "idle" None None 4 (Some "2024-05-01T10:03").

Lemma status_reports_witness :
  let w' := logged Select true w_mixed in
  status no_fault w_mixed = (Ok s_mixed, w')
  /\ bucket w' = bucket w_mixed
  /\ files w' = files w_mixed
  /\ same_globals w_mixed w'.
Proof.
  intros w'.
  assert (status no_fault w_mixed = (Ok s_mixed, w')) as Hrun
    by (vm_compute; reflexivity).
  destruct (status_reports no_fault w_mixed _ _ Hrun) as (Hb & Hf & Hg & _).
  split; [exact Hrun|]. split; [exact Hb|]. split; [exact Hf|exact Hg].
Defined.

Lemma bearer_check_passes_witness :
  "s3cret" <> ""
  /\ bearer_check "s3cret" (Some "BEARER  s3cret ") = Passed
  /\ bearer_check "s3cret" (Some "Bearer S3CRET") = Unauthorized
  /\ bearer_check "s3cret" (Some "Basic s3cret") = Unauthorized
  /\ bearer_check "s3cret" None = Unauthorized.
Proof.
  assert ("s3cret" <> "") as Hset by discriminate.
  destruct (bearer_check_passes "s3cret" (Some "BEARER  s3cret ") Hset)
    as [Hiff Hnone].
  split; [exact Hset|]. split.
  - apply Hiff. exists "BEARER", " s3cret ". split; [reflexivity|].
    split; reflexivity.
  - split; [reflexivity|]. split; [reflexivity|exact Hnone].
Defined.

(** A trigger has started a worker, which has taken the lock. *)
Definition sched_locked : list Sched :=
  [Arrive; Handler 0; Handler 0; Worker 0; Worker 0].

Lemma lock_always_released_witness :
  let c := ex_schedule sched_locked (init w_one) in
  IS_CREATING w_one = false
  /\ RUN_LOCK c = true
  /\ workers c = [InLockTest]
  /\ exists i pc n,
      workers c !! i = Some pc
      /\ at_set pc || in_lock_other pc = true
      /\ (1 <= n <= 4)%nat
      /\ RUN_LOCK (ex_schedule (repeat (Worker i) n) c) = false.
Proof.
  intros c.
  assert (RUN_LOCK c = true) as Hheld by (vm_compute; reflexivity).
  split; [reflexivity|]. split; [exact Hheld|]. split; [vm_compute; reflexivity|].
  exact (lock_always_released ex_probe_video ex_probe_image ex_get_frame
           ex_embedding ex_mean ex_similarity ex_write_videofile no_fault
           ex_isoformat ex_strftime ex_WORK_DIR ex_job_dir ex_open_wb w_one sched_locked
           eq_refl Hheld).
Defined.

(** The name of the next montage is taken by an older artifact. *)
Definition w_clash : World :=
  idle [("incoming/a.mp4", "A"); ("outputs/montage_output_2.mp4", "OLD")]
       [incoming 1 "a.mp4" "2024-05-01T10:00"].

Definition w_clash_done : World := snd (ex_run no_fault w_clash).

Lemma taken_output_name_blocks_run_witness :
  IS_CREATING w_clash = false
  /\ job_rows w_clash <> []
  /\ bucket w_clash !! job_out_remote ex_strftime w_clash = Some "OLD"
  /\ ex_run no_fault w_clash
     = (Raise (ApiError (Upload "outputs/montage_output_2.mp4")), w_clash_done)
  /\ bucket w_clash_done = bucket w_clash
  /\ files w_clash_done = files w_clash
  /\ LAST_RUN w_clash_done = LAST_RUN w_clash
  /\ IS_CREATING w_clash_done = false.
Proof.
  assert (job_rows w_clash <> []) as Hne by (vm_compute; discriminate).
  assert (bucket w_clash !! job_out_remote ex_strftime w_clash = Some "OLD")
    as Htaken by (vm_compute; reflexivity).
  assert (ex_run no_fault w_clash
          = (Raise (ApiError (Upload "outputs/montage_output_2.mp4")), w_clash_done))
    as Hrun by (vm_compute; reflexivity).
  split; [reflexivity|]. split; [exact Hne|]. split; [exact Htaken|].
  split; [exact Hrun|].
  exact (proj2 (taken_output_name_blocks_run ex_probe_video ex_probe_image
                  ex_get_frame ex_embedding ex_mean ex_similarity
                  ex_write_videofile no_fault ex_isoformat ex_strftime
                  ex_WORK_DIR ex_job_dir ex_open_wb w_clash _ _ eq_refl Hne
                  (ex_intro _ "OLD" Htaken) Hrun)).
Defined.

Lemma completed_run_relocates_rows_witness :
  IS_CREATING w_mixed = false
  /\ ex_run no_fault w_mixed = (Ok tt, w_mixed_done)
  /\ job_rows w_mixed <> []
  /\ List.NoDup (map row_id (files w_mixed))
  /\ exists olds out,
      files w_mixed_done = (olds ++ [out])%list
      /\ file_path out = job_out_remote ex_strftime w_mixed
      /\ Forall2 (fun old new =>
                    if is_pending old
                    then file_path new
                         = "archive/" ++ basename (file_path old) ++ "."
                           ++ job_ts ex_strftime w_mixed
                         /\ is_Some (updated_at new)
                         /\ same_but_location old new
                    else new = old)
                 (files w_mixed) olds.
Proof.
  assert (ex_run no_fault w_mixed = (Ok tt, w_mixed_done)) as Hrun
    by (vm_compute; reflexivity).
  assert (job_rows w_mixed <> []) as Hne by (vm_compute; discriminate).
  split; [reflexivity|]. split; [exact Hrun|]. split; [exact Hne|].
  split; [exact w_mixed_ids|].
  exact (completed_run_relocates_rows ex_probe_video ex_probe_image ex_get_frame
           ex_embedding ex_mean ex_similarity ex_write_videofile no_fault
           ex_isoformat ex_strftime ex_WORK_DIR ex_job_dir ex_open_wb w_mixed w_mixed_done
           eq_refl Hrun Hne w_mixed_ids).
Defined.

(** The table refuses the row of the montage. *)
Definition insert_fault (req : Request) : bool := is_insert req.

Definition w_one_orphan : World := snd (ex_run insert_fault w_one).

Lemma insert_failure_orphans_montage_witness :
  IS_CREATING w_one = false
  /\ ex_run insert_fault w_one
     = (Raise (ApiError (Insert "montage_output_2.mp4"
                                "outputs/montage_output_2.mp4")), w_one_orphan)
  /\ exists m,
      ex_build (job_local_paths ex_WORK_DIR ex_job_dir w_one) = Ok m
      /\ "outputs/montage_output_2.mp4" = job_out_remote ex_strftime w_one
      /\ bucket w_one !! "outputs/montage_output_2.mp4" = None
      /\ bucket w_one_orphan !! "outputs/montage_output_2.mp4" = Some (out_bytes m)
      /\ length (files w_one_orphan) = length (files w_one)
      /\ pending (files w_one_orphan) = []
      /\ LAST_RUN w_one_orphan = LAST_RUN w_one
      /\ IS_CREATING w_one_orphan = false.
Proof.
  assert (ex_run insert_fault w_one
          = (Raise (ApiError (Insert "montage_output_2.mp4"
                                     "outputs/montage_output_2.mp4")), w_one_orphan))
    as Hrun by (vm_compute; reflexivity).
  split; [reflexivity|]. split; [exact Hrun|].
  exact (insert_failure_orphans_montage ex_probe_video ex_probe_image ex_get_frame
           ex_embedding ex_mean ex_similarity ex_write_videofile insert_fault
           ex_isoformat ex_strftime ex_WORK_DIR ex_job_dir ex_open_wb w_one _ _ w_one_orphan
           eq_refl Hrun).
Defined.

Lemma update_failure_wedges_witness :
  IS_CREATING w_one = false
  /\ List.NoDup (map row_id (files w_one))
  /\ ex_run update_fault w_one
     = (Raise (ApiError (Update 1 "archive/a.mp4.2")), w_one_stuck)
  /\ (exists r,
        row_id r = 1
        /\ In r (job_rows w_one)
        /\ In r (pending (files w_one_stuck))
        /\ bucket w_one_stuck !! file_path r = None)
  /\ is_Some (bucket w_one_stuck !! job_out_remote ex_strftime w_one)
  /\ length (files w_one_stuck) = length (files w_one)
  /\ LAST_RUN w_one_stuck = LAST_RUN w_one.
Proof.
  assert (ex_run update_fault w_one
          = (Raise (ApiError (Update 1 "archive/a.mp4.2")), w_one_stuck))
    as Hrun by (vm_compute; reflexivity).
  split; [reflexivity|]. split; [exact w_one_ids|]. split; [exact Hrun|].
  exact (update_failure_wedges ex_probe_video ex_probe_image ex_get_frame
           ex_embedding ex_mean ex_similarity ex_write_videofile update_fault
           ex_isoformat ex_strftime ex_WORK_DIR ex_job_dir ex_open_wb w_one _ _ w_one_stuck
           eq_refl w_one_ids Hrun).
Defined.
